(** * Tello-Python: the transport core of [tello/tello.py], embedded in Rocq

    The development follows the Python module top-down:

    - [Py]      the few Python builtins the module relies on ([str.strip],
                [str.split], [str.lower], [in], [int], [float], ...);
    - [Tello]   the class itself: telemetry parser, the two receiver loops,
                the command dispatcher, the retry loop and the command
                operations built on top of them.

    Conventions of the model.

    - Text.  A Python [str] is represented by the string of its UTF-8 bytes,
      so ASCII text is represented by itself, [encode('utf-8')] is the
      identity and [decode('utf-8')] is a well-formedness check.
      [str.strip], [int] and [float] read it character by character, with
      the blanks and the decimal digits of Unicode 14.0 (CPython 3.11).
      Telemetry text is ASCII: [__state_thread] decodes it with
      [decode('ASCII')].
    - Time.  [time.time()] is a clock in integer milliseconds;
      [time.sleep(d)] advances it by exactly [d]; every other statement takes
      no time.  [TIME_BTW_COMMANDS = 0.1] is 100, the polling sleep is 100,
      and a [timeout] of [n] seconds is [1000 * n].
    - Threads.  The command receiver thread is run whenever the clock
      advances: it consumes the datagrams whose arrival time has been reached.
    - Exceptions are results ([Raise]); [try/except] is [try_except].
    - Logging has no influence on control flow or on any state below; the
      [LOGGER] calls are left out. *)

From Stdlib Require Import ZArith Ascii String List Bool Lia.
From Stdlib Require Import Floats.SpecFloat.
From stdpp Require Import base option list strings gmap fin_maps.

Local Open Scope string_scope.
Local Open Scope Z_scope.

(** ** Python builtins *)

Module Py.

(** Exception classes raised in the module (messages are only ever logged). *)
Inductive exn : Type :=
| ValueError
| KeyError
| IndexError
| AttributeError
| UnicodeDecodeError.

#[global] Instance exn_eq_dec : EqDecision exn.
Proof. solve_decision. Defined.

(** The outcome of running a piece of Python code.  [OutOfFuel] is not an
    exception: it marks a loop of the model that was cut off, and is shown
    below never to happen. *)
Inductive result (A : Type) : Type :=
| Ok (a : A)
| Raise (e : exn)
| OutOfFuel.
Arguments Ok {A} a.
Arguments Raise {A} e.
Arguments OutOfFuel {A}.

Definition rbind {A B} (r : result A) (k : A -> result B) : result B :=
  match r with
  | Ok a => k a
  | Raise e => Raise e
  | OutOfFuel => OutOfFuel
  end.

#[global] Instance result_ret : MRet result := @Ok.
#[global] Instance result_bind : MBind result := λ A B k r, rbind r k.

(** *** Characters *)

Definition code (c : ascii) : Z := Z.of_nat (nat_of_ascii c).

Definition between (lo hi : Z) (c : ascii) : bool :=
  (lo <=? code c) && (code c <=? hi).

Definition is_digit : ascii -> bool := between 48 57.

Definition digit_value (c : ascii) : Z := code c - 48.

(** C's [isspace] ([Py_ISSPACE]): what [int] and [float] skip around an
    ASCII literal.  FS..US are not in it. *)
Definition is_c_space (c : ascii) : bool := between 9 13 c || between 32 32 c.

Definition lower_ascii (c : ascii) : ascii :=
  if between 65 90 c then ascii_of_nat (nat_of_ascii c + 32) else c.

(** *** Strings *)

Fixpoint drop_while (p : ascii -> bool) (s : string) : string :=
  match s with
  | String c s' => if p c then drop_while p s' else s
  | EmptyString => EmptyString
  end.

Definition drop_while_end (p : ascii -> bool) (s : string) : string :=
  String.rev (drop_while p (String.rev s)).

(** *** Characters beyond ASCII

    A [str] is met through its UTF-8 bytes (lone surrogates as their three
    bytes).  [chars] cuts it into its characters; a byte that begins no
    character is a piece of its own, with no code point. *)

Definition cont : ascii -> bool := between 128 191.

Fixpoint chars (s : string) : list string :=
  match s with
  | EmptyString => []
  | String c1 s1 =>
      let alone := String c1 EmptyString :: chars s1 in
      if between 0 127 c1 then alone
      else
        match s1 with
        | EmptyString => alone
        | String c2 s2 =>
            if between 194 223 c1 then
              if cont c2 then String c1 (String c2 EmptyString) :: chars s2
              else alone
            else
              match s2 with
              | EmptyString => alone
              | String c3 s3 =>
                  if between 224 239 c1 then
                    if (if between 224 224 c1 then between 160 191 c2 else cont c2)
                       && cont c3
                    then String c1 (String c2 (String c3 EmptyString)) :: chars s3
                    else alone
                  else
                    match s3 with
                    | EmptyString => alone
                    | String c4 s4 =>
                        if between 240 244 c1
                           && (if between 240 240 c1 then between 144 191 c2
                               else if between 244 244 c1 then between 128 143 c2
                               else cont c2)
                           && cont c3 && cont c4
                        then String c1 (String c2 (String c3 (String c4 EmptyString)))
                             :: chars s4
                        else alone
                    end
              end
        end
  end.

(** The code point of a character, [-1] for a piece that is none. *)
Definition code_point (ch : string) : Z :=
  match ch with
  | String c1 EmptyString => if between 0 127 c1 then code c1 else -1
  | String c1 (String c2 EmptyString) =>
      (code c1 - 192) * 64 + (code c2 - 128)
  | String c1 (String c2 (String c3 EmptyString)) =>
      (code c1 - 224) * 4096 + (code c2 - 128) * 64 + (code c3 - 128)
  | String c1 (String c2 (String c3 (String c4 EmptyString))) =>
      (code c1 - 240) * 262144 + (code c2 - 128) * 4096
      + (code c3 - 128) * 64 + (code c4 - 128)
  | _ => -1
  end.

(** [str.isspace] of one character ([Py_UNICODE_ISSPACE]). *)
Definition is_unicode_space (cp : Z) : bool :=
  ((9 <=? cp) && (cp <=? 13)) || ((28 <=? cp) && (cp <=? 32))
  || (cp =? 133) || (cp =? 160) || (cp =? 5760)
  || ((8192 <=? cp) && (cp <=? 8202))
  || (cp =? 8232) || (cp =? 8233) || (cp =? 8239) || (cp =? 8287)
  || (cp =? 12288).

(** The characters with a decimal digit value come in runs of ten, zero
    first; these are the zeros beyond ASCII (Unicode 14.0, the tables of
    CPython 3.11). *)
Definition unicode_zeros : list Z :=
  [ 1632; 1776; 1984; 2406; 2534; 2662; 2790; 2918; 3046; 3174; 3302; 3430;
    3558; 3664; 3792; 3872; 4160; 4240; 6112; 6160; 6470; 6608; 6784; 6800;
    6992; 7088; 7232; 7248; 42528; 43216; 43264; 43472; 43504; 43600; 44016;
    65296; 66720; 68912; 69734; 69872; 69942; 70096; 70384; 70736; 70864;
    71248; 71360; 71472; 71904; 72016; 72784; 73040; 73120; 92768; 92864;
    93008; 120782; 120792; 120802; 120812; 120822; 123200; 123632; 125264;
    130032 ].

(** [Py_UNICODE_TODECIMAL] of a character beyond ASCII. *)
Definition unicode_decimal (cp : Z) : option Z :=
  (λ zero, cp - zero)
    <$> List.find (λ zero, (zero <=? cp) && (cp <=? zero + 9)) unicode_zeros.

Fixpoint skip {A} (p : A -> bool) (l : list A) : list A :=
  match l with
  | x :: l' => if p x then skip p l' else l
  | [] => []
  end.

Definition skip_end {A} (p : A -> bool) (l : list A) : list A :=
  List.rev (skip p (List.rev l)).

(** [s.strip()]: the blanks of [str.isspace] at both ends, those beyond
    ASCII included. *)
Definition strip (s : string) : string :=
  let blank ch := is_unicode_space (code_point ch) in
  String.concat EmptyString (skip_end blank (skip blank (chars s))).

(** [s.rstrip(chars)] *)
Definition rstrip (chars : list ascii) (s : string) : string :=
  drop_while_end (fun c => bool_decide (c ∈ chars)) s.

(** [s.split(sep)] for a one-character separator: never empty. *)
Fixpoint split (sep : ascii) (s : string) : list string :=
  match s with
  | EmptyString => [EmptyString]
  | String c s' =>
      if Ascii.eqb c sep then EmptyString :: split sep s'
      else match split sep s' with
           | w :: ws => String c w :: ws
           | [] => [String c EmptyString]
           end
  end.

(** [sub in s] *)
Fixpoint contains (sub s : string) : bool :=
  String.prefix sub s ||
  match s with
  | String _ s' => contains sub s'
  | EmptyString => false
  end.

(** [s.lower()].  On the UTF-8 representation only two non-ASCII characters
    lower to something with an ASCII character in it: U+212A KELVIN SIGN
    (E2 84 AA) to "k" and U+0130 (C4 B0) to "i" followed by U+0307 (CC 87).
    Every other non-ASCII character lowers to non-ASCII characters, which
    the model leaves in place: they take no part in a comparison with ASCII
    text. *)
Fixpoint lower (s : string) : string :=
  match s with
  | String "226" (String "132" (String "170" s')) => String "k" (lower s')
  | String "196" (String "176" s') =>
      String "i" (String "204" (String "135" (lower s')))
  | String c s' => String (lower_ascii c) (lower s')
  | EmptyString => EmptyString
  end.

(** [s.replace(old, new)] for a one-character [old]. *)
Fixpoint replace (old : ascii) (new : string) (s : string) : string :=
  match s with
  | String c s' =>
      if Ascii.eqb c old then new +:+ replace old new s'
      else String c (replace old new s')
  | EmptyString => EmptyString
  end.

(** [str(n)] and [f'{n}'] for an [int]. *)
Definition digit_char (d : Z) : ascii := ascii_of_nat (Z.to_nat (48 + d)).

Fixpoint str_of_pos_fuel (fuel : nat) (n : Z) (acc : string) : string :=
  match fuel with
  | O => acc
  | S fuel' =>
      let acc' := String (digit_char (n mod 10)) acc in
      if n <? 10 then acc' else str_of_pos_fuel fuel' (n / 10) acc'
  end.

Definition str_of_int (n : Z) : string :=
  let digits := str_of_pos_fuel (S (Z.to_nat (Z.log2 (Z.abs n)))) (Z.abs n) EmptyString in
  if n <? 0 then String "-" digits else digits.

(** *** [int(s)]

    The text is first brought to ASCII
    ([_PyUnicode_TransformDecimalAndSpaceToASCII]): beyond ASCII a blank
    becomes a space and a decimal digit its ASCII digit, and at any other
    character the text is cut with a "?" in its place.  Then: blanks
    around, an optional sign, decimal digits in which single underscores may
    separate digits; and no more than 4300 digits
    ([sys.int_info.default_max_str_digits]). *)

Definition to_ascii (s : string) : string :=
  foldr (λ ch rest,
           let cp := code_point ch in
           if (0 <=? cp) && (cp <=? 127) then ch +:+ rest
           else if is_unicode_space cp then String " " rest
           else match unicode_decimal cp with
                | Some d => String (digit_char d) rest
                | None => "?"
                end)
        EmptyString (chars s).

Definition max_str_digits : Z := 4300.

(** The number of digits in the text. *)
Fixpoint digits_in (s : string) : Z :=
  match s with
  | String c s' => (if is_digit c then 1 else 0) + digits_in s'
  | EmptyString => 0
  end.

Definition c_strip (s : string) : string :=
  drop_while_end is_c_space (drop_while is_c_space s).

Definition split_sign (s : string) : bool * string :=
  match s with
  | String "-" s' => (true, s')
  | String "+" s' => (false, s')
  | _ => (false, s)
  end.

(** digit (["_"] digit)*, up to the end of the string *)
Fixpoint digitpart (s : string) (acc : Z) (after_digit : bool) : option Z :=
  match s with
  | EmptyString => if after_digit then Some acc else None
  | String c s' =>
      if is_digit c then digitpart s' (10 * acc + digit_value c) true
      else if Ascii.eqb c "_" then
        if after_digit then digitpart s' acc false else None
      else None
  end.

Definition signed (neg : bool) (n : Z) : Z := if neg then - n else n.

Definition int (s : string) : result Z :=
  let '(neg, body) := split_sign (c_strip (to_ascii s)) in
  match digitpart body 0 false with
  | Some n =>
      if max_str_digits <? digits_in body then Raise ValueError
      else Ok (signed neg n)
  | None => Raise ValueError
  end.

(** *** [float(s)]

    Python floats are IEEE 754 binary64 values; [float] brings the text to
    ASCII as [int] does and rounds the decimal literal to the nearest
    value, ties to even.  The values are [spec_float]s
    with [prec = 53] and [emax = 1024]. *)

Definition prec : Z := 53.
Definition emax : Z := 1024.

(** The binary64 value nearest to [m * 10 ^ e]. *)
Definition decimal_to_binary64 (neg : bool) (m e : Z) : spec_float :=
  match m with
  | Zpos p =>
      if 0 <=? e then binary_round prec emax neg (p * Z.to_pos (10 ^ e)) 0
      else
        let '(q, eq, loc) := SFdiv_core_binary prec emax (Zpos p) 0 (10 ^ (- e)) 0 in
        binary_round_aux prec emax neg q eq loc
  | _ => S754_zero neg
  end.

(** The longest digit (["_"] digit)* prefix, continuing the value [acc]:
    the value, the number of digits read and the rest of the text. *)
Fixpoint take_digits (s : string) (acc : Z) (n : nat) : Z * nat * string :=
  match s with
  | String c s' =>
      if is_digit c then take_digits s' (10 * acc + digit_value c) (S n)
      else if Ascii.eqb c "_" then
        match n, s' with
        | S _, String c' _ => if is_digit c' then take_digits s' acc n else (acc, n, s)
        | _, _ => (acc, n, s)
        end
      else (acc, n, s)
  | EmptyString => (acc, n, EmptyString)
  end.

(** [("e" | "E") [sign] digitpart], or nothing, up to the end *)
Definition exponent (s : string) : option Z :=
  match s with
  | EmptyString => Some 0
  | String c s' =>
      if Ascii.eqb (lower_ascii c) "e" then
        let '(neg, body) := split_sign s' in
        signed neg <$> digitpart body 0 false
      else None
  end.

(** [[digitpart] "." digitpart | digitpart ["."]] followed by an optional
    exponent: the decimal mantissa and exponent of the literal. *)
Definition floatnumber (s : string) : option (Z * Z) :=
  let '(i, ni, rest) := take_digits s 0 0 in
  match rest with
  | String "." rest' =>
      let '(m, nf, rest'') := take_digits rest' i 0 in
      match ni, nf with
      | O, O => None
      | _, _ => e ← exponent rest''; Some (m, e - Z.of_nat nf)
      end
  | _ =>
      match ni with
      | O => None
      | S _ => e ← exponent rest; Some (i, e)
      end
  end.

Definition ascii_lower (s : string) : string :=
  string_of_list_ascii (lower_ascii <$> list_ascii_of_string s).

Definition float (s : string) : result spec_float :=
  let '(neg, body) := split_sign (c_strip (to_ascii s)) in
  let name := ascii_lower body in
  if bool_decide (name = "inf" ∨ name = "infinity") then Ok (S754_infinity neg)
  else if bool_decide (name = "nan") then Ok S754_nan
  else match floatnumber body with
       | Some (m, e) => Ok (decimal_to_binary64 neg m e)
       | None => Raise ValueError
       end.


(** *** Bytes *)

(** [b.decode('ASCII')]: every byte below 128. *)
Definition is_ascii (b : string) : bool :=
  forallb (between 0 127) (list_ascii_of_string b).

Definition decode_ascii (b : string) : result string :=
  if is_ascii b then Ok b else Raise UnicodeDecodeError.

(** Well-formed UTF-8 (no overlong forms, no surrogates, nothing above
    U+10FFFF), as the strict decoder of [bytes.decode('utf-8')] accepts it. *)
Fixpoint well_formed_utf8 (b : string) : bool :=
  match b with
  | EmptyString => true
  | String c1 b1 =>
      if between 0 127 c1 then well_formed_utf8 b1
      else
        match b1 with
        | EmptyString => false
        | String c2 b2 =>
            if between 194 223 c1 then cont c2 && well_formed_utf8 b2
            else
              match b2 with
              | EmptyString => false
              | String c3 b3 =>
                  if between 224 239 c1 then
                    (if between 224 224 c1 then between 160 191 c2
                     else if between 237 237 c1 then between 128 159 c2
                     else cont c2)
                    && cont c3 && well_formed_utf8 b3
                  else
                    match b3 with
                    | EmptyString => false
                    | String c4 b4 =>
                        between 240 244 c1
                        && (if between 240 240 c1 then between 144 191 c2
                            else if between 244 244 c1 then between 128 143 c2
                            else cont c2)
                        && cont c3 && cont c4 && well_formed_utf8 b4
                    end
              end
        end
  end.

Definition decode_utf8 (b : string) : result string :=
  if well_formed_utf8 b then Ok b else Raise UnicodeDecodeError.

Definition encode_utf8 (s : string) : string := s.

(** *** Sequences and dictionaries *)

(** [l[i]] *)
Definition getitem {A} (l : list A) (i : nat) : result A :=
  match l !! i with
  | Some x => Ok x
  | None => Raise IndexError
  end.

(** [d[k]] *)
Definition dict_getitem `{Countable K} {A} (d : gmap K A) (k : K) : result A :=
  match d !! k with
  | Some x => Ok x
  | None => Raise KeyError
  end.

(** [k in d] *)
Definition dict_in `{Countable K} {A} (k : K) (d : gmap K A) : bool :=
  bool_decide (is_Some (d !! k)).

End Py.

(** ** The module [tello.py] *)

Module Tello.
Import Py.

(** *** Values and module-level state *)

(** A telemetry value: [Union[int, float, str]]; also what the read commands
    return. *)
Inductive value : Type :=
| VInt (n : Z)
| VFloat (x : spec_float)
| VStr (s : string).

#[global] Instance spec_float_eq_dec : EqDecision spec_float.
Proof. solve_decision. Defined.

#[global] Instance value_eq_dec : EqDecision value.
Proof. solve_decision. Defined.

(** The classes [int] and [float] used as converters. *)
Inductive num_type : Type := Int | Float.

Definition convert (t : num_type) (text : string) : result value :=
  match t with
  | Int => n ← Py.int text; Ok (VInt n)
  | Float => x ← Py.float text; Ok (VFloat x)
  end.

(** A UDP peer address [(host, port)] and a received datagram. *)
Definition endpoint : Type := string * Z.

Record datagram : Type := Datagram {
  payload : string;
  source : endpoint
}.

(** One entry of the global [drones] dictionary:
    [{'responses': [], 'state': {}}]. *)
Record PeerRecord : Type := Peer {
  responses : list string;
  state : gmap string value
}.

(** The globals of the module and the network around it. *)
Record World : Type := MkWorld {
  clock : Z;                                (* time.time(), milliseconds *)
  threads_initialized : bool;
  drones : gmap string PeerRecord;
  inbox : list (Z * datagram);              (* on their way to client_socket:
                                               arrival time, datagram *)
  outbox : list (Z * (string * endpoint))    (* sent by client_socket.sendto:
                                               time, payload, destination *)
}.

(** The instance attributes of a [Tello] object. *)
Record Tello : Type := MkTello {
  address : endpoint;
  retry_count : Z;
  last_received_command_timestamp : Z;
  last_rc_control_timestamp : Z;
  sdk_mode_enable : bool;
  sdk_version : option value;               (* None, or what get_sdk_version gave *)
  hardware : option value;
  mission_mode_enable : bool;
  STREAMING_ENABLE : bool;
  VIDEO_STREAMING_PORT : Z;
  state_receiver_thread : bool              (* set once connect() started it *)
}.

(** *** Class constants *)

Definition LOCAL_IP : string := "0.0.0.0".
Definition TELLO_IP : string := "192.168.10.1".
Definition TELLO_PORT : Z := 8889.
Definition STATE_UDP_PORT : Z := 8890.

Definition INT_STATE_FIELDS : list string :=
  [ "mid"; "x"; "y"; "z";
    "pitch"; "roll"; "yaw";
    "vgx"; "vgy"; "vgz";
    "templ"; "temph";
    "tof"; "h";
    "bat";
    "time" ].

Definition FLOAT_STATE_FIELDS : list string :=
  [ "baro"; "agx"; "agy"; "agz" ].

(** [{key: int for ...}] then [.update({key: float for ...})] *)
Definition state_field_converters : gmap string num_type :=
  list_to_map ((λ key, (key, Float)) <$> FLOAT_STATE_FIELDS)
  ∪ list_to_map ((λ key, (key, Int)) <$> INT_STATE_FIELDS).

Definition TIMEOUT : Z := 8.
Definition TIME_BTW_COMMANDS : Z := 100.     (* 0.1 s *)
Definition RETRY_COUNT : Z := 3.

Definition SPEED_RANGE : Z * Z := (10, 100).
Definition DISTANCE_RANGE : Z * Z := (20, 500).
Definition ANGLE_RANGE : Z * Z := (0, 360).
Definition COORDINATES_RANGE : Z * Z := (-500, 500).
Definition JOYSTICK_RANGE : Z * Z := (-100, 100).

Definition MISSION_DETECTION_DIRECTION : gmap string Z :=
  list_to_map [ ("downward", 0); ("forward", 1); ("both", 2) ].

Definition SET_SPEED : gmap string Z :=
  list_to_map [ ("low", 10); ("mid", 50); ("high", 100) ].

Definition SET_FPS : list string := [ "high"; "middle"; "low" ].

Definition SET_BITRATE : gmap string Z :=
  list_to_map [ ("auto", 0); ("1", 1); ("2", 2); ("3", 3); ("4", 4); ("5", 5) ].

(** [("high" "low")]: without a comma this is the one string "highlow". *)
Definition SET_RESOLUTION : string := "highlow".

Definition FLIP_DIRECTION : gmap string string :=
  list_to_map [ ("left", "l"); ("right", "r"); ("forward", "f"); ("backward", "b") ].

Definition MISSION_PAD_IDs : gmap Z string :=
  list_to_map [ (1, "m1"); (2, "m2"); (3, "m3"); (4, "m4");
                (5, "m5"); (6, "m6"); (7, "m7"); (8, "m8") ].

Definition CAMERA_DIRECTION : gmap string string :=
  list_to_map [ ("forward", "0"); ("downward", "1") ].

(** *** [__state_parse] *)

(** One turn of [for field in state.split(';')]; [continue] returns the
    dictionary as it is. *)
Definition parse_field (field : string) (state_dict : gmap string value)
  : result (gmap string value) :=
  let split := Py.split ":" field in
  if (length split <? 2)%nat then Ok state_dict
  else
    key ← getitem split 0;
    value ← getitem split 1;
    if dict_in key state_field_converters then
      num_type ← dict_getitem state_field_converters key;
      match convert num_type value with
      | Ok value => Ok (<[key := value]> state_dict)
      | Raise ValueError => Ok state_dict
      | Raise e => Raise e
      | OutOfFuel => OutOfFuel
      end
    else Ok (<[key := VStr value]> state_dict).

Fixpoint parse_fields (fields : list string) (state_dict : gmap string value)
  : result (gmap string value) :=
  match fields with
  | [] => Ok state_dict
  | field :: fields' =>
      state_dict' ← parse_field field state_dict;
      parse_fields fields' state_dict'
  end.

Definition __state_parse (state : string) : result (gmap string value) :=
  let state := Py.strip state in
  if bool_decide (state = "ok") then Ok ∅
  else parse_fields (Py.split ";" state) ∅.

(** *** The receiver loops *)

(** One turn of the [while True] of [__receive_thread], for the datagram
    that [client_socket.recvfrom] returned. *)
Definition receive_datagram (drones : gmap string PeerRecord) (dg : datagram)
  : gmap string PeerRecord :=
  let address := (source dg).1 in
  match drones !! address with
  | None => drones
  | Some peer =>
      <[address := Peer (responses peer ++ [payload dg]) (state peer)]> drones
  end.

(** [__receive_thread] over the datagrams that reach the command socket. *)
Definition __receive_thread (dgs : list datagram) (drones : gmap string PeerRecord)
  : gmap string PeerRecord :=
  foldl receive_datagram drones dgs.

(** One turn of the [while True] of [__state_thread]. *)
Definition state_datagram (drones : gmap string PeerRecord) (dg : datagram)
  : result (gmap string PeerRecord) :=
  let address := (source dg).1 in
  match drones !! address with
  | None => Ok drones
  | Some peer =>
      response ← decode_ascii (payload dg);
      parsed ← __state_parse response;
      Ok (<[address := Peer (responses peer) parsed]> drones)
  end.

(** [__state_thread] over the datagrams that reach the state socket; an
    exception ends the loop ([break]) and the rest is never read. *)
Fixpoint __state_thread (dgs : list datagram) (drones : gmap string PeerRecord)
  : gmap string PeerRecord :=
  match dgs with
  | [] => drones
  | dg :: dgs' =>
      match state_datagram drones dg with
      | Ok drones' => __state_thread dgs' drones'
      | _ => drones
      end
  end.

(** *** Time *)

Definition arrived (now : Z) (x : Z * datagram) : bool := x.1 <=? now.

(** The clock moves on by [d]; meanwhile the command receiver thread, if it
    was started, takes in what has arrived. *)
Definition advance (d : Z) (w : World) : World :=
  let now := clock w + d in
  if threads_initialized w then
    MkWorld now true
      (__receive_thread (snd <$> filter (λ x, arrived now x) (inbox w)) (drones w))
      (filter (λ x, ¬ arrived now x) (inbox w))
      (outbox w)
  else MkWorld now false (drones w) (inbox w) (outbox w).

(** *** Methods: state and exceptions *)

(** A method runs on [self] and the globals and ends with a value or an
    exception; the state it leaves is kept in both cases. *)
Definition M (A : Type) : Type := Tello → World → result A * Tello * World.

Definition ret {A} (a : A) : M A := λ self w, (Ok a, self, w).

Definition raise {A} (e : exn) : M A := λ self w, (Raise e, self, w).

Definition bind {A B} (m : M A) (k : A → M B) : M B :=
  λ self w,
    match m self w with
    | (Ok a, self', w') => k a self' w'
    | (Raise e, self', w') => (Raise e, self', w')
    | (OutOfFuel, self', w') => (OutOfFuel, self', w')
    end.

(** [try: body / except: handler] with a bare [except]. *)
Definition try_except {A} (body handler : M A) : M A :=
  λ self w,
    match body self w with
    | (Raise _, self', w') => handler self' w'
    | r => r
    end.

(** [try: body / except cls: handler] *)
Definition try_except_class {A} (cls : exn) (body handler : M A) : M A :=
  λ self w,
    match body self w with
    | (Raise e, self', w') =>
        if bool_decide (e = cls) then handler self' w' else (Raise e, self', w')
    | r => r
    end.

(** A builtin's result inside a method. *)
Definition lift {A} (r : result A) : M A := λ self w, (r, self, w).

Notation "'let*' x := m 'in' k" := (bind m (λ x, k))
  (at level 10, x name, m at level 100, k at level 200).
Notation "m ;; k" := (bind m (λ _, k))
  (at level 100, k at level 200, right associativity).

Definition get {A} (f : Tello → A) : M A := λ self w, (Ok (f self), self, w).
Definition update (f : Tello → Tello) : M unit := λ self w, (Ok (), f self, w).
Definition get_world {A} (f : World → A) : M A := λ self w, (Ok (f w), self, w).
Definition update_world (f : World → World) : M unit := λ self w, (Ok (), self, f w).

Definition set_last_received_command_timestamp (t : Z) (self : Tello) : Tello :=
  MkTello (address self) (retry_count self) t (last_rc_control_timestamp self)
    (sdk_mode_enable self) (sdk_version self) (hardware self)
    (mission_mode_enable self) (STREAMING_ENABLE self) (VIDEO_STREAMING_PORT self)
    (state_receiver_thread self).

Definition set_sdk_mode_enable (b : bool) (self : Tello) : Tello :=
  MkTello (address self) (retry_count self) (last_received_command_timestamp self)
    (last_rc_control_timestamp self) b (sdk_version self) (hardware self)
    (mission_mode_enable self) (STREAMING_ENABLE self) (VIDEO_STREAMING_PORT self)
    (state_receiver_thread self).

Definition set_sdk_version (v : option value) (self : Tello) : Tello :=
  MkTello (address self) (retry_count self) (last_received_command_timestamp self)
    (last_rc_control_timestamp self) (sdk_mode_enable self) v (hardware self)
    (mission_mode_enable self) (STREAMING_ENABLE self) (VIDEO_STREAMING_PORT self)
    (state_receiver_thread self).

Definition set_hardware (h : option value) (self : Tello) : Tello :=
  MkTello (address self) (retry_count self) (last_received_command_timestamp self)
    (last_rc_control_timestamp self) (sdk_mode_enable self) (sdk_version self) h
    (mission_mode_enable self) (STREAMING_ENABLE self) (VIDEO_STREAMING_PORT self)
    (state_receiver_thread self).

Definition set_mission_mode_enable (b : bool) (self : Tello) : Tello :=
  MkTello (address self) (retry_count self) (last_received_command_timestamp self)
    (last_rc_control_timestamp self) (sdk_mode_enable self) (sdk_version self)
    (hardware self) b (STREAMING_ENABLE self) (VIDEO_STREAMING_PORT self)
    (state_receiver_thread self).

Definition set_STREAMING_ENABLE (b : bool) (self : Tello) : Tello :=
  MkTello (address self) (retry_count self) (last_received_command_timestamp self)
    (last_rc_control_timestamp self) (sdk_mode_enable self) (sdk_version self)
    (hardware self) (mission_mode_enable self) b (VIDEO_STREAMING_PORT self)
    (state_receiver_thread self).

Definition set_VIDEO_STREAMING_PORT (p : Z) (self : Tello) : Tello :=
  MkTello (address self) (retry_count self) (last_received_command_timestamp self)
    (last_rc_control_timestamp self) (sdk_mode_enable self) (sdk_version self)
    (hardware self) (mission_mode_enable self) (STREAMING_ENABLE self) p
    (state_receiver_thread self).

Definition set_state_receiver_thread (b : bool) (self : Tello) : Tello :=
  MkTello (address self) (retry_count self) (last_received_command_timestamp self)
    (last_rc_control_timestamp self) (sdk_mode_enable self) (sdk_version self)
    (hardware self) (mission_mode_enable self) (STREAMING_ENABLE self)
    (VIDEO_STREAMING_PORT self) b.

(** [time.time()] *)
Definition time : M Z := get_world clock.

(** [time.sleep(d)]: a negative length is a [ValueError]. *)
Definition sleep (d : Z) : M unit :=
  if d <? 0 then raise ValueError else update_world (advance d).

(** [client_socket.sendto(data, address)] *)
Definition sendto (data : string) (addr : endpoint) : M unit :=
  update_world (λ w,
    MkWorld (clock w) (threads_initialized w) (drones w) (inbox w)
      (outbox w ++ [(clock w, (data, addr))])).

(** *** [__init__] *)

Definition __init__ (tello_ip : string) (retry_count : Z) (w : World)
  : Tello * World :=
  (MkTello (tello_ip, TELLO_PORT) retry_count (clock w) (clock w)
     false None None false false 11111 false,
   MkWorld (clock w) true (<[tello_ip := Peer [] ∅]> (drones w))
     (inbox w) (outbox w)).

(** *** The command dispatcher *)

(** [__get_own_udp_object]: [drones[self.address[0]]] *)
Definition __get_own_udp_object : M PeerRecord :=
  let* addr := get address in
  let* drones := get_world drones in
  lift (dict_getitem drones addr.1).

(** The list object [responses] fetched before the loop, as it is now:
    the receiver thread appends to this very list. *)
Definition own_responses : M (list string) :=
  let* addr := get address in
  let* drones := get_world drones in
  ret (from_option responses [] (drones !! addr.1)).

(** [responses.pop(0)] *)
Definition pop_first_response : M string :=
  let* addr := get address in
  let* peer := __get_own_udp_object in
  match responses peer with
  | [] => raise IndexError
  | first :: rest =>
      update_world (λ w,
        MkWorld (clock w) (threads_initialized w)
          (<[addr.1 := Peer rest (state peer)]> (drones w)) (inbox w) (outbox w)) ;;
      ret first
  end.

(** The loop [while not responses]: [true] when it is left with a response
    queued, [false] when it returns on the timeout. *)
Fixpoint wait_for_response (fuel : nat) (timestamp timeout : Z) : M bool :=
  match fuel with
  | O => λ self w, (OutOfFuel, self, w)
  | S fuel' =>
      let* responses := own_responses in
      match responses with
      | [] =>
          let* now := time in
          if now - timestamp >? 1000 * timeout then ret false
          else sleep 100 ;; wait_for_response fuel' timestamp timeout
      | _ :: _ => ret true
      end
  end.

(** Turns of the loop that a [timeout] allows at most. *)
Definition polls (timeout : Z) : nat := Z.to_nat (10 * timeout) + 2.

Definition timeout_message (command : string) (timeout : Z) : string :=
  "Aborting command '" +:+ command +:+ "'. Did not receive a response after "
  +:+ str_of_int timeout +:+ " seconds".

(** [__send_command_and_return], in the three steps of its body.

    Pacing, then the datagram; the value is [timestamp]. *)
Definition pace_and_send (command : string) : M Z :=
  let* now := time in
  let* last := get last_received_command_timestamp in
  let diff := now - last in
  (if diff <? TIME_BTW_COMMANDS then sleep diff else ret ()) ;;
  let* timestamp := time in
  let* addr := get address in
  sendto (encode_utf8 command) addr ;;
  ret timestamp.

(** [responses = ...['responses']] and the loop on it. *)
Definition await_response (timestamp timeout : Z) : M bool :=
  let* _ := __get_own_udp_object in
  wait_for_response (polls timeout) timestamp timeout.

(** After the loop: the timestamp, [pop(0)], [decode], [rstrip]. *)
Definition read_response : M string :=
  let* now := time in
  update (set_last_received_command_timestamp now) ;;
  let* first_response := pop_first_response in
  try_except_class UnicodeDecodeError
    (let* response := lift (decode_utf8 first_response) in
     ret (rstrip ["013"; "010"]%char response))
    (ret "response decode error").

Definition __send_command_and_return (command : string) (timeout : Z) : M string :=
  let* timestamp := pace_and_send command in
  let* answered := await_response timestamp timeout in
  if answered then read_response
  else ret (timeout_message command timeout).

(** The [for i in range(0, self.retry_count)] of [send_command]. *)
Fixpoint send_command_attempts (n : nat) (command : string) (timeout : Z) : M bool :=
  match n with
  | O => ret false
  | S n' =>
      let* response := __send_command_and_return command timeout in
      if contains "ok" (lower response) then ret true
      else send_command_attempts n' command timeout
  end.

Definition send_command (command : string) (timeout : Z) : M bool :=
  let* retry_count := get retry_count in
  send_command_attempts (Z.to_nat retry_count) command timeout.

(** *** Checks and log helpers *)

Definition __check_sdk_mode : M unit :=
  let* enabled := get sdk_mode_enable in
  if enabled then ret () else raise ValueError.

Definition __check_sdk_version (version : Z) : M unit :=
  let* current := get sdk_version in
  if bool_decide (current = Some (VInt version)) then ret () else raise ValueError.

Definition __check_hardware (hw : string) : M unit :=
  let* current := get hardware in
  if bool_decide (current = Some (VStr hw)) then ret () else raise ValueError.

(** These six only write to the log (the [options] texts are left out at
    their calls). *)
Definition __convertion_fail (field data_type : string) : M unit := ret ().
Definition __read_command_fail (field : string) : M unit := ret ().
Definition __set_command_fail (field : string) : M unit := ret ().
Definition __control_command_fail (field : string) : M unit := ret ().
Definition __value_out_range (range : Z * Z) (value_name : string) : M unit := ret ().
Definition __invalid_option (options : string) : M unit := ret ().

Definition __check_in_range (value : Z) (range : Z * Z) : bool :=
  if (value >=? range.1) && (value <=? range.2) then true else false.

(** *** Read commands *)

Definition get_current_set_speed : M (option value) :=
  try_except
    (__check_sdk_mode ;;
     let* speed := __send_command_and_return "speed?" TIMEOUT in
     try_except
       (let* speed := lift (Py.float speed) in ret (Some (VFloat speed)))
       (__convertion_fail "speed" "float" ;; ret (Some (VInt (-1)))))
    (__read_command_fail "speed" ;; ret None).

Definition get_battery : M (option value) :=
  try_except
    (__check_sdk_mode ;;
     let* battery := __send_command_and_return "battery?" TIMEOUT in
     try_except
       (let* battery := lift (Py.int battery) in ret (Some (VInt battery)))
       (__convertion_fail "battery" "int" ;; ret (Some (VInt (-1)))))
    (__read_command_fail "battery" ;; ret None).

Definition get_flight_time : M (option value) :=
  try_except
    (__check_sdk_mode ;;
     let* time := __send_command_and_return "time?" TIMEOUT in
     try_except
       (let time := Py.replace "s" EmptyString time in
        let* time := lift (Py.int time) in ret (Some (VInt time)))
       (__convertion_fail "time" "int" ;; ret (Some (VInt (-1)))))
    (__read_command_fail "time" ;; ret None).

Definition get_wifi_snr : M (option value) :=
  try_except
    (__check_sdk_mode ;;
     let* wifi := __send_command_and_return "wifi?" TIMEOUT in
     try_except
       (ret (Some (VStr wifi)))
       (__convertion_fail "Wi-Fi SNR" "str" ;; ret (Some (VInt (-1)))))
    (__read_command_fail "Wi-Fi SNR" ;; ret None).

Definition get_sdk_version : M (option value) :=
  try_except
    (__check_sdk_mode ;;
     let* sdk := __send_command_and_return "sdk?" TIMEOUT in
     try_except
       (let* sdk := lift (Py.int sdk) in ret (Some (VInt sdk)))
       (__convertion_fail "SDK version" "int" ;; ret (Some (VInt (-1)))))
    (__read_command_fail "SDK version" ;; ret None).

Definition get_serial : M (option value) :=
  try_except
    (__check_sdk_mode ;;
     let* serial := __send_command_and_return "sn?" TIMEOUT in
     try_except
       (ret (Some (VStr serial)))
       (__convertion_fail "serial number" "str" ;; ret (Some (VInt (-1)))))
    (__read_command_fail "serial number" ;; ret None).

Definition get_hardware : M (option value) :=
  try_except
    (__check_sdk_mode ;;
     __check_sdk_version 30 ;;
     let* hardware := __send_command_and_return "hardware?" TIMEOUT in
     try_except
       (ret (Some (VStr hardware)))
       (__convertion_fail "hardware" "str" ;; ret (Some (VInt (-1)))))
    (__read_command_fail "hardware" ;; ret None).

Definition get_wifi_version : M (option value) :=
  try_except
    (__check_sdk_mode ;;
     __check_hardware "RMTT" ;;
     let* wifi_version := __send_command_and_return "wifiversion?" TIMEOUT in
     try_except
       (ret (Some (VStr wifi_version)))
       (__convertion_fail "wifi version" "str" ;; ret (Some (VInt (-1)))))
    (__read_command_fail "wifi version" ;; ret None).

Definition get_ap : M (option value) :=
  try_except
    (__check_sdk_mode ;;
     __check_hardware "RMTT" ;;
     let* ap := __send_command_and_return "ap?" TIMEOUT in
     try_except
       (ret (Some (VStr ap)))
       (__convertion_fail "name and password" "str" ;; ret (Some (VInt (-1)))))
    (__read_command_fail "name and password" ;; ret None).

Definition get_ssid : M (option value) :=
  try_except
    (__check_sdk_mode ;;
     __check_hardware "RMTT" ;;
     let* ssid := __send_command_and_return "ssid?" TIMEOUT in
     try_except
       (ret (Some (VStr ssid)))
       (__convertion_fail "SSID" "str" ;; ret (Some (VInt (-1)))))
    (__read_command_fail "SSID" ;; ret None).

(** *** Set commands *)

Definition set_speed (speed : Z) : M unit :=
  try_except
    (__check_sdk_mode ;;
     if __check_in_range speed SPEED_RANGE then
       let* _ := __send_command_and_return ("speed " +:+ str_of_int speed) TIMEOUT in
       ret ()
     else __value_out_range SPEED_RANGE EmptyString)
    (__set_command_fail "speed").

Definition set_wifi (ssid password : string) : M unit :=
  try_except
    (__check_sdk_mode ;;
     let ssid := Py.replace " " "-" ssid in
     let* _ := __send_command_and_return
                 ("wifi " +:+ ssid +:+ " " +:+ password) TIMEOUT in
     ret ())
    (__set_command_fail "SSID and password").

Definition set_mission_on : M unit :=
  try_except
    (__check_sdk_mode ;;
     let* _ := __send_command_and_return "mon" TIMEOUT in
     update (set_mission_mode_enable true))
    (__set_command_fail "mon").

Definition set_mission_off : M unit :=
  try_except
    (__check_sdk_mode ;;
     let* _ := __send_command_and_return "moff" TIMEOUT in
     update (set_mission_mode_enable false))
    (__set_command_fail "moff").

Definition set_mission_detection (direction : string) : M unit :=
  try_except
    (__check_sdk_mode ;;
     if dict_in direction MISSION_DETECTION_DIRECTION then
       let* mission_mode_enable := get mission_mode_enable in
       if mission_mode_enable then
         let* code := lift (dict_getitem MISSION_DETECTION_DIRECTION direction) in
         let* _ := __send_command_and_return
                     ("mdirection " +:+ str_of_int code) TIMEOUT in
         ret ()
       else ret ()
     else __invalid_option EmptyString)
    (__set_command_fail "mdirection").

Definition set_ap (ssid password : string) : M unit :=
  try_except
    (__check_sdk_mode ;;
     let* _ := __send_command_and_return
                 ("ap " +:+ ssid +:+ " " +:+ password) TIMEOUT in
     ret ())
    (__set_command_fail "ap").

Definition set_wifi_channel (channel : string) : M unit :=
  try_except
    (__check_sdk_mode ;;
     __check_hardware "RMTT" ;;
     let* _ := __send_command_and_return ("wifisetchannel " +:+ channel) TIMEOUT in
     ret ())
    (__set_command_fail "Wi-Fi channel").

Definition set_video_port (info video : string) : M unit :=
  try_except
    (__check_sdk_mode ;;
     __check_sdk_version 30 ;;
     let* _ := __send_command_and_return
                 ("port " +:+ info +:+ " " +:+ video) TIMEOUT in
     let* port := lift (Py.int video) in
     update (set_VIDEO_STREAMING_PORT port))
    (__set_command_fail "ports settings").

Definition set_fps (fps : string) : M unit :=
  try_except
    (__check_sdk_mode ;;
     __check_sdk_version 30 ;;
     if bool_decide (fps ∈ SET_FPS) then
       let* _ := __send_command_and_return ("setfps " +:+ fps) TIMEOUT in
       ret ()
     else __invalid_option EmptyString)
    (__set_command_fail "fps").

Definition set_bitrate (bitrate : Z) : M unit :=
  try_except
    (__check_sdk_mode ;;
     __check_sdk_version 30 ;;
     let bitrate := str_of_int bitrate in
     if dict_in bitrate SET_BITRATE then
       let* code := lift (dict_getitem SET_BITRATE bitrate) in
       let* _ := __send_command_and_return
                   ("setbitrate " +:+ str_of_int code) TIMEOUT in
       ret ()
     else __invalid_option EmptyString)
    (__set_command_fail "bitrate").

Definition set_resolution (resolution : string) : M unit :=
  try_except
    (__check_sdk_mode ;;
     __check_sdk_version 30 ;;
     if contains resolution SET_RESOLUTION then
       let* _ := __send_command_and_return ("setresolution " +:+ resolution) TIMEOUT in
       ret ()
     else __invalid_option EmptyString)
    (__set_command_fail "resolution").

Definition set_video_direction (direction : string) : M unit :=
  try_except
    (__check_sdk_mode ;;
     __check_sdk_version 30 ;;
     if dict_in direction CAMERA_DIRECTION then
       let* _ := __send_command_and_return ("downvision  " +:+ direction) TIMEOUT in
       ret ()
     else __invalid_option EmptyString)
    (__set_command_fail "camera direction").

(** *** Control commands *)

Definition takeoff : M unit :=
  try_except
    (__check_sdk_mode ;;
     let* _ := __send_command_and_return "takeoff" TIMEOUT in
     ret ())
    (__control_command_fail "takeoff").

Definition land : M unit :=
  try_except
    (__check_sdk_mode ;;
     let* _ := __send_command_and_return "land" TIMEOUT in
     ret ())
    (__control_command_fail "land").

(** The video thread that [stream_on] starts reads frames only. *)
Definition stream_on : M unit :=
  try_except
    (__check_sdk_mode ;;
     let* response := __send_command_and_return "streamon" TIMEOUT in
     if bool_decide (response ≠ EmptyString) then update (set_STREAMING_ENABLE true)
     else ret ())
    (__control_command_fail "stream on").

Definition stream_off : M unit :=
  try_except
    (__check_sdk_mode ;;
     let* response := __send_command_and_return "streamoff" TIMEOUT in
     if bool_decide (response ≠ EmptyString) then update (set_STREAMING_ENABLE false)
     else ret ())
    (__control_command_fail "stream off").

Definition emergency : M unit :=
  try_except
    (__check_sdk_mode ;;
     let* response := __send_command_and_return "emergency" TIMEOUT in
     ret ())
    (__control_command_fail "emergency").

Definition reboot : M unit :=
  let command := "reboot" in
  try_except
    (__check_sdk_mode ;;
     __check_sdk_version 30 ;;
     let* addr := get address in
     sendto (encode_utf8 command) addr)
    (__control_command_fail command).

Definition motor_on : M unit :=
  try_except
    (__check_sdk_mode ;;
     __check_sdk_version 30 ;;
     let* _ := __send_command_and_return "motoron" TIMEOUT in
     ret ())
    (__control_command_fail "motor on").

Definition motor_off : M unit :=
  try_except
    (__check_sdk_mode ;;
     __check_sdk_version 30 ;;
     let* _ := __send_command_and_return "motoroff" TIMEOUT in
     ret ())
    (__control_command_fail "motor off").

Definition throw_and_fly : M unit :=
  try_except
    (__check_sdk_mode ;;
     __check_sdk_version 30 ;;
     let* _ := __send_command_and_return "throwfly" TIMEOUT in
     ret ())
    (__control_command_fail "throw and fly").

Definition move_up (distance : Z) : M unit :=
  try_except
    (__check_sdk_mode ;;
     if __check_in_range distance DISTANCE_RANGE then
       let* response := __send_command_and_return
                          ("up " +:+ str_of_int distance) TIMEOUT in
       ret ()
     else __value_out_range DISTANCE_RANGE EmptyString)
    (__control_command_fail "move up").

Definition move_down (distance : Z) : M unit :=
  try_except
    (__check_sdk_mode ;;
     if __check_in_range distance DISTANCE_RANGE then
       let* response := __send_command_and_return
                          ("down " +:+ str_of_int distance) TIMEOUT in
       ret ()
     else __value_out_range DISTANCE_RANGE EmptyString)
    (__control_command_fail "move down").

Definition move_left (distance : Z) : M unit :=
  try_except
    (__check_sdk_mode ;;
     if __check_in_range distance DISTANCE_RANGE then
       let* response := __send_command_and_return
                          ("left " +:+ str_of_int distance) TIMEOUT in
       ret ()
     else __value_out_range DISTANCE_RANGE EmptyString)
    (__control_command_fail "move left").

Definition move_right (distance : Z) : M unit :=
  try_except
    (__check_sdk_mode ;;
     if __check_in_range distance DISTANCE_RANGE then
       let* response := __send_command_and_return
                          ("right " +:+ str_of_int distance) TIMEOUT in
       ret ()
     else __value_out_range DISTANCE_RANGE EmptyString)
    (__control_command_fail "move right").

Definition move_forward (distance : Z) : M unit :=
  try_except
    (__check_sdk_mode ;;
     if __check_in_range distance DISTANCE_RANGE then
       let* response := __send_command_and_return
                          ("forward " +:+ str_of_int distance) TIMEOUT in
       ret ()
     else __value_out_range DISTANCE_RANGE EmptyString)
    (__control_command_fail "move forward").

Definition move_backward (distance : Z) : M unit :=
  try_except
    (__check_sdk_mode ;;
     if __check_in_range distance DISTANCE_RANGE then
       let* response := __send_command_and_return
                          ("back " +:+ str_of_int distance) TIMEOUT in
       ret ()
     else __value_out_range DISTANCE_RANGE EmptyString)
    (__control_command_fail "move backward").

Definition rotate_clockwise (angle : Z) : M unit :=
  try_except
    (__check_sdk_mode ;;
     if __check_in_range angle ANGLE_RANGE then
       let* response := __send_command_and_return
                          ("cw " +:+ str_of_int angle) TIMEOUT in
       ret ()
     else __value_out_range ANGLE_RANGE EmptyString)
    (__control_command_fail "rotate clockwise").

Definition rotate_counterclockwise (angle : Z) : M unit :=
  try_except
    (__check_sdk_mode ;;
     if __check_in_range angle ANGLE_RANGE then
       let* response := __send_command_and_return
                          ("ccw " +:+ str_of_int angle) TIMEOUT in
       ret ()
     else __value_out_range ANGLE_RANGE EmptyString)
    (__control_command_fail "rotate counterclockwise").

Definition flip (direction : string) : M unit :=
  try_except
    (__check_sdk_mode ;;
     if dict_in direction FLIP_DIRECTION then
       let* letter := lift (dict_getitem FLIP_DIRECTION direction) in
       let* _ := __send_command_and_return ("flip " +:+ letter) TIMEOUT in
       ret ()
     else __invalid_option EmptyString)
    (__control_command_fail "flip").

Definition go_to (x y z speed : Z) : M unit :=
  try_except
    (__check_sdk_mode ;;
     let _1 := __check_in_range speed SPEED_RANGE in
     let _2 := __check_in_range x COORDINATES_RANGE in
     let _3 := __check_in_range y COORDINATES_RANGE in
     let _4 := __check_in_range z COORDINATES_RANGE in
     if _1 && _2 && _3 && _4 then
       let* _ := __send_command_and_return
                   ("go " +:+ str_of_int x +:+ " " +:+ str_of_int y +:+ " "
                    +:+ str_of_int z +:+ " " +:+ str_of_int speed) TIMEOUT in
       ret ()
     else if negb _1 then __value_out_range SPEED_RANGE "speed"
     else if negb (_2 && _3 && _4) then __value_out_range COORDINATES_RANGE EmptyString
     else ret ())
    (__control_command_fail "go to").

Definition go_to_pad (x y z speed pad : Z) : M unit :=
  try_except
    (__check_sdk_mode ;;
     if dict_in pad MISSION_PAD_IDs then
       let _1 := __check_in_range speed SPEED_RANGE in
       let _2 := __check_in_range x COORDINATES_RANGE in
       let _3 := __check_in_range y COORDINATES_RANGE in
       let _4 := __check_in_range z COORDINATES_RANGE in
       if _1 && _2 && _3 && _4 then
         let* name := lift (dict_getitem MISSION_PAD_IDs pad) in
         let* _ := __send_command_and_return
                     ("go " +:+ str_of_int x +:+ " " +:+ str_of_int y +:+ " "
                      +:+ str_of_int z +:+ " " +:+ str_of_int speed +:+ " "
                      +:+ name) TIMEOUT in
         ret ()
       else if negb _1 then __value_out_range SPEED_RANGE "speed"
       else if negb (_2 && _3 && _4) then __value_out_range COORDINATES_RANGE EmptyString
       else ret ()
     else __invalid_option EmptyString)
    (__control_command_fail "go to pad").

Definition joystick_control (roll pitch yaw throttle : Z) : M unit :=
  try_except
    (__check_sdk_mode ;;
     let _1 := __check_in_range roll JOYSTICK_RANGE in
     let _2 := __check_in_range pitch JOYSTICK_RANGE in
     let _3 := __check_in_range yaw JOYSTICK_RANGE in
     let _4 := __check_in_range throttle JOYSTICK_RANGE in
     if _1 && _2 && _3 && _4 then
       let command := "rc " +:+ str_of_int roll +:+ " " +:+ str_of_int pitch +:+ " "
                      +:+ str_of_int throttle +:+ " " +:+ str_of_int yaw in
       let* addr := get address in
       sendto (encode_utf8 command) addr
     else __value_out_range JOYSTICK_RANGE EmptyString)
    (__control_command_fail "joystick control").

(** *** [connect] *)

Definition connect : M unit :=
  let* response := send_command "command" TIMEOUT in
  if response then
    update (set_sdk_mode_enable true) ;;
    let* version := get_sdk_version in
    update (set_sdk_version version) ;;
    let* hw := get_hardware in
    update (set_hardware hw) ;;
    let* battery := get_battery in
    update (set_state_receiver_thread true)
  else ret ().

(** *** Telemetry readers *)

Definition get_current_state : M (gmap string value) :=
  let* peer := __get_own_udp_object in
  ret (state peer).

Definition __get_state_field (key : string) : M (option value) :=
  let* state := get_current_state in
  ret (state !! key).

Definition __get_collection_state_fields (keys : list string) : M (list value) :=
  let* state := get_current_state in
  ret (omap (λ key, state !! key) keys).

Definition get_pad_id : M (option value) :=
  __check_sdk_mode ;; __get_state_field "mid".

Definition get_x : M (option value) :=
  __check_sdk_mode ;; __get_state_field "x".

Definition get_y : M (option value) :=
  __check_sdk_mode ;; __get_state_field "y".

Definition get_z : M (option value) :=
  __check_sdk_mode ;; __get_state_field "z".

Definition get_pad_coord : M (list value) :=
  __check_sdk_mode ;; __get_collection_state_fields ["x"; "y"; "z"].

Fixpoint int_each (texts : list string) : result (list value) :=
  match texts with
  | [] => Ok []
  | text :: texts' =>
      n ← Py.int text;
      values ← int_each texts';
      Ok (VInt n :: values)
  end.

Definition get_pad_orientation : M (list value) :=
  __check_sdk_mode ;;
  let* responses := __get_state_field "mpry" in
  match responses with
  | Some (VStr responses) => lift (int_each (Py.split "," responses))
  | _ => raise AttributeError
  end.

Definition get_pitch : M (option value) := __get_state_field "pitch".
Definition get_roll : M (option value) := __get_state_field "roll".
Definition get_yaw : M (option value) := __get_state_field "yaw".

Definition get_orientation : M (list value) :=
  __check_sdk_mode ;; __get_collection_state_fields ["roll"; "pitch"; "yaw"].

Definition get_speed_x : M (option value) :=
  __check_sdk_mode ;; __get_state_field "vgx".

Definition get_speed_y : M (option value) :=
  __check_sdk_mode ;; __get_state_field "vgy".

Definition get_speed_z : M (option value) :=
  __check_sdk_mode ;; __get_state_field "vgz".

Definition get_speed : M (list value) :=
  __check_sdk_mode ;; __get_collection_state_fields ["vgx"; "vgy"; "vgz"].

Definition get_min_temp : M (option value) :=
  __check_sdk_mode ;; __get_state_field "templ".

Definition get_max_temp : M (option value) :=
  __check_sdk_mode ;; __get_state_field "temph".

Definition get_tof_distance : M (option value) :=
  __check_sdk_mode ;;
  let max_value_error := 6553 in
  let min_value_error := 10 in
  let* distance := __get_state_field "tof" in
  if bool_decide (distance = Some (VInt max_value_error)
                  ∨ distance = Some (VInt min_value_error))
  then ret (Some (VInt 0))
  else ret distance.

Definition get_bat : M (option value) :=
  __check_sdk_mode ;; __get_state_field "bat".

Definition get_baro : M (option value) :=
  __check_sdk_mode ;; __get_state_field "baro".

Definition get_time : M (option value) :=
  __check_sdk_mode ;; __get_state_field "time".

Definition get_acc_x : M (option value) :=
  __check_sdk_mode ;; __get_state_field "agx".

Definition get_acc_y : M (option value) :=
  __check_sdk_mode ;; __get_state_field "agy".

Definition get_acc_z : M (option value) :=
  __check_sdk_mode ;; __get_state_field "agz".

Definition get_acceleration : M (list value) :=
  __check_sdk_mode ;; __get_collection_state_fields ["agx"; "agy"; "agz"].

(** *** Calls *)

(** What a public method hands back: [None] or one value ([Value]), or a
    list ([Values]). *)
Inductive returned : Type :=
| Value (v : option value)
| Values (vs : list value).

Definition returns_none (m : M unit) : M returned := m ;; ret (Value None).
Definition returns_value (m : M (option value)) : M returned :=
  let* v := m in ret (Value v).
Definition returns_values (m : M (list value)) : M returned :=
  let* vs := m in ret (Values vs).

(** A call of one of the public methods that begin with
    [self.__check_sdk_mode()]. *)
Inductive call : Type :=
| Get_current_set_speed | Get_battery | Get_flight_time | Get_wifi_snr
| Get_sdk_version | Get_serial | Get_hardware | Get_wifi_version | Get_ap
| Get_ssid
| Set_speed (speed : Z) | Set_wifi (ssid password : string)
| Set_mission_on | Set_mission_off | Set_mission_detection (direction : string)
| Set_ap (ssid password : string) | Set_wifi_channel (channel : string)
| Set_video_port (info video : string) | Set_fps (fps : string)
| Set_bitrate (bitrate : Z) | Set_resolution (resolution : string)
| Set_video_direction (direction : string)
| Takeoff | Land | Stream_on | Stream_off | Emergency | Reboot
| Motor_on | Motor_off | Throw_and_fly
| Move_up (distance : Z) | Move_down (distance : Z) | Move_left (distance : Z)
| Move_right (distance : Z) | Move_forward (distance : Z)
| Move_backward (distance : Z)
| Rotate_clockwise (angle : Z) | Rotate_counterclockwise (angle : Z)
| Flip (direction : string)
| Go_to (x y z speed : Z) | Go_to_pad (x y z speed pad : Z)
| Joystick_control (roll pitch yaw throttle : Z)
| Get_pad_id | Get_x | Get_y | Get_z | Get_pad_coord | Get_pad_orientation
| Get_orientation | Get_speed_x | Get_speed_y | Get_speed_z | Get_speed
| Get_min_temp | Get_max_temp | Get_tof_distance | Get_bat | Get_baro
| Get_time | Get_acc_x | Get_acc_y | Get_acc_z | Get_acceleration.

Definition perform (c : call) : M returned :=
  match c with
  | Get_current_set_speed => returns_value get_current_set_speed
  | Get_battery => returns_value get_battery
  | Get_flight_time => returns_value get_flight_time
  | Get_wifi_snr => returns_value get_wifi_snr
  | Get_sdk_version => returns_value get_sdk_version
  | Get_serial => returns_value get_serial
  | Get_hardware => returns_value get_hardware
  | Get_wifi_version => returns_value get_wifi_version
  | Get_ap => returns_value get_ap
  | Get_ssid => returns_value get_ssid
  | Set_speed speed => returns_none (set_speed speed)
  | Set_wifi ssid password => returns_none (set_wifi ssid password)
  | Set_mission_on => returns_none set_mission_on
  | Set_mission_off => returns_none set_mission_off
  | Set_mission_detection direction => returns_none (set_mission_detection direction)
  | Set_ap ssid password => returns_none (set_ap ssid password)
  | Set_wifi_channel channel => returns_none (set_wifi_channel channel)
  | Set_video_port info video => returns_none (set_video_port info video)
  | Set_fps fps => returns_none (set_fps fps)
  | Set_bitrate bitrate => returns_none (set_bitrate bitrate)
  | Set_resolution resolution => returns_none (set_resolution resolution)
  | Set_video_direction direction => returns_none (set_video_direction direction)
  | Takeoff => returns_none takeoff
  | Land => returns_none land
  | Stream_on => returns_none stream_on
  | Stream_off => returns_none stream_off
  | Emergency => returns_none emergency
  | Reboot => returns_none reboot
  | Motor_on => returns_none motor_on
  | Motor_off => returns_none motor_off
  | Throw_and_fly => returns_none throw_and_fly
  | Move_up distance => returns_none (move_up distance)
  | Move_down distance => returns_none (move_down distance)
  | Move_left distance => returns_none (move_left distance)
  | Move_right distance => returns_none (move_right distance)
  | Move_forward distance => returns_none (move_forward distance)
  | Move_backward distance => returns_none (move_backward distance)
  | Rotate_clockwise angle => returns_none (rotate_clockwise angle)
  | Rotate_counterclockwise angle => returns_none (rotate_counterclockwise angle)
  | Flip direction => returns_none (flip direction)
  | Go_to x y z speed => returns_none (go_to x y z speed)
  | Go_to_pad x y z speed pad => returns_none (go_to_pad x y z speed pad)
  | Joystick_control roll pitch yaw throttle =>
      returns_none (joystick_control roll pitch yaw throttle)
  | Get_pad_id => returns_value get_pad_id
  | Get_x => returns_value get_x
  | Get_y => returns_value get_y
  | Get_z => returns_value get_z
  | Get_pad_coord => returns_values get_pad_coord
  | Get_pad_orientation => returns_values get_pad_orientation
  | Get_orientation => returns_values get_orientation
  | Get_speed_x => returns_value get_speed_x
  | Get_speed_y => returns_value get_speed_y
  | Get_speed_z => returns_value get_speed_z
  | Get_speed => returns_values get_speed
  | Get_min_temp => returns_value get_min_temp
  | Get_max_temp => returns_value get_max_temp
  | Get_tof_distance => returns_value get_tof_distance
  | Get_bat => returns_value get_bat
  | Get_baro => returns_value get_baro
  | Get_time => returns_value get_time
  | Get_acc_x => returns_value get_acc_x
  | Get_acc_y => returns_value get_acc_y
  | Get_acc_z => returns_value get_acc_z
  | Get_acceleration => returns_values get_acceleration
  end.

(** The six move commands, by the word they put on the wire. *)
Definition move_commands : list (string * (Z → M unit)) :=
  [ ("up", move_up); ("down", move_down); ("left", move_left);
    ("right", move_right); ("forward", move_forward); ("back", move_backward) ].

End Tello.

(** ** Vocabulary of the properties *)

Import Py Tello.

(** [c] does not occur in [s]. *)
Definition free_of (c : ascii) (s : string) : Prop :=
  c ∉ list_ascii_of_string s.

(** Where an entry of the dictionary comes from: a field [key:text...] of
    the line, converted as the schema says. *)
Definition entry_of (fields : list string) (key : string) (v : value) : Prop :=
  ∃ field text rest,
    field ∈ fields ∧ Py.split ":" field = key :: text :: rest ∧
    match state_field_converters !! key with
    | Some Int => ∃ n, Py.int text = Ok n ∧ v = VInt n
    | Some Float => ∃ x, Py.float text = Ok x ∧ v = VFloat x
    | None => v = VStr text
    end.

(** What one field of a telemetry line stands for, in the words of the
    specification: a segment without a colon is skipped; otherwise the key
    is the text before the first colon and the value is the text after it,
    up to the next colon; a key of the schema gets the number that this text
    denotes, of the type the schema declares, and the field is dropped when
    the text denotes none; a key outside the schema gets the text itself. *)
Definition field_entry (field : string) : option (string * value) :=
  match Py.split ":" field with
  | key :: text :: _ =>
      match state_field_converters !! key with
      | Some Int =>
          match Py.int text with Ok n => Some (key, VInt n) | _ => None end
      | Some Float =>
          match Py.float text with Ok x => Some (key, VFloat x) | _ => None end
      | None => Some (key, VStr text)
      end
  | _ => None
  end.

(** The mapping that the fields of a line stand for: their entries, put
    into the empty mapping in the order of the line, so that of two fields
    with the same key the later one stays. *)
Definition line_entries (fields : list string) : gmap string value :=
  foldl (λ d entry, <[entry.1 := entry.2]> d) ∅ (omap field_entry fields).

(** The binary64 value that the literal 1.23 denotes, 0x1.3ae147ae147aep+0. *)
Definition binary64_1_23 : spec_float := S754_finite false 5539427541665710 (-52).

(** The state [(self, globals)] a method leaves, and its result. *)
Definition state_after {A} (m : M A) (s : Tello * World) : Tello * World :=
  let '(_, self', w') := m s.1 s.2 in (self', w').

Definition result_of {A} (m : M A) (s : Tello * World) : result A :=
  (m s.1 s.2).1.1.

(** How one run of [__send_command_and_return] leaves its loop: on the
    timeout, or with a response queued. *)
Definition wait_outcome (command : string) (timeout : Z) (s : Tello * World)
  : result bool :=
  result_of (let* timestamp := pace_and_send command in
             await_response timestamp timeout) s.

Definition timed_out (command : string) (timeout : Z) (s : Tello * World) : Prop :=
  wait_outcome command timeout s = Ok false.

Definition answered (command : string) (timeout : Z) (s : Tello * World) : Prop :=
  wait_outcome command timeout s = Ok true.

(** The test of [send_command] on a response. *)
Definition says_ok (response : string) : bool := contains "ok" (lower response).

(** The state after [k] runs of [__send_command_and_return] in a row, and the
    response of the run that follows them. *)
Fixpoint after_attempts (k : nat) (command : string) (timeout : Z)
    (s : Tello * World) : Tello * World :=
  match k with
  | O => s
  | S k' =>
      after_attempts k' command timeout
        (state_after (__send_command_and_return command timeout) s)
  end.

Definition response_of_attempt (k : nat) (command : string) (timeout : Z)
    (s : Tello * World) : result string :=
  result_of (__send_command_and_return command timeout)
    (after_attempts k command timeout s).

(** The datagrams that [client_socket.sendto] transmitted between two
    states of the globals are [sent]: payloads with their destinations, in
    order, whatever the times. *)
Definition transmitted (w w' : World) (sent : list (string * endpoint)) : Prop :=
  ∃ log, outbox w' = (outbox w ++ log)%list ∧ snd <$> log = sent.

(** The clock has not run behind the pacing timestamp. *)
Definition clock_sane (self : Tello) (w : World) : Prop :=
  last_received_command_timestamp self <= clock w.

(** The globals once [command] has been handed to [sendto]. *)
Definition with_sent (command : string) (self : Tello) (w : World) : World :=
  MkWorld (clock w) (threads_initialized w) (drones w) (inbox w)
    (outbox w ++ [(clock w, (encode_utf8 command, address self))]).

(** The session has its entry in [drones]. *)
Definition registered (self : Tello) (w : World) : Prop :=
  is_Some (drones w !! (address self).1).

(** The response queue of the session. *)
Definition own_queue (self : Tello) (w : World) : list string :=
  from_option responses [] (drones w !! (address self).1).

(** The source address of the datagram has an entry in [drones]. *)
Definition known (drones : gmap string PeerRecord) (dg : datagram) : Prop :=
  is_Some (drones !! (source dg).1).

#[global] Instance known_dec drones dg : Decision (known drones dg).
Proof. unfold known. apply _. Defined.

(** *** Sample sessions *)

(** The address of the drone. *)
Definition drone : endpoint := (TELLO_IP, TELLO_PORT).

(** A session made at time 0 with the defaults, seen one second later;
    [arrivals] are the datagrams the drone sends to the command port, with
    their arrival times. *)
Definition started (arrivals : list (Z * string)) : Tello * World :=
  let '(self, w) :=
    __init__ TELLO_IP RETRY_COUNT
      (MkWorld 0 false ∅ ((λ x, (x.1, Datagram x.2 drone)) <$> arrivals) []) in
  (self, advance 1000 w).

(** The same with SDK mode entered. *)
Definition connected (arrivals : list (Z * string)) : Tello * World :=
  (set_sdk_mode_enable true (started arrivals).1, (started arrivals).2).

(** The body that the six move methods share, for the word [verb] of the
    command and the name [field] in the log. *)
Definition move_body (verb field : string) (distance : Z) : M unit :=
  try_except
    (__check_sdk_mode ;;
     if __check_in_range distance DISTANCE_RANGE then
       let* response := __send_command_and_return
                          (verb +:+ " " +:+ str_of_int distance) TIMEOUT in
       ret ()
     else __value_out_range DISTANCE_RANGE EmptyString)
    (__control_command_fail field).

(** The telemetry readers: the methods that read the snapshot of the state
    thread; they have no [try]. *)
Definition is_telemetry_reader (c : call) : bool :=
  match c with
  | Get_pad_id | Get_x | Get_y | Get_z | Get_pad_coord | Get_pad_orientation
  | Get_orientation | Get_speed_x | Get_speed_y | Get_speed_z | Get_speed
  | Get_min_temp | Get_max_temp | Get_tof_distance | Get_bat | Get_baro
  | Get_time | Get_acc_x | Get_acc_y | Get_acc_z | Get_acceleration => true
  | _ => false
  end.

(** *** Readings that the code does not meet *)

(** A method that requires SDK mode fails on a session that is not
    connected: the call ends with an exception, and nothing was sent. *)
Definition fails_fast_when_unconnected : Prop :=
  ∀ (c : call) (self : Tello) (w : World),
    sdk_mode_enable self = false →
    (∃ e, result_of (perform c) (self, w) = Raise e)
    ∧ outbox (state_after (perform c) (self, w)).2 = outbox w.

(** The pacing timestamp is the time of the last transmission: once
    [__send_command_and_return] is over it holds the [timestamp] at which the
    datagram was sent, whatever became of the response. *)
Definition timestamp_set_at_send : Prop :=
  ∀ (command : string) (timeout : Z) (self : Tello) (w : World) (timestamp : Z),
    result_of (pace_and_send command) (self, w) = Ok timestamp →
    last_received_command_timestamp
      (state_after (__send_command_and_return command timeout) (self, w)).1
    = timestamp.

(** ** Vocabulary of the further properties *)

(** The datagram comes from the host [ip]. *)
Definition from_host (ip : string) (dg : datagram) : Prop := (source dg).1 = ip.

#[global] Instance from_host_dec ip dg : Decision (from_host ip dg).
Proof. unfold from_host. apply _. Defined.

(** The dictionary that [__state_parse] returns for a telemetry text. *)
Definition telemetry_of (text : string) : gmap string value :=
  match __state_parse text with
  | Ok parsed => parsed
  | _ => ∅
  end.

(** The state thread gets past the datagram: its source is not registered,
    or its payload is ASCII. *)
Definition readable (drones : gmap string PeerRecord) (dg : datagram) : Prop :=
  known drones dg → is_ascii (payload dg) = true.

(** [self'] is [self] with, at most, another pacing timestamp. *)
Definition same_session (self self' : Tello) : Prop :=
  ∃ t, self' = set_last_received_command_timestamp t self.

(** Nothing is on its way to the command socket. *)
Definition quiet (w : World) : Prop := inbox w = [].

(** What [__send_command_and_return] makes of a queued datagram. *)
Definition response_text (datagram : string) : string :=
  match decode_utf8 datagram with
  | Ok response => rstrip ["013"; "010"]%char response
  | _ => "response decode error"
  end.

(** A session made at time 0 with the defaults, seen [delay] ms later. *)
Definition seen_after (delay : Z) (arrivals : list (Z * string)) : Tello * World :=
  let '(self, w) :=
    __init__ TELLO_IP RETRY_COUNT
      (MkWorld 0 false ∅ ((λ x, (x.1, Datagram x.2 drone)) <$> arrivals) []) in
  (self, advance delay w).

(** From [drones] to [drones'] a session of the host [own] has only done
    to the peers what a method may: every peer is still there with the
    telemetry snapshot it had, and the queue of a peer other than [own] has
    at most grown at its end. *)
Definition peers_grow (own : string) (drones drones' : gmap string PeerRecord)
  : Prop :=
  ∀ ip peer,
    drones !! ip = Some peer →
    ∃ queue,
      drones' !! ip = Some (Peer queue (state peer))
      ∧ (ip ≠ own → ∃ more, queue = (responses peer ++ more)%list).

(** The attributes that only [__init__] and [connect] write. *)
Definition connection (self : Tello)
  : endpoint * Z * Z * bool * option value * option value * bool :=
  (address self, retry_count self, last_rc_control_timestamp self,
   sdk_mode_enable self, sdk_version self, hardware self,
   state_receiver_thread self).

(** What no other method touches.  Between [(self, w)] at the call and
    [(self', w')] at its end: the attributes above are the same, [drones]
    has the same keys, with the snapshots they had and the queues of the
    other peers at most longer, the clock has not gone back, a pacing
    timestamp that was not ahead of the clock is not ahead of it now, and
    the socket has only been used to send to the address of the session. *)
Definition kept (self : Tello) (w : World) (self' : Tello) (w' : World) : Prop :=
  connection self' = connection self
  ∧ peers_grow (address self).1 (drones w) (drones w')
  ∧ (∀ ip, is_Some (drones w' !! ip) ↔ is_Some (drones w !! ip))
  ∧ clock w <= clock w'
  ∧ (clock_sane self w → clock_sane self' w')
  ∧ ∃ log, outbox w' = (outbox w ++ log)%list
           ∧ Forall (λ entry, entry.2.2 = address self) log.

(** The method comes back, with a value or an exception, and keeps the
    above. *)
Definition comes_back {A} (m : M A) : Prop :=
  ∀ self w, ∃ r self' w',
    m self w = (r, self', w') ∧ r ≠ OutOfFuel ∧ kept self w self' w'.

(** The same, and no exception leaves it. *)
Definition never_raises {A} (m : M A) : Prop :=
  ∀ self w, ∃ v self' w', m self w = (Ok v, self', w') ∧ kept self w self' w'.

(** The readers of one field of the snapshot, by the key they read. *)
Definition field_readers : list (string * M (option value)) :=
  [ ("mid", get_pad_id); ("x", get_x); ("y", get_y); ("z", get_z);
    ("pitch", get_pitch); ("roll", get_roll); ("yaw", get_yaw);
    ("vgx", get_speed_x); ("vgy", get_speed_y); ("vgz", get_speed_z);
    ("templ", get_min_temp); ("temph", get_max_temp); ("bat", get_bat);
    ("baro", get_baro); ("time", get_time);
    ("agx", get_acc_x); ("agy", get_acc_y); ("agz", get_acc_z) ].

(** The readers of several fields, by their keys in the order of the
    result. *)
Definition vector_readers : list (list string * M (list value)) :=
  [ (["x"; "y"; "z"], get_pad_coord);
    (["roll"; "pitch"; "yaw"], get_orientation);
    (["vgx"; "vgy"; "vgz"], get_speed);
    (["agx"; "agy"; "agz"], get_acceleration) ].

(** The globals once the state thread has read [dgs]. *)
Definition with_telemetry (dgs : list datagram) (w : World) : World :=
  MkWorld (clock w) (threads_initialized w) (__state_thread dgs (drones w))
    (inbox w) (outbox w).

(** The methods that check one number against a range before they send
    it, with the word of their command. *)
Definition ranged_commands : list (string * (Z * Z) * (Z → M unit)) :=
  [ ("speed", SPEED_RANGE, set_speed);
    ("cw", ANGLE_RANGE, rotate_clockwise);
    ("ccw", ANGLE_RANGE, rotate_counterclockwise) ].

(** The call [m] returns [None] after one run of the dispatcher on
    [command], whatever that run returned or raised. *)
Definition runs_command (command : string) (m : M unit)
    (self : Tello) (w : World) : Prop :=
  ∃ self' w',
    m self w = (Ok (), self', w')
    ∧ (self', w') = state_after (__send_command_and_return command TIMEOUT) (self, w)
    ∧ (clock_sane self w → transmitted w w' [(command, address self)]).

(** The call returns [None] and has changed nothing: nothing was sent. *)
Definition does_nothing {A} (m : M A) (none : A) (self : Tello) (w : World) : Prop :=
  m self w = (Ok none, self, w).

(** The methods that begin with [self.__check_sdk_version(30)]. *)
Definition needs_sdk_30 (c : call) : bool :=
  match c with
  | Get_hardware | Set_video_port _ _ | Set_fps _ | Set_bitrate _
  | Set_resolution _ | Set_video_direction _ | Reboot | Motor_on | Motor_off
  | Throw_and_fly => true
  | _ => false
  end.

(** The methods that begin with [self.__check_hardware("RMTT")]. *)
Definition needs_rmtt (c : call) : bool :=
  match c with
  | Get_wifi_version | Get_ap | Get_ssid | Set_wifi_channel _ => true
  | _ => false
  end.

(** All four arguments of [go_to] pass their range checks. *)
Definition go_to_in_range (x y z speed : Z) : Prop :=
  10 <= speed <= 100
  ∧ -500 <= x <= 500 ∧ -500 <= y <= 500 ∧ -500 <= z <= 500.

(** All four arguments of [joystick_control] pass their range check. *)
Definition joystick_in_range (roll pitch yaw throttle : Z) : Prop :=
  -100 <= roll <= 100 ∧ -100 <= pitch <= 100
  ∧ -100 <= yaw <= 100 ∧ -100 <= throttle <= 100.

(** The read commands that convert the response to a number, with their
    command and the type of the number. *)
Definition numeric_reads : list (string * num_type * M (option value)) :=
  [ ("speed?", Float, get_current_set_speed);
    ("battery?", Int, get_battery);
    ("sdk?", Int, get_sdk_version) ].

(** The read commands that return the response as it is and need no
    version or hardware, with their command. *)
Definition text_reads : list (string * M (option value)) :=
  [ ("wifi?", get_wifi_snr); ("sn?", get_serial) ].

(** Every character of the text passes [p]. *)
Fixpoint only (p : ascii → bool) (s : string) : bool :=
  match s with
  | EmptyString => true
  | String c s' => p c && only p s'
  end.

(** [sub] occurs in [s]. *)
Definition substring_of (sub s : string) : Prop :=
  ∃ before after, s = before +:+ sub +:+ after.

(** ** Properties *)

(** *** Builtins *)

Lemma int_cases (text : string) :
  (∃ n, Py.int text = Ok n) ∨ Py.int text = Raise ValueError.
Proof.
  unfold Py.int. destruct (split_sign (c_strip (to_ascii text))) as [neg body].
  destruct (digitpart body 0 false); [|eauto].
  destruct (max_str_digits <? digits_in body); eauto.
Qed.

Lemma float_cases (text : string) :
  (∃ x, Py.float text = Ok x) ∨ Py.float text = Raise ValueError.
Proof.
  unfold Py.float. destruct (split_sign (c_strip (to_ascii text))) as [neg body].
  repeat case_bool_decide; eauto.
  destruct (floatnumber body) as [[m e]|]; eauto.
Qed.

Lemma convert_cases (t : num_type) (text : string) :
  (∃ v, convert t text = Ok v) ∨ convert t text = Raise ValueError.
Proof.
  destruct t; simpl.
  - destruct (int_cases text) as [[n ->]| ->]; simpl; eauto.
  - destruct (float_cases text) as [[x ->]| ->]; simpl; eauto.
Qed.

Lemma convert_typed (t : num_type) (text : string) (v : value) :
  convert t text = Ok v →
  match t with
  | Int => ∃ n, Py.int text = Ok n ∧ v = VInt n
  | Float => ∃ x, Py.float text = Ok x ∧ v = VFloat x
  end.
Proof.
  destruct t; simpl.
  - destruct (Py.int text) as [n| |]; simpl; intros [= <-]; eauto.
  - destruct (Py.float text) as [x| |]; simpl; intros [= <-]; eauto.
Qed.

Lemma split_free (sep : ascii) (s : string) :
  free_of sep s → Py.split sep s = [s].
Proof.
  unfold free_of. induction s as [|c s IH]; simpl; [done|].
  intros Hfree. apply not_elem_of_cons in Hfree as [Hc Hs].
  destruct (Ascii.eqb_spec c sep) as [->|_]; [done|].
  by rewrite IH.
Qed.

Lemma split_app (sep : ascii) (s rest : string) :
  free_of sep s → Py.split sep (s +:+ String sep rest) = s :: Py.split sep rest.
Proof.
  unfold free_of. induction s as [|c s IH]; simpl.
  - by rewrite Ascii.eqb_refl.
  - intros Hfree. apply not_elem_of_cons in Hfree as [Hc Hs].
    destruct (Ascii.eqb_spec c sep) as [->|_]; [done|].
    by rewrite IH.
Qed.

(** *** The telemetry parser *)

(** What one field does to the dictionary, by the shape of the field. *)
Lemma parse_field_short (field : string) (d : gmap string value) :
  (length (Py.split ":" field) < 2)%nat → parse_field field d = Ok d.
Proof.
  intros Hlen. unfold parse_field.
  by destruct (Nat.ltb_spec (length (Py.split ":" field)) 2); [|lia].
Qed.

Lemma parse_field_keyed (field key text : string) (rest : list string)
    (d : gmap string value) :
  Py.split ":" field = key :: text :: rest →
  parse_field field d =
    match state_field_converters !! key with
    | Some t =>
        match convert t text with
        | Ok v => Ok (<[key := v]> d)
        | _ => Ok d
        end
    | None => Ok (<[key := VStr text]> d)
    end.
Proof.
  intros Hsplit. unfold parse_field. rewrite Hsplit. simpl.
  unfold dict_in, dict_getitem.
  destruct (state_field_converters !! key) as [t|] eqn:Hkey.
  - rewrite bool_decide_eq_true_2 by eauto. simpl.
    by destruct (convert_cases t text) as [[v ->]| ->].
  - rewrite bool_decide_eq_false_2; [done|]. by intros [? ?].
Qed.

Lemma parse_field_ok (field : string) (d : gmap string value) :
  ∃ d', parse_field field d = Ok d'.
Proof.
  destruct (Py.split ":" field) as [|key [|text rest]] eqn:Hsplit.
  - exists d. apply parse_field_short. rewrite Hsplit. simpl. lia.
  - exists d. apply parse_field_short. rewrite Hsplit. simpl. lia.
  - rewrite (parse_field_keyed _ _ _ _ _ Hsplit).
    destruct (state_field_converters !! key) as [t|]; [|eauto].
    destruct (convert t text); eauto.
Qed.

Lemma parse_fields_ok (fields : list string) (d : gmap string value) :
  ∃ d', parse_fields fields d = Ok d'.
Proof.
  revert d. induction fields as [|field fields IH]; intros d; simpl; [eauto|].
  destruct (parse_field_ok field d) as [d' ->]. simpl. apply IH.
Qed.

Lemma parse_fields_app (before after : list string) (d : gmap string value) :
  parse_fields (before ++ after) d =
  d' ← parse_fields before d; parse_fields after d'.
Proof.
  revert d. induction before as [|field before IH]; intros d; simpl; [done|].
  destruct (parse_field_ok field d) as [d' ->]. simpl. apply IH.
Qed.

Lemma entry_of_mono (fields fields' : list string) (key : string) (v : value) :
  fields ⊆ fields' → entry_of fields key v → entry_of fields' key v.
Proof.
  intros Hsub (field & text & rest & Hin & Hrest). exists field, text, rest.
  split; [by apply Hsub|done].
Qed.

Lemma parse_field_entries (field : string) (d d' : gmap string value)
    (key : string) (v : value) :
  parse_field field d = Ok d' → d' !! key = Some v →
  d !! key = Some v ∨ entry_of [field] key v.
Proof.
  destruct (Py.split ":" field) as [|k [|text rest]] eqn:Hsplit.
  - rewrite parse_field_short by (rewrite Hsplit; simpl; lia).
    intros [= <-]. auto.
  - rewrite parse_field_short by (rewrite Hsplit; simpl; lia).
    intros [= <-]. auto.
  - rewrite (parse_field_keyed _ _ _ _ _ Hsplit).
    destruct (state_field_converters !! k) as [t|] eqn:Hk.
    + destruct (convert t text) as [v'| |] eqn:Hconv; intros [= <-]; auto.
      destruct (decide (k = key)) as [->|Hne].
      * rewrite lookup_insert_eq. intros [= ->]. right.
        exists field, text, rest. rewrite Hk.
        split; [left|]. split; [done|].
        apply convert_typed in Hconv. by destruct t.
      * rewrite lookup_insert_ne by done. auto.
    + intros [= <-]. destruct (decide (k = key)) as [->|Hne].
      * rewrite lookup_insert_eq. intros [= <-]. right.
        exists field, text, rest. rewrite Hk. split; [left|done].
      * rewrite lookup_insert_ne by done. auto.
Qed.

Lemma parse_fields_entries (fields : list string) (d d' : gmap string value)
    (key : string) (v : value) :
  parse_fields fields d = Ok d' → d' !! key = Some v →
  d !! key = Some v ∨ entry_of fields key v.
Proof.
  revert d. induction fields as [|field fields IH]; intros d; simpl.
  - intros [= <-]. auto.
  - destruct (parse_field_ok field d) as [d1 Hd1]. rewrite Hd1. simpl.
    intros Hrest Hlook. destruct (IH _ Hrest Hlook) as [Hold|Hnew].
    + destruct (parse_field_entries _ _ _ _ _ Hd1 Hold) as [?|Hnew]; [auto|].
      right. eapply entry_of_mono; [|done].
      intros x Hx. apply list_elem_of_singleton in Hx as ->. left.
    + right. eapply entry_of_mono; [|done]. intros x Hx. by right.
Qed.

Lemma parse_field_entry (field : string) (d : gmap string value) :
  parse_field field d
  = Ok (match field_entry field with
        | Some entry => <[entry.1 := entry.2]> d
        | None => d
        end).
Proof.
  unfold field_entry.
  destruct (Py.split ":" field) as [|key [|text rest]] eqn:Hsplit.
  - apply parse_field_short. rewrite Hsplit. simpl. lia.
  - apply parse_field_short. rewrite Hsplit. simpl. lia.
  - rewrite (parse_field_keyed _ _ _ _ _ Hsplit).
    destruct (state_field_converters !! key) as [[|]|]; simpl; [| |done].
    + by destruct (int_cases text) as [[n ->]| ->].
    + by destruct (float_cases text) as [[x ->]| ->].
Qed.

Lemma parse_fields_fold (fields : list string) (d : gmap string value) :
  parse_fields fields d
  = Ok (foldl (λ d entry, <[entry.1 := entry.2]> d) d (omap field_entry fields)).
Proof.
  revert d. induction fields as [|field fields IH]; intros d; simpl; [done|].
  rewrite parse_field_entry. simpl. rewrite IH.
  by destruct (field_entry field).
Qed.

(** The parser returns the mapping that the fields of the trimmed line
    stand for. *)
Lemma state_parse_entries (state : string) :
  __state_parse state = Ok (line_entries (Py.split ";" (Py.strip state))).
Proof.
  unfold __state_parse, line_entries. case_bool_decide as Hok.
  - by rewrite Hok.
  - apply parse_fields_fold.
Qed.

Lemma fold_entries_app (entries entries' : list (string * value))
    (d : gmap string value) :
  foldl (λ d entry, <[entry.1 := entry.2]> d) d (entries ++ entries')
  = foldl (λ d entry, <[entry.1 := entry.2]> d)
      (foldl (λ d entry, <[entry.1 := entry.2]> d) d entries) entries'.
Proof. apply foldl_app. Qed.

Lemma fold_entries_other (entries : list (string * value))
    (d : gmap string value) (key : string) :
  (∀ entry, entry ∈ entries → entry.1 ≠ key) →
  foldl (λ d entry, <[entry.1 := entry.2]> d) d entries !! key = d !! key.
Proof.
  revert d. induction entries as [|entry entries IH]; intros d Hother; [done|].
  simpl. rewrite IH.
  - apply lookup_insert_ne, Hother. left.
  - intros e He. apply Hother. by right.
Qed.

(** A field with an entry, followed by no field with an entry for the same
    key, has its entry in the mapping of the line. *)
Lemma line_entries_last (before after : list string) (field key : string)
    (v : value) :
  field_entry field = Some (key, v) →
  (∀ later v', later ∈ after → field_entry later ≠ Some (key, v')) →
  line_entries (before ++ field :: after) !! key = Some v.
Proof.
  intros Hfield Hafter. unfold line_entries.
  rewrite omap_app. simpl. rewrite Hfield, fold_entries_app. simpl.
  rewrite fold_entries_other; [by rewrite lookup_insert_eq|].
  intros [key' v'] Hin Hkey. simpl in Hkey. subst key'.
  apply list_elem_of_omap in Hin as (later & Hlater & Hentry).
  by apply (Hafter later v').
Qed.

(** A field without an entry adds nothing to the mapping of the line. *)
Lemma line_entries_skip (before after : list string) (field : string) :
  field_entry field = None →
  line_entries (before ++ field :: after) = line_entries (before ++ after).
Proof.
  intros Hfield. unfold line_entries. rewrite !omap_app. simpl.
  by rewrite Hfield.
Qed.

(** Only the entry of a field counts. *)
Lemma line_entries_same (before after : list string) (field field' : string) :
  field_entry field = field_entry field' →
  line_entries (before ++ field :: after)
  = line_entries (before ++ field' :: after).
Proof.
  intros Hfield. unfold line_entries. rewrite !omap_app. simpl.
  by rewrite Hfield.
Qed.

Lemma field_entry_keyed (field key text : string) (rest : list string) :
  Py.split ":" field = key :: text :: rest →
  field_entry field
  = match state_field_converters !! key with
    | Some t => match convert t text with
                | Ok v => Some (key, v)
                | _ => None
                end
    | None => Some (key, VStr text)
    end.
Proof.
  intros Hsplit. unfold field_entry. rewrite Hsplit.
  destruct (state_field_converters !! key) as [[|]|]; simpl; [| |done].
  - by destruct (Py.int text).
  - by destruct (Py.float text).
Qed.

Lemma field_entry_key (field key : string) (v : value) :
  field_entry field = Some (key, v) →
  ∃ text rest, Py.split ":" field = key :: text :: rest.
Proof.
  unfold field_entry.
  destruct (Py.split ":" field) as [|k [|text rest]]; [done..|].
  destruct (state_field_converters !! k) as [[|]|].
  - destruct (Py.int text); [|done..]. intros [= -> _]. eauto.
  - destruct (Py.float text); [|done..]. intros [= -> _]. eauto.
  - intros [= -> _]. eauto.
Qed.

(** C5.  [__state_parse] maps a line that trims to "ok" to the empty
    dictionary; it maps "pitch:3;roll:-2;baro:1.23;" to pitch 3 and roll -2
    as integers and baro 1.23 as a float; whatever it returns, every
    entry comes from a field [key:text] of the trimmed line, as [int(text)]
    for the integer fields of the schema, as [float(text)] for its float
    fields, and as the raw string [text] for a key outside the schema; and
    a key outside the schema is stored: the result has, under that key, the
    raw text of the last field of the line that carries the key. *)
Theorem state_parse_schema :
  (∀ state, Py.strip state = "ok" → __state_parse state = Ok ∅)
  ∧ __state_parse "pitch:3;roll:-2;baro:1.23;"
    = Ok (<["pitch" := VInt 3]> (<["roll" := VInt (-2)]>
           {["baro" := VFloat binary64_1_23]}))
  ∧ (∀ state d key v,
       __state_parse state = Ok d → d !! key = Some v →
       ∃ field text rest,
         field ∈ Py.split ";" (Py.strip state)
         ∧ Py.split ":" field = key :: text :: rest
         ∧ match state_field_converters !! key with
           | Some Int => ∃ n, Py.int text = Ok n ∧ v = VInt n
           | Some Float => ∃ x, Py.float text = Ok x ∧ v = VFloat x
           | None => v = VStr text
           end)
  ∧ (∀ state before after field key text rest,
       Py.split ";" (Py.strip state) = (before ++ field :: after)%list →
       Py.split ":" field = key :: text :: rest →
       state_field_converters !! key = None →
       (∀ later text' rest',
          later ∈ after → Py.split ":" later ≠ key :: text' :: rest') →
       ∃ d, __state_parse state = Ok d ∧ d !! key = Some (VStr text)).
Proof.
  split; [|split; [|split]].
  - intros state Hok. unfold __state_parse. rewrite Hok. done.
  - vm_compute. reflexivity.
  - intros state d key v. unfold __state_parse.
    case_bool_decide as Hok.
    + intros [= <-]. by rewrite lookup_empty.
    + intros Hparse Hlook.
      destruct (parse_fields_entries _ _ _ _ _ Hparse Hlook) as [Hempty|Hnew].
      * by rewrite lookup_empty in Hempty.
      * exact Hnew.
  - intros state before after field key text rest Hfields Hsplit Hkey Hlast.
    eexists. split; [apply state_parse_entries|]. rewrite Hfields.
    apply line_entries_last.
    + by rewrite (field_entry_keyed _ _ _ _ Hsplit), Hkey.
    + intros later v' Hlater Hentry.
      destruct (field_entry_key _ _ _ Hentry) as (text' & rest' & Hsplit').
      by apply (Hlast later text' rest').
Qed.

Lemma state_parse_schema_witness :
  __state_parse "ok" = Ok ∅
  ∧ (∃ field text rest,
       field ∈ Py.split ";" (Py.strip "mid:-1;mpry:0,0,0;")
       ∧ Py.split ":" field = "mpry" :: text :: rest
       ∧ VStr "0,0,0" = VStr text)
  ∧ ∃ d, __state_parse "mid:-1;mpry:0,0,0;" = Ok d
         ∧ d !! "mpry" = Some (VStr "0,0,0").
Proof.
  destruct state_parse_schema as (Hok & _ & Hentries & Hstored).
  split; [|split].
  - apply Hok. vm_compute. reflexivity.
  - apply (Hentries "mid:-1;mpry:0,0,0;"
             (<["mid" := VInt (-1)]> {["mpry" := VStr "0,0,0"]})
             "mpry" (VStr "0,0,0")).
    + vm_compute. reflexivity.
    + vm_compute. reflexivity.
  - apply (Hstored "mid:-1;mpry:0,0,0;" ["mid:-1"] [EmptyString]
             "mpry:0,0,0" "mpry" "0,0,0" []).
    + vm_compute. reflexivity.
    + vm_compute. reflexivity.
    + vm_compute. reflexivity.
    + intros later text' rest' Hlater.
      apply list_elem_of_singleton in Hlater as ->. vm_compute. discriminate.
Defined.

(** C6.  When a field of the line names a key of the schema and its text
    does not convert to the declared type, that field alone is dropped: the
    parser returns the mapping that the other fields of the line stand for
    (what it returns for them without the field), and every other field
    that has an entry, and is not followed by another one with an entry for
    the same key, is in the result with its entry. *)
Theorem state_parse_drops_only_malformed (state : string)
    (before after : list string) (field key text : string)
    (rest : list string) (t : num_type) :
  Py.split ";" (Py.strip state) = (before ++ field :: after)%list →
  Py.split ":" field = key :: text :: rest →
  state_field_converters !! key = Some t →
  convert t text = Raise ValueError →
  ∃ d, __state_parse state = Ok d
       ∧ parse_fields (before ++ after) ∅ = Ok d
       ∧ d = line_entries (before ++ after)
       ∧ ∀ earlier later other key' v',
           (before ++ after)%list = (earlier ++ other :: later)%list →
           field_entry other = Some (key', v') →
           (∀ field' v'', field' ∈ later → field_entry field' ≠ Some (key', v'')) →
           d !! key' = Some v'.
Proof.
  intros Hfields Hsplit Hkey Hconv.
  assert (field_entry field = None) as Hdropped.
  { by rewrite (field_entry_keyed _ _ _ _ Hsplit), Hkey, Hconv. }
  exists (line_entries (before ++ after)). split_and!.
  - by rewrite state_parse_entries, Hfields, line_entries_skip.
  - apply parse_fields_fold.
  - done.
  - intros earlier later other key' v' -> Hother Hlater.
    by apply line_entries_last.
Qed.

Lemma state_parse_drops_only_malformed_witness :
  ∃ d, __state_parse "pitch:3;roll:abc;baro:1.23" = Ok d
       ∧ parse_fields (["pitch:3"] ++ ["baro:1.23"]) ∅ = Ok d
       ∧ d !! "pitch" = Some (VInt 3)
       ∧ d !! "baro" = Some (VFloat binary64_1_23)
       ∧ d !! "roll" = None.
Proof.
  destruct (state_parse_drops_only_malformed "pitch:3;roll:abc;baro:1.23"
              ["pitch:3"] ["baro:1.23"] "roll:abc" "roll" "abc" [] Int)
    as (d & Hrun & Hrest & Hd & Hkept); [vm_compute; reflexivity..|].
  exists d. split; [done|]. split; [done|]. split_and!.
  - apply (Hkept [] ["baro:1.23"] "pitch:3"); [reflexivity|vm_compute; reflexivity|].
    intros field' v'' Hin. apply list_elem_of_singleton in Hin as ->.
    vm_compute. discriminate.
  - apply (Hkept ["pitch:3"] [] "baro:1.23"); [reflexivity|vm_compute; reflexivity|].
    intros field' v'' Hin. by apply elem_of_nil in Hin.
  - rewrite Hd. vm_compute. reflexivity.
Defined.

(** C10.  On every string [__state_parse] returns a dictionary: it never
    raises.  A field with more than one colon contributes the text between
    its first and its second colon as the value, and nothing else: the
    parser returns for the line what it returns when the field ends before
    its second colon, and, unless a later field has an entry for the key,
    the result has under the key what that text alone gives (its number
    for a key of the schema, the entry of an earlier field if it denotes
    none, the text itself for another key). *)
Theorem state_parse_total :
  (∀ state, ∃ d, __state_parse state = Ok d)
  ∧ (∀ state before after key text rest,
       free_of ":" key → free_of ":" text →
       Py.split ";" (Py.strip state)
       = (before ++ (key +:+ ":" +:+ text +:+ ":" +:+ rest) :: after)%list →
       ∃ d, __state_parse state = Ok d
            ∧ d = line_entries (before ++ (key +:+ ":" +:+ text) :: after)
            ∧ ((∀ later v, later ∈ after → field_entry later ≠ Some (key, v)) →
               d !! key
               = match state_field_converters !! key with
                 | Some t => match convert t text with
                             | Ok v => Some v
                             | _ => line_entries before !! key
                             end
                 | None => Some (VStr text)
                 end)).
Proof.
  split.
  - intros state. eexists. apply state_parse_entries.
  - intros state before after key text rest Hkey Htext Hfields.
    assert (Py.split ":" (key +:+ ":" +:+ text +:+ ":" +:+ rest)
            = key :: text :: Py.split ":" rest) as Hlong.
    { change (":" +:+ text +:+ ":" +:+ rest)
        with (String ":" (text +:+ String ":" rest)).
      by rewrite !split_app. }
    assert (Py.split ":" (key +:+ ":" +:+ text) = [key; text]) as Hshort.
    { change (":" +:+ text) with (String ":" text).
      by rewrite split_app, split_free. }
    assert (field_entry (key +:+ ":" +:+ text +:+ ":" +:+ rest)
            = field_entry (key +:+ ":" +:+ text)) as Hsame.
    { by rewrite (field_entry_keyed _ _ _ _ Hlong),
                 (field_entry_keyed _ _ _ _ Hshort). }
    exists (line_entries (before ++ (key +:+ ":" +:+ text) :: after)).
    split; [|split; [done|]].
    + rewrite state_parse_entries, Hfields. f_equal.
      by apply line_entries_same.
    + intros Hafter.
      pose proof (field_entry_keyed _ _ _ _ Hshort) as Hentry.
      destruct (state_field_converters !! key) as [t|].
      * destruct (convert t text) as [v| |] eqn:Hconv.
        -- by apply line_entries_last.
        -- rewrite (line_entries_skip _ _ _ Hentry).
           unfold line_entries. rewrite omap_app, fold_entries_app.
           apply fold_entries_other.
           intros [key' v'] Hin Heq. simpl in Heq. subst key'.
           apply list_elem_of_omap in Hin as (later & Hlater & Hlentry).
           by apply (Hafter later v').
        -- rewrite (line_entries_skip _ _ _ Hentry).
           unfold line_entries. rewrite omap_app, fold_entries_app.
           apply fold_entries_other.
           intros [key' v'] Hin Heq. simpl in Heq. subst key'.
           apply list_elem_of_omap in Hin as (later & Hlater & Hlentry).
           by apply (Hafter later v').
      * by apply line_entries_last.
Qed.

Lemma state_parse_total_witness :
  ∃ d, __state_parse "bat:87;time:5:6;h:10" = Ok d
       ∧ d = line_entries (["bat:87"] ++ ("time" +:+ ":" +:+ "5") :: ["h:10"])
       ∧ d !! "time" = Some (VInt 5).
Proof.
  destruct (proj2 state_parse_total "bat:87;time:5:6;h:10" ["bat:87"] ["h:10"]
              "time" "5" "6") as (d & Hrun & Hd & Hvalue).
  - vm_compute. intros H.
    repeat (apply elem_of_cons in H as [H|H]; [discriminate H|]).
    by apply elem_of_nil in H.
  - vm_compute. intros H.
    repeat (apply elem_of_cons in H as [H|H]; [discriminate H|]).
    by apply elem_of_nil in H.
  - vm_compute. reflexivity.
  - exists d. split; [done|]. split; [done|].
    rewrite Hvalue; [vm_compute; reflexivity|].
    intros later v Hin. apply list_elem_of_singleton in Hin as ->.
    vm_compute. discriminate.
Defined.

(** *** The clock and the receiver thread *)

Lemma advance_clock (d : Z) (w : World) : clock (advance d w) = clock w + d.
Proof. unfold advance. by destruct (threads_initialized w). Qed.

Lemma advance_outbox (d : Z) (w : World) : outbox (advance d w) = outbox w.
Proof. unfold advance. by destruct (threads_initialized w). Qed.

Lemma receive_datagram_dom (drones : gmap string PeerRecord) (dg : datagram)
    (ip : string) :
  is_Some (receive_datagram drones dg !! ip) ↔ is_Some (drones !! ip).
Proof.
  unfold receive_datagram.
  destruct (drones !! (source dg).1) as [peer|] eqn:Hpeer; [|done].
  destruct (decide ((source dg).1 = ip)) as [<-|Hne].
  - rewrite lookup_insert_eq, Hpeer. split; eauto.
  - by rewrite lookup_insert_ne.
Qed.

Lemma receive_thread_dom (dgs : list datagram) (drones : gmap string PeerRecord)
    (ip : string) :
  is_Some (__receive_thread dgs drones !! ip) ↔ is_Some (drones !! ip).
Proof.
  unfold __receive_thread. revert drones.
  induction dgs as [|dg dgs IH]; intros drones; simpl; [done|].
  by rewrite IH, receive_datagram_dom.
Qed.

Lemma advance_dom (d : Z) (w : World) (ip : string) :
  is_Some (drones (advance d w) !! ip) ↔ is_Some (drones w !! ip).
Proof.
  unfold advance. destruct (threads_initialized w); simpl; [|done].
  apply receive_thread_dom.
Qed.

(** *** The dispatcher, step by step *)

Lemma bind_assoc {A B C} (m : M A) (f : A → M B) (g : B → M C)
    (self : Tello) (w : World) :
  bind (bind m f) g self w = bind m (λ a, bind (f a) g) self w.
Proof. unfold bind. by destruct (m self w) as [[[a|e|] self'] w']. Qed.

Lemma pace_and_send_run (command : string) (self : Tello) (w : World) :
  pace_and_send command self w =
    let diff := clock w - last_received_command_timestamp self in
    if diff <? TIME_BTW_COMMANDS then
      if diff <? 0 then (Raise ValueError, self, w)
      else (Ok (clock w + diff), self, with_sent command self (advance diff w))
    else (Ok (clock w), self, with_sent command self w).
Proof.
  unfold pace_and_send, bind, time, get, get_world, sleep, sendto, update_world,
    ret, raise. simpl.
  destruct (_ <? TIME_BTW_COMMANDS); [|done].
  destruct (_ <? 0); [done|]. unfold with_sent. simpl. by rewrite !advance_clock.
Qed.

Lemma wait_for_response_spec (fuel : nat) (timestamp timeout : Z)
    (self : Tello) (w : World) :
  ∃ r w',
    wait_for_response fuel timestamp timeout self w = (r, self, w')
    ∧ outbox w' = outbox w
    ∧ clock w <= clock w'
    ∧ (∀ ip, is_Some (drones w' !! ip) ↔ is_Some (drones w !! ip))
    ∧ match r with
      | Ok true => from_option responses [] (drones w' !! (address self).1) ≠ []
      | Ok false =>
          from_option responses [] (drones w' !! (address self).1) = []
          ∧ 1000 * timeout < clock w' - timestamp
      | Raise _ => False
      | OutOfFuel =>
          100 * Z.of_nat fuel
          <= Z.max 0 (1000 * timeout - (clock w - timestamp) + 100)
      end.
Proof.
  revert w. induction fuel as [|fuel IH]; intros w.
  { exists OutOfFuel, w. simpl. repeat split; try done; lia. }
  simpl. unfold bind at 1. unfold own_responses, bind, get, get_world, ret. simpl.
  destruct (from_option responses [] (drones w !! (address self).1))
    as [|first rest] eqn:Hqueue.
  - unfold time, get_world. simpl.
    destruct (Z.gtb_spec (clock w - timestamp) (1000 * timeout)) as [Hlate|Hearly].
    + exists (Ok false), w. repeat split; try done; lia.
    + unfold sleep, update_world. simpl.
      destruct (IH (advance 100 w)) as (r & w' & Hrun & Hout & Hclock & Hdom & Hr).
      exists r, w'. rewrite Hrun. rewrite advance_outbox in Hout.
      rewrite advance_clock in Hclock, Hr.
      split; [done|]. split; [done|]. split; [lia|]. split.
      { intros ip. by rewrite Hdom, advance_dom. }
      destruct r as [[|]| |]; try done. lia.
  - exists (Ok true), w. repeat split; try done; try lia. by rewrite Hqueue.
Qed.

Lemma await_response_run (timestamp timeout : Z) (self : Tello) (w : World) :
  await_response timestamp timeout self w =
    match drones w !! (address self).1 with
    | Some _ => wait_for_response (polls timeout) timestamp timeout self w
    | None => (Raise KeyError, self, w)
    end.
Proof.
  unfold await_response, __get_own_udp_object, bind, get, get_world, lift,
    dict_getitem. simpl.
  by destruct (drones w !! (address self).1).
Qed.
Lemma insert_existing_dom {A} (m : gmap string A) (k ip : string) (v : A) :
  is_Some (m !! k) → is_Some (<[k := v]> m !! ip) ↔ is_Some (m !! ip).
Proof.
  intros Hk. destruct (decide (k = ip)) as [<-|Hne].
  - rewrite lookup_insert_eq. split; eauto.
  - by rewrite lookup_insert_ne.
Qed.

Lemma read_response_spec (self : Tello) (w : World) :
  ∃ r w',
    read_response self w
      = (r, set_last_received_command_timestamp (clock w) self, w')
    ∧ outbox w' = outbox w
    ∧ clock w' = clock w
    ∧ (∀ ip, is_Some (drones w' !! ip) ↔ is_Some (drones w !! ip))
    ∧ r ≠ OutOfFuel
    ∧ (own_queue self w ≠ [] → ∃ text, r = Ok text).
Proof.
  unfold read_response, own_queue, pop_first_response, __get_own_udp_object,
    try_except_class, bind, time, update, update_world, get, get_world, lift,
    ret, raise, dict_getitem. simpl.
  destruct (drones w !! (address self).1) as [peer|] eqn:Hpeer; simpl.
  - destruct (responses peer) as [|first rest]; simpl.
    + eexists _, _. split; [done|]. by split_and!.
    + unfold decode_utf8. destruct (well_formed_utf8 first); simpl.
      * eexists _, _. split; [done|]. simpl. split_and!; try done; [|eauto].
        intros ip. apply insert_existing_dom. by rewrite Hpeer.
      * eexists _, _. split; [done|]. simpl. split_and!; try done; [|eauto].
        intros ip. apply insert_existing_dom. by rewrite Hpeer.
  - eexists _, _. split; [done|]. by split_and!.
Qed.
Lemma polls_enough (timeout : Z) :
  Z.max 0 (1000 * timeout + 100) < 100 * Z.of_nat (polls timeout).
Proof. unfold polls. lia. Qed.

Lemma with_sent_outbox (command : string) (self : Tello) (w : World) :
  outbox (with_sent command self w)
  = (outbox w ++ [(clock w, (command, address self))])%list.
Proof. done. Qed.

Lemma send_command_and_return_run (command : string) (timeout : Z)
    (self : Tello) (w : World) :
  __send_command_and_return command timeout self w =
    match pace_and_send command self w with
    | (Ok timestamp, self1, w1) =>
        bind (await_response timestamp timeout)
          (λ answered, if answered then read_response
                       else ret (timeout_message command timeout)) self1 w1
    | (Raise e, self1, w1) => (Raise e, self1, w1)
    | (OutOfFuel, self1, w1) => (OutOfFuel, self1, w1)
    end.
Proof. done. Qed.

Lemma wait_outcome_run (command : string) (timeout : Z)
    (self : Tello) (w : World) :
  wait_outcome command timeout (self, w) =
    match pace_and_send command self w with
    | (Ok timestamp, self1, w1) => (await_response timestamp timeout self1 w1).1.1
    | (Raise e, _, _) => Raise e
    | (OutOfFuel, _, _) => OutOfFuel
    end.
Proof.
  unfold wait_outcome, result_of, bind. simpl.
  by destruct (pace_and_send command self w) as [[[ts|e|] self1] w1].
Qed.

(** One run of [__send_command_and_return], whatever the state. *)
Lemma send_command_and_return_spec (command : string) (timeout : Z)
    (self : Tello) (w : World) :
  ∃ r self' w',
    __send_command_and_return command timeout self w = (r, self', w')
    ∧ r ≠ OutOfFuel
    ∧ clock w <= clock w'
    ∧ (∀ ip, is_Some (drones w' !! ip) ↔ is_Some (drones w !! ip))
    ∧ (if decide (last_received_command_timestamp self <= clock w)
       then ∃ t, (pace_and_send command self w).1.1 = Ok t
                 ∧ outbox w' = (outbox w ++ [(t, (command, address self))])%list
                 ∧ clock w <= t <= clock w'
       else r = Raise ValueError ∧ self' = self ∧ w' = w)
    ∧ match wait_outcome command timeout (self, w) with
      | Ok false => r = Ok (timeout_message command timeout) ∧ self' = self
      | Ok true =>
          (registered self w → ∃ text, r = Ok text)
          ∧ self' = set_last_received_command_timestamp (clock w') self
      | Raise e => r = Raise e ∧ self' = self
      | OutOfFuel => False
      end.
Proof.
  rewrite send_command_and_return_run, wait_outcome_run, pace_and_send_run.
  cbv zeta.
  set (diff := clock w - last_received_command_timestamp self).
  assert (∀ w1,
    clock w <= clock w1 →
    (∀ ip, is_Some (drones w1 !! ip) ↔ is_Some (drones w !! ip)) →
    outbox w1 = outbox w →
    last_received_command_timestamp self <= clock w →
    ∃ r self' w',
      bind (await_response (clock w1) timeout)
        (λ answered, if answered then read_response
                     else ret (timeout_message command timeout))
        self (with_sent command self w1) = (r, self', w')
      ∧ r ≠ OutOfFuel
      ∧ clock w <= clock w'
      ∧ (∀ ip, is_Some (drones w' !! ip) ↔ is_Some (drones w !! ip))
      ∧ (outbox w' = (outbox w ++ [(clock w1, (command, address self))])%list
         ∧ clock w <= clock w1 <= clock w')
      ∧ match (await_response (clock w1) timeout self
                 (with_sent command self w1)).1.1 with
        | Ok false => r = Ok (timeout_message command timeout) ∧ self' = self
        | Ok true =>
            (registered self w → ∃ text, r = Ok text)
            ∧ self' = set_last_received_command_timestamp (clock w') self
        | Raise e => r = Raise e ∧ self' = self
        | OutOfFuel => False
        end) as Hrest.
  { intros w1 Hclock Hdom Hout Hsane.
    unfold bind. rewrite await_response_run.
    change (drones (with_sent command self w1)) with (drones w1).
    destruct (drones w1 !! (address self).1) as [peer|] eqn:Hpeer.
    - destruct (wait_for_response_spec (polls timeout) (clock w1) timeout self
                  (with_sent command self w1))
        as (r & w2 & -> & Hout2 & Hclock2 & Hdom2 & Hr).
      simpl in Hclock2, Hdom2. rewrite with_sent_outbox, Hout in Hout2.
      destruct r as [[|]|e|]; simpl.
      + destruct (read_response_spec self w2)
          as (r & w3 & -> & Hout3 & Hclock3 & Hdom3 & Hfuel & Hqueue).
        exists r, (set_last_received_command_timestamp (clock w2) self), w3.
        split; [done|]. split; [done|]. split; [lia|]. split.
        { intros ip. by rewrite Hdom3, Hdom2, Hdom. }
        split.
        { rewrite Hout3, Hout2. split; [done|lia]. }
        split; [|by rewrite Hclock3]. intros _. by apply Hqueue.
      + exists (Ok (timeout_message command timeout)), self, w2.
        split; [done|]. split; [done|]. split; [lia|]. split.
        { intros ip. by rewrite Hdom2, Hdom. }
        split; [|done]. rewrite Hout2. split; [done|lia].
      + done.
      + exfalso. simpl in Hr. pose proof (polls_enough timeout). lia.
    - simpl. exists (Raise KeyError), self, (with_sent command self w1).
      split; [done|]. split; [done|]. split; [done|]. split; [done|].
      split; [|done]. rewrite with_sent_outbox, Hout.
      simpl. split; [done|lia]. }
  destruct (Z.ltb_spec diff TIME_BTW_COMMANDS) as [Hsoon|Hlate].
  - destruct (Z.ltb_spec diff 0) as [Hneg|Hpos].
    + exists (Raise ValueError), self, w.
      split; [done|]. split; [done|]. split; [lia|]. split; [done|].
      split; [|done]. case_decide; [subst diff; lia|done].
    + case_decide; [|subst diff; lia].
      replace (clock w + diff) with (clock (advance diff w))
        by apply advance_clock.
      destruct (Hrest (advance diff w))
        as (r & self' & w' & Hrun & Hfuel & Hclock & Hdom & Hsent & Hr).
      * rewrite advance_clock. lia.
      * intros ip. apply advance_dom.
      * apply advance_outbox.
      * subst diff. lia.
      * exists r, self', w'. split_and!; try done. by exists (clock (advance diff w)).
  - case_decide; [|subst diff; unfold TIME_BTW_COMMANDS in *; lia].
    destruct (Hrest w)
      as (r & self' & w' & Hrun & Hfuel & Hclock & Hdom & Hsent & Hr); try done.
    exists r, self', w'. split_and!; try done. by exists (clock w).
Qed.
Lemma send_command_run (command : string) (timeout : Z) (self : Tello) (w : World) :
  send_command command timeout self w
  = send_command_attempts (Z.to_nat (retry_count self)) command timeout self w.
Proof. done. Qed.

(** *** Invariants of a session *)

(** [__init__] registers the session and stamps it with the current time. *)
Lemma init_establishes (tello_ip : string) (retries : Z) (w : World) :
  let '(self, w') := __init__ tello_ip retries w in
  registered self w' ∧ clock_sane self w' ∧ sdk_mode_enable self = false.
Proof.
  unfold registered, clock_sane. simpl. rewrite lookup_insert_eq.
  split; [eauto|]. split; [lia|done].
Qed.

(** [__send_command_and_return] always comes back, and keeps the session
    registered and the clock ahead of the pacing timestamp. *)
Lemma send_command_and_return_preserves (command : string) (timeout : Z)
    (self : Tello) (w : World) :
  let '(r, self', w') := __send_command_and_return command timeout self w in
  r ≠ OutOfFuel
  ∧ (registered self w → registered self' w')
  ∧ (clock_sane self w → clock_sane self' w').
Proof.
  destruct (send_command_and_return_spec command timeout self w)
    as (r & self' & w' & -> & Hfuel & Hclock & Hdom & _ & Hr).
  split; [done|]. unfold registered, clock_sane.
  destruct (wait_outcome command timeout (self, w)) as [[|]|e|];
    [destruct Hr as [_ ->]|destruct Hr as [_ ->]..|done]; simpl;
    (split; [by rewrite Hdom|lia]).
Qed.

(** [send_command] always comes back. *)
Lemma send_command_total (command : string) (timeout : Z) (self : Tello) (w : World) :
  (send_command command timeout self w).1.1 ≠ OutOfFuel.
Proof.
  rewrite send_command_run.
  generalize (Z.to_nat (retry_count self)) as n. intros n. revert self w.
  induction n as [|n IH]; intros self w; [done|].
  simpl. unfold bind.
  pose proof (send_command_and_return_preserves command timeout self w) as Hrun.
  destruct (__send_command_and_return command timeout self w)
    as [[[response|e|] self'] w']; simpl; [|done|by destruct Hrun].
  destruct (contains "ok" (lower response)); [done|]. apply IH.
Qed.

(** *** Routing of inbound datagrams *)

Lemma receive_datagram_unknown (drones : gmap string PeerRecord) (dg : datagram) :
  ¬ known drones dg → receive_datagram drones dg = drones.
Proof.
  unfold known, receive_datagram. intros Hdg.
  destruct (drones !! (source dg).1); [|done]. destruct Hdg. eauto.
Qed.

Lemma state_datagram_unknown (drones : gmap string PeerRecord) (dg : datagram) :
  ¬ known drones dg → state_datagram drones dg = Ok drones.
Proof.
  unfold known, state_datagram. intros Hdg.
  destruct (drones !! (source dg).1); [|done]. destruct Hdg. eauto.
Qed.

Lemma state_datagram_dom (drones drones' : gmap string PeerRecord)
    (dg : datagram) (ip : string) :
  state_datagram drones dg = Ok drones' →
  is_Some (drones' !! ip) ↔ is_Some (drones !! ip).
Proof.
  unfold state_datagram.
  destruct (drones !! (source dg).1) as [peer|] eqn:Hpeer.
  - destruct (decode_ascii (payload dg)) as [text| |]; simpl; [|done..].
    destruct (__state_parse text) as [parsed| |]; simpl; [|done..].
    intros [= <-]. apply insert_existing_dom. by rewrite Hpeer.
  - by intros [= <-].
Qed.

Lemma known_same_dom (drones drones' : gmap string PeerRecord) (dg : datagram) :
  (∀ ip, is_Some (drones' !! ip) ↔ is_Some (drones !! ip)) →
  known drones' dg ↔ known drones dg.
Proof. intros Hdom. apply Hdom. Qed.

Lemma receive_thread_filter (registry : gmap string PeerRecord)
    (dgs : list datagram) (drones : gmap string PeerRecord) :
  (∀ ip, is_Some (drones !! ip) ↔ is_Some (registry !! ip)) →
  __receive_thread dgs drones = __receive_thread (filter (known registry) dgs) drones.
Proof.
  unfold __receive_thread. revert drones.
  induction dgs as [|dg dgs IH]; intros drones Hdom; [done|].
  rewrite filter_cons. simpl. case_decide as Hdg; simpl.
  - apply IH. intros ip. by rewrite receive_datagram_dom.
  - rewrite receive_datagram_unknown; [by apply IH|].
    by rewrite (known_same_dom registry).
Qed.

Lemma state_thread_filter (registry : gmap string PeerRecord)
    (dgs : list datagram) (drones : gmap string PeerRecord) :
  (∀ ip, is_Some (drones !! ip) ↔ is_Some (registry !! ip)) →
  __state_thread dgs drones = __state_thread (filter (known registry) dgs) drones.
Proof.
  revert drones.
  induction dgs as [|dg dgs IH]; intros drones Hdom; [done|].
  rewrite filter_cons. simpl. case_decide as Hdg; simpl.
  - destruct (state_datagram drones dg) as [drones'| |] eqn:Hstep; [|done..].
    apply IH. intros ip. by rewrite (state_datagram_dom _ _ _ _ Hstep).
  - rewrite state_datagram_unknown; [by apply IH|].
    by rewrite (known_same_dom registry).
Qed.

(** C8.  A datagram whose source address has no entry in [drones] leaves
    the registry as it is, on the command port and on the telemetry port:
    no response queue grows and no telemetry snapshot changes.  Either
    receiver loop ends in the state it reaches on the datagrams of the
    registered peers alone. *)
Theorem unknown_source_discarded (drones : gmap string PeerRecord) :
  (∀ dg, ¬ known drones dg →
     receive_datagram drones dg = drones ∧ state_datagram drones dg = Ok drones)
  ∧ (∀ dgs,
       __receive_thread dgs drones
       = __receive_thread (filter (known drones) dgs) drones
       ∧ __state_thread dgs drones
         = __state_thread (filter (known drones) dgs) drones).
Proof.
  split.
  - intros dg Hdg. split.
    + by apply receive_datagram_unknown.
    + by apply state_datagram_unknown.
  - intros dgs. split.
    + by apply receive_thread_filter.
    + by apply state_thread_filter.
Qed.

Lemma unknown_source_discarded_witness :
  let drones : gmap string PeerRecord := {[ "192.168.10.1" := Peer [] ∅ ]} in
  let stray := Datagram "ok" ("10.0.0.7", 8889) in
  receive_datagram drones stray = drones ∧ state_datagram drones stray = Ok drones.
Proof.
  intros drones stray. apply (proj1 (unknown_source_discarded drones) stray).
  unfold known. vm_compute. by intros [? ?].
Defined.
(** *** The SDK-mode guard *)

Lemma check_sdk_mode_run (self : Tello) (w : World) :
  __check_sdk_mode self w =
    (if sdk_mode_enable self then Ok () else Raise ValueError, self, w).
Proof.
  unfold __check_sdk_mode, bind, get, ret, raise. simpl.
  by destruct (sdk_mode_enable self).
Qed.


Lemma guarded_connected {A} (body handler : M A) (self : Tello) (w : World) :
  sdk_mode_enable self = true →
  try_except (__check_sdk_mode ;; body) handler self w
  = try_except body handler self w.
Proof.
  intros Hsdk. unfold try_except, bind. by rewrite check_sdk_mode_run, Hsdk.
Qed.


Lemma get_own_udp_object_run (self : Tello) (w : World) :
  __get_own_udp_object self w
  = (dict_getitem (drones w) (address self).1, self, w).
Proof. done. Qed.

Lemma get_state_field_run (key : string) (self : Tello) (w : World)
    (peer : PeerRecord) :
  drones w !! (address self).1 = Some peer →
  __get_state_field key self w = (Ok (state peer !! key), self, w).
Proof.
  intros Hpeer.
  unfold __get_state_field, get_current_state, bind.
  rewrite get_own_udp_object_run. unfold dict_getitem. by rewrite Hpeer.
Qed.







(** The reading of C9 in the specification fails on [takeoff]: called on a
    session that is not connected it returns [None]. *)
Lemma fails_fast_when_unconnected_counterexample : ¬ fails_fast_when_unconnected.
Proof.
  intros Hfails.
  destruct (Hfails Takeoff (started []).1 (started []).2) as [[e He] _];
    [reflexivity|].
  vm_compute in He. discriminate He.
Qed.
(** *** Range checks of the move commands *)

Lemma check_in_range_spec (value lo hi : Z) :
  __check_in_range value (lo, hi) = bool_decide (lo <= value <= hi).
Proof.
  unfold __check_in_range. simpl.
  destruct (Z.geb_spec value lo), (Z.leb_spec value hi); simpl;
    by rewrite ?bool_decide_eq_true_2, ?bool_decide_eq_false_2 by lia.
Qed.

Lemma move_commands_body (verb : string) (move : Z → M unit) :
  (verb, move) ∈ move_commands → ∃ field, move = move_body verb field.
Proof.
  unfold move_commands. intros Hin.
  apply elem_of_cons in Hin as [[= -> ->]|Hin]; [by exists "move up"|].
  apply elem_of_cons in Hin as [[= -> ->]|Hin]; [by exists "move down"|].
  apply elem_of_cons in Hin as [[= -> ->]|Hin]; [by exists "move left"|].
  apply elem_of_cons in Hin as [[= -> ->]|Hin]; [by exists "move right"|].
  apply elem_of_cons in Hin as [[= -> ->]|Hin]; [by exists "move forward"|].
  apply elem_of_cons in Hin as [[= -> ->]|Hin]; [by exists "move backward"|].
  by apply elem_of_nil in Hin.
Qed.

Lemma move_body_spec (verb field : string) (distance : Z)
    (self : Tello) (w : World) :
  sdk_mode_enable self = true →
  ∃ self' w',
    move_body verb field distance self w = (Ok (), self', w')
    ∧ if decide (20 <= distance <= 500)
      then clock_sane self w →
           transmitted w w' [(verb +:+ " " +:+ str_of_int distance, address self)]
      else self' = self ∧ w' = w.
Proof.
  intros Hsdk. unfold move_body. rewrite guarded_connected by done.
  unfold DISTANCE_RANGE. rewrite check_in_range_spec.
  case_decide as Hrange.
  - rewrite bool_decide_eq_true_2 by done.
    destruct (send_command_and_return_spec
                (verb +:+ " " +:+ str_of_int distance) TIMEOUT self w)
      as (r & self' & w' & Hrun & Hfuel & _ & _ & Hsent & _).
    exists self', w'. split.
    + unfold try_except, bind. rewrite Hrun. by destruct r.
    + intros Hsane. unfold clock_sane in Hsane.
      rewrite decide_True in Hsent by done. destruct Hsent as (t & _ & Hout & _).
      by exists [(t, (verb +:+ " " +:+ str_of_int distance, address self))].
  - rewrite bool_decide_eq_false_2 by done. by exists self, w.
Qed.

(** C7.  On a connected session each of the six move commands returns
    normally, and: with a distance outside 20..500 it leaves the session
    and the globals untouched, so nothing is sent; with a distance inside
    the range, bounds included, exactly one datagram is sent, the command
    word followed by the distance, to the address of the drone. *)
Theorem move_distance_checked (verb : string) (move : Z → M unit)
    (distance : Z) (self : Tello) (w : World) :
  (verb, move) ∈ move_commands →
  sdk_mode_enable self = true →
  ∃ self' w',
    move distance self w = (Ok (), self', w')
    ∧ if decide (20 <= distance <= 500)
      then clock_sane self w →
           transmitted w w' [(verb +:+ " " +:+ str_of_int distance, address self)]
      else self' = self ∧ w' = w.
Proof.
  intros Hin Hsdk. destruct (move_commands_body _ _ Hin) as [field ->].
  by apply move_body_spec.
Qed.

Lemma move_distance_checked_witness :
  (∃ self' w',
     move_forward 600 (connected []).1 (connected []).2 = (Ok (), self', w')
     ∧ self' = (connected []).1 ∧ w' = (connected []).2)
  ∧ (∃ self' w',
       move_forward 500 (connected []).1 (connected []).2 = (Ok (), self', w')
       ∧ transmitted (connected []).2 w' [("forward 500", drone)]).
Proof.
  split.
  - destruct (move_distance_checked "forward" move_forward 600
                (connected []).1 (connected []).2) as (self' & w' & Hrun & Hrest).
    + unfold move_commands. do 4 right. left.
    + reflexivity.
    + exists self', w'. split; [done|].
      by rewrite decide_False in Hrest by lia.
  - destruct (move_distance_checked "forward" move_forward 500
                (connected []).1 (connected []).2) as (self' & w' & Hrun & Hrest).
    + unfold move_commands. do 4 right. left.
    + reflexivity.
    + exists self', w'. split; [done|].
      rewrite decide_True in Hrest by lia. apply Hrest.
      unfold clock_sane. vm_compute. discriminate.
Defined.
(** *** The retry loop *)

Lemma send_command_attempts_step (n : nat) (command : string) (timeout : Z)
    (s : Tello * World) :
  send_command_attempts (S n) command timeout s.1 s.2 =
    match result_of (__send_command_and_return command timeout) s with
    | Ok response =>
        if says_ok response
        then (Ok true,
              (state_after (__send_command_and_return command timeout) s).1,
              (state_after (__send_command_and_return command timeout) s).2)
        else send_command_attempts n command timeout
               (state_after (__send_command_and_return command timeout) s).1
               (state_after (__send_command_and_return command timeout) s).2
    | Raise e =>
        (Raise e,
         (state_after (__send_command_and_return command timeout) s).1,
         (state_after (__send_command_and_return command timeout) s).2)
    | OutOfFuel =>
        (OutOfFuel,
         (state_after (__send_command_and_return command timeout) s).1,
         (state_after (__send_command_and_return command timeout) s).2)
    end.
Proof.
  unfold result_of, state_after. simpl. unfold bind, says_ok.
  destruct (__send_command_and_return command timeout s.1 s.2)
    as [[[response|e|] self'] w']; simpl; [|done..].
  by destruct (contains "ok" (lower response)).
Qed.

(** The first response that says ok ends the loop with [True], in the state
    that this attempt left. *)
Lemma send_command_attempts_success (n k : nat) (command : string) (timeout : Z)
    (s : Tello * World) (response : string) :
  (k < n)%nat →
  (∀ j, (j < k)%nat →
     ∃ r, response_of_attempt j command timeout s = Ok r ∧ says_ok r = false) →
  response_of_attempt k command timeout s = Ok response →
  says_ok response = true →
  send_command_attempts n command timeout s.1 s.2
  = (Ok true, (after_attempts (S k) command timeout s).1,
              (after_attempts (S k) command timeout s).2).
Proof.
  revert k s. induction n as [|n IH]; intros k s Hk Hfail Hresp Hok; [lia|].
  rewrite send_command_attempts_step. destruct k as [|k].
  - unfold response_of_attempt in Hresp. simpl in Hresp.
    by rewrite Hresp, Hok.
  - destruct (Hfail O) as (r & Hr & Hno); [lia|].
    unfold response_of_attempt in Hr. simpl in Hr. rewrite Hr, Hno.
    apply (IH k); [lia| |done..].
    intros j Hj. apply (Hfail (S j)). lia.
Qed.

(** When no response says ok, the loop runs [n] times and ends with [False]. *)
Lemma send_command_attempts_failure (n : nat) (command : string) (timeout : Z)
    (s : Tello * World) :
  (∀ j, (j < n)%nat →
     ∃ r, response_of_attempt j command timeout s = Ok r ∧ says_ok r = false) →
  send_command_attempts n command timeout s.1 s.2
  = (Ok false, (after_attempts n command timeout s).1,
               (after_attempts n command timeout s).2).
Proof.
  revert s. induction n as [|n IH]; intros s Hfail.
  - by destruct s.
  - rewrite send_command_attempts_step.
    destruct (Hfail O) as (r & Hr & Hno); [lia|].
    unfold response_of_attempt in Hr. simpl in Hr. rewrite Hr, Hno.
    apply IH. intros j Hj. apply (Hfail (S j)). lia.
Qed.

(** What an attempt that times out, or that is answered, leaves behind. *)
Lemma attempt_transmits (command : string) (timeout : Z) (s : Tello * World)
    (outcome : bool) :
  wait_outcome command timeout s = Ok outcome →
  let s' := state_after (__send_command_and_return command timeout) s in
  transmitted s.2 s'.2 [(command, address s.1)]
  ∧ address s'.1 = address s.1
  ∧ (outcome = false →
     result_of (__send_command_and_return command timeout) s
     = Ok (timeout_message command timeout)).
Proof.
  destruct s as [self w]. intros Hwait. simpl.
  destruct (send_command_and_return_spec command timeout self w)
    as (r & self' & w' & Hrun & _ & _ & _ & Hsent & Hr).
  unfold state_after, result_of. simpl. rewrite Hrun. simpl.
  rewrite Hwait in Hr.
  case_decide as Hsane.
  - destruct Hsent as (t & _ & Hout & _). split.
    { by exists [(t, (command, address self))]. }
    destruct outcome.
    + destruct Hr as [_ ->]. by split.
    + destruct Hr as [-> ->]. by split.
  - (* a clock behind the timestamp: the attempt raised before the wait *)
    exfalso. rewrite wait_outcome_run, pace_and_send_run in Hwait.
    cbv zeta in Hwait. unfold TIME_BTW_COMMANDS in Hwait.
    destruct (Z.ltb_spec (clock w - last_received_command_timestamp self) 100);
      [|lia].
    destruct (Z.ltb_spec (clock w - last_received_command_timestamp self) 0);
      [done|lia].
Qed.
Lemma transmitted_trans (w1 w2 w3 : World) (sent sent' : list (string * endpoint)) :
  transmitted w1 w2 sent → transmitted w2 w3 sent' →
  transmitted w1 w3 (sent ++ sent').
Proof.
  intros (log & Hout & Hlog) (log' & Hout' & Hlog').
  exists (log ++ log')%list. rewrite Hout', Hout, fmap_app, Hlog, Hlog'.
  by rewrite <- (assoc_L _).
Qed.

Lemma transmitted_length (w w' : World) (sent : list (string * endpoint)) :
  transmitted w w' sent →
  length (outbox w') = (length (outbox w) + length sent)%nat.
Proof.
  intros (log & -> & <-). by rewrite length_app, length_fmap.
Qed.

(** The retry loop.  [send_command] runs [__send_command_and_return] at most
    [retry_count] times: it returns [True] right after the first attempt
    whose returned text contains "ok" in any case, and [False] after
    [retry_count] attempts when none does.  With at least three attempts
    allowed and a timeout message that does not contain "ok", two timeouts
    followed by an answer with "ok" give [True] after exactly three
    datagrams. *)
Lemma retry_loop (command : string) (timeout : Z) (self : Tello) (w : World) :
  let n := Z.to_nat (retry_count self) in
  (∀ k response,
     (k < n)%nat →
     (∀ j, (j < k)%nat →
        ∃ r, response_of_attempt j command timeout (self, w) = Ok r
             ∧ says_ok r = false) →
     response_of_attempt k command timeout (self, w) = Ok response →
     says_ok response = true →
     send_command command timeout self w
     = (Ok true, (after_attempts (S k) command timeout (self, w)).1,
                 (after_attempts (S k) command timeout (self, w)).2))
  ∧ ((∀ j, (j < n)%nat →
        ∃ r, response_of_attempt j command timeout (self, w) = Ok r
             ∧ says_ok r = false) →
     send_command command timeout self w
     = (Ok false, (after_attempts n command timeout (self, w)).1,
                  (after_attempts n command timeout (self, w)).2))
  ∧ (3 <= retry_count self →
     says_ok (timeout_message command timeout) = false →
     timed_out command timeout (self, w) →
     timed_out command timeout (after_attempts 1 command timeout (self, w)) →
     answered command timeout (after_attempts 2 command timeout (self, w)) →
     (∃ response,
        response_of_attempt 2 command timeout (self, w) = Ok response
        ∧ says_ok response = true) →
     ∃ self' w',
       send_command command timeout self w = (Ok true, self', w')
       ∧ transmitted w w'
           [(command, address self); (command, address self);
            (command, address self)]).
Proof.
  intros n. split; [|split].
  - intros k response Hk Hfail Hresp Hok. rewrite send_command_run.
    by apply (send_command_attempts_success n k command timeout (self, w) response).
  - intros Hfail. rewrite send_command_run.
    by apply (send_command_attempts_failure n command timeout (self, w)).
  - intros Hretry Hquiet Hfirst Hsecond Hthird (response & Hresp & Hok).
    destruct (attempt_transmits _ _ _ _ Hfirst) as (Hsent1 & Haddr1 & Hmsg1).
    destruct (attempt_transmits _ _ _ _ Hsecond) as (Hsent2 & Haddr2 & Hmsg2).
    destruct (attempt_transmits _ _ _ _ Hthird) as (Hsent3 & Haddr3 & _).
    simpl in Hsent1, Haddr1, Hsent2, Haddr2, Hsent3, Haddr3.
    rewrite Haddr1 in Haddr2, Hsent2. rewrite Haddr2 in Hsent3.
    eexists _, _. split.
    + rewrite send_command_run.
      apply (send_command_attempts_success n 2 command timeout (self, w) response);
        [subst n; lia| |done..].
      intros j Hj. exists (timeout_message command timeout). split; [|done].
      destruct j as [|[|j]]; [by apply Hmsg1|by apply Hmsg2|lia].
    + simpl.
      apply (transmitted_trans _ _ _ [_] [_; _] Hsent1).
      apply (transmitted_trans _ _ _ [_] [_] Hsent2). exact Hsent3.
Qed.

(** The mode-entry command: the drone is silent for two attempts and
    answers "ok" during the third; [send_command] is true after three
    datagrams. *)
Example retry_loop_mode_entry :
  ∃ self' w',
    send_command "command" 8 (started [(17250, "ok")]).1 (started [(17250, "ok")]).2
    = (Ok true, self', w')
    ∧ transmitted (started [(17250, "ok")]).2 w'
        [("command", drone); ("command", drone); ("command", drone)].
Proof.
  apply (proj2 (proj2 (retry_loop "command" 8
                         (started [(17250, "ok")]).1 (started [(17250, "ok")]).2))).
  - vm_compute. discriminate.
  - vm_compute. reflexivity.
  - vm_compute. reflexivity.
  - vm_compute. reflexivity.
  - vm_compute. reflexivity.
  - exists "ok". split; vm_compute; reflexivity.
Qed.

(** *** Timeouts and pacing at work *)

(** C1, at the failing input.  Three attempts are allowed and the drone is
    silent for the first two and answers "ok" during the third.  With the
    command "ap Brooklyn hunter22" the first attempt times out, and
    [send_command] returns [True] there and then: one datagram has been
    sent, and the answer of the drone is still on its way. *)
Theorem retry_stops_on_first_timeout :
  let command := "ap Brooklyn hunter22" in
  let s := started [(17250, "ok")] in
  retry_count s.1 = 3
  ∧ timed_out command TIMEOUT s
  ∧ timed_out command TIMEOUT (after_attempts 1 command TIMEOUT s)
  ∧ answered command TIMEOUT (after_attempts 2 command TIMEOUT s)
  ∧ response_of_attempt 2 command TIMEOUT s = Ok "ok"
  ∧ result_of (send_command command TIMEOUT) s = Ok true
  ∧ state_after (send_command command TIMEOUT) s
    = after_attempts 1 command TIMEOUT s
  ∧ outbox (state_after (send_command command TIMEOUT) s).2
    = [(1000, (command, drone))]
  ∧ inbox (state_after (send_command command TIMEOUT) s).2
    = [(17250, Datagram "ok" drone)].
Proof. vm_compute. repeat split; reflexivity. Qed.

(** C4, at the failing input.  The drone never answers.  The command
    "ap Brooklyn hunter22" is sent once, the wait ends on the timeout, and
    [send_command] returns [True]: the timeout message quotes the command,
    and the command contains "ok".  The value returned on the timeout is a
    plain string: a drone that answers with that very text gives the same
    value. *)
Theorem timeout_message_taken_for_ok :
  let command := "ap Brooklyn hunter22" in
  timed_out command TIMEOUT (started [])
  ∧ result_of (__send_command_and_return command TIMEOUT) (started [])
    = Ok "Aborting command 'ap Brooklyn hunter22'. Did not receive a response after 8 seconds"
  ∧ says_ok "Aborting command 'ap Brooklyn hunter22'. Did not receive a response after 8 seconds"
    = true
  ∧ result_of (send_command command TIMEOUT) (started []) = Ok true
  ∧ outbox (state_after (send_command command TIMEOUT) (started [])).2
    = [(1000, (command, drone))]
  ∧ answered command TIMEOUT (started [(1050, timeout_message command TIMEOUT)])
  ∧ result_of (__send_command_and_return command TIMEOUT)
      (started [(1050, timeout_message command TIMEOUT)])
    = result_of (__send_command_and_return command TIMEOUT) (started []).
Proof. vm_compute. repeat split; reflexivity. Qed.

(** C2, at the failing input.  A response of the drone is already queued
    (it arrived at 500) when "takeoff" is sent at 1000, so the call returns
    at once and the pacing timestamp is 1000.  The caller issues "land" 10 ms
    later: [diff] is 10, the code sleeps those 10 ms instead of the 90 that
    remain, and "land" leaves at 1020, 20 ms after "takeoff". *)
Theorem pacing_sleeps_elapsed_time :
  let s0 := started [(500, "ok")] in
  let s1 := state_after (__send_command_and_return "takeoff" TIMEOUT) s0 in
  let s2 := (s1.1, advance 10 s1.2) in
  let s3 := state_after (__send_command_and_return "land" TIMEOUT) s2 in
  last_received_command_timestamp s1.1 = 1000
  ∧ clock s2.2 = 1010
  ∧ result_of (pace_and_send "land") s2 = Ok 1020
  ∧ outbox s3.2 = [(1000, ("takeoff", drone)); (1020, ("land", drone))]
  ∧ 1020 - 1000 < TIME_BTW_COMMANDS.
Proof. vm_compute. repeat split; reflexivity. Qed.

(** C3, counterexample.  "takeoff" is sent at 1000 and the answer arrives
    at 1030: when the call is over the pacing timestamp is 1100, the time
    at which the wait loop found the answer, not the time of the send. *)
Lemma timestamp_set_at_send_counterexample : ¬ timestamp_set_at_send.
Proof.
  intros Hclaim.
  specialize (Hclaim "takeoff" TIMEOUT (started [(1030, "ok")]).1
                (started [(1030, "ok")]).2 1000).
  vm_compute in Hclaim. specialize (Hclaim eq_refl). discriminate.
Qed.

(** C3, as the code has it.  Sending leaves the pacing timestamp alone.
    When the wait ends on the timeout the timestamp is still what it was
    before the call; when the wait ends with a response queued it is set to
    the clock at that moment, which is the time of the send or later. *)
Theorem pacing_timestamp_set_on_response (command : string) (timeout : Z)
    (self : Tello) (w : World) :
  let s' := state_after (__send_command_and_return command timeout) (self, w) in
  last_received_command_timestamp (state_after (pace_and_send command) (self, w)).1
  = last_received_command_timestamp self
  ∧ (timed_out command timeout (self, w) →
     last_received_command_timestamp s'.1 = last_received_command_timestamp self)
  ∧ (answered command timeout (self, w) →
     last_received_command_timestamp s'.1 = clock s'.2
     ∧ ∀ timestamp,
         result_of (pace_and_send command) (self, w) = Ok timestamp →
         timestamp <= last_received_command_timestamp s'.1).
Proof.
  intros s'. subst s'. unfold timed_out, answered, state_after, result_of. simpl.
  destruct (send_command_and_return_spec command timeout self w)
    as (r & self' & w' & -> & _ & _ & _ & Hsent & Hr). simpl.
  split; [|split].
  - rewrite pace_and_send_run. cbv zeta.
    destruct (_ <? TIME_BTW_COMMANDS); [|done]. by destruct (_ <? 0).
  - intros Hwait. rewrite Hwait in Hr. by destruct Hr as [_ ->].
  - intros Hwait. rewrite Hwait in Hr. destruct Hr as [_ ->]. simpl.
    split; [done|]. intros timestamp Hpace.
    case_decide as Hsane.
    + destruct Hsent as (t & Ht & _ & _ & Hclock).
      rewrite Hpace in Ht. injection Ht as ->. done.
    + destruct Hsent as (_ & _ & ->).
      rewrite pace_and_send_run in Hpace. cbv zeta in Hpace.
      unfold TIME_BTW_COMMANDS in Hpace.
      destruct (Z.ltb_spec (clock w - last_received_command_timestamp self) 100);
        [|lia].
      destruct (Z.ltb_spec (clock w - last_received_command_timestamp self) 0);
        [done|lia].
Qed.

Lemma pacing_timestamp_set_on_response_witness :
  let s := started [(1030, "ok")] in
  let s' := state_after (__send_command_and_return "takeoff" TIMEOUT) s in
  last_received_command_timestamp s'.1 = clock s'.2
  ∧ ∀ timestamp,
      result_of (pace_and_send "takeoff") s = Ok timestamp →
      timestamp <= last_received_command_timestamp s'.1.
Proof.
  apply (proj2 (proj2 (pacing_timestamp_set_on_response "takeoff" TIMEOUT
                         (started [(1030, "ok")]).1 (started [(1030, "ok")]).2))).
  vm_compute. reflexivity.
Defined.

(** A whole session.  The drone acknowledges the mode entry and answers the
    three queries of [connect]; a move by 600 cm then changes nothing, and
    a move by 100 cm sends its one datagram. *)
Example session_scenario :
  let s0 := started [(1050, "ok"); (1150, "30"); (1250, "RMTT"); (1350, "87");
                     (1450, "ok")] in
  let s1 := state_after connect s0 in
  sdk_mode_enable s1.1 = true
  ∧ sdk_version s1.1 = Some (VInt 30)
  ∧ hardware s1.1 = Some (VStr "RMTT")
  ∧ state_after (move_forward 600) s1 = s1
  ∧ outbox (state_after (move_forward 100) s1).2
    = (outbox s1.2 ++ [(1400, ("forward 100", drone))])%list.
Proof. vm_compute. repeat split; reflexivity. Qed.

(** ** Further properties *)
(** *** The receiver loops, peer by peer *)

Lemma receive_datagram_lookup (drones : gmap string PeerRecord) (dg : datagram)
    (ip : string) (peer : PeerRecord) :
  drones !! ip = Some peer →
  receive_datagram drones dg !! ip
  = Some (if decide (from_host ip dg)
          then Peer (responses peer ++ [payload dg]) (state peer)
          else peer).
Proof.
  intros Hpeer. unfold receive_datagram, from_host.
  case_decide as Hip.
  - rewrite Hip, Hpeer. by rewrite lookup_insert_eq.
  - destruct (drones !! (source dg).1); [|done].
    by rewrite lookup_insert_ne.
Qed.

Lemma receive_thread_lookup (dgs : list datagram)
    (drones : gmap string PeerRecord) (ip : string) (peer : PeerRecord) :
  drones !! ip = Some peer →
  __receive_thread dgs drones !! ip
  = Some (Peer (responses peer ++ (payload <$> filter (from_host ip) dgs))
               (state peer)).
Proof.
  unfold __receive_thread. revert drones peer.
  induction dgs as [|dg dgs IH]; intros drones peer Hpeer; simpl.
  - rewrite app_nil_r. by destruct peer.
  - rewrite (IH _ _ (receive_datagram_lookup _ dg _ _ Hpeer)).
    rewrite filter_cons. case_decide; simpl; [|done].
    by rewrite <- (assoc_L _).
Qed.

(** X1.  The command receiver keeps one FIFO queue per registered peer: after
    any run of datagrams, the queue of a peer is what it was, followed by the
    payloads of the datagrams that came from that peer, in their order of
    arrival; its telemetry snapshot is untouched. *)
Theorem receive_thread_queues (dgs : list datagram)
    (drones : gmap string PeerRecord) (ip : string) (peer : PeerRecord) :
  drones !! ip = Some peer →
  __receive_thread dgs drones !! ip
  = Some (Peer (responses peer ++ (payload <$> filter (from_host ip) dgs))
               (state peer)).
Proof. apply receive_thread_lookup. Qed.

Lemma receive_thread_queues_witness :
  __receive_thread
    [Datagram "ok" ("192.168.10.1", 8889); Datagram "x" ("192.168.10.2", 8889);
     Datagram "error" ("192.168.10.1", 8889)]
    {[ "192.168.10.1" := Peer ["late"] ∅ ]} !! "192.168.10.1"
  = Some (Peer (["late"] ++ (payload <$> filter (from_host "192.168.10.1")
            [Datagram "ok" ("192.168.10.1", 8889);
             Datagram "x" ("192.168.10.2", 8889);
             Datagram "error" ("192.168.10.1", 8889)])) ∅).
Proof.
  apply (receive_thread_queues _ _ "192.168.10.1" (Peer ["late"] ∅)).
  vm_compute. reflexivity.
Defined.

Lemma state_parse_returns (state : string) : ∃ d, __state_parse state = Ok d.
Proof.
  unfold __state_parse. case_bool_decide; [eauto|]. apply parse_fields_ok.
Qed.

Lemma state_datagram_run (drones : gmap string PeerRecord) (dg : datagram) :
  readable drones dg →
  state_datagram drones dg
  = Ok (match drones !! (source dg).1 with
        | Some peer =>
            <[(source dg).1 := Peer (responses peer) (telemetry_of (payload dg))]>
              drones
        | None => drones
        end).
Proof.
  unfold readable, known, state_datagram, telemetry_of, decode_ascii.
  intros Hread. destruct (drones !! (source dg).1) as [peer|]; [|done].
  rewrite Hread by eauto. simpl.
  destruct (state_parse_returns (payload dg)) as [parsed ->]. done.
Qed.

Lemma readable_same_dom (drones drones' : gmap string PeerRecord) (dg : datagram) :
  (∀ ip, is_Some (drones' !! ip) ↔ is_Some (drones !! ip)) →
  readable drones dg → readable drones' dg.
Proof. unfold readable. intros Hdom Hread Hdg. apply Hread. by apply Hdom. Qed.

Lemma state_thread_snapshots_gen (registry : gmap string PeerRecord)
    (dgs : list datagram) (drones : gmap string PeerRecord)
    (ip : string) (peer : PeerRecord) :
  (∀ ip, is_Some (drones !! ip) ↔ is_Some (registry !! ip)) →
  Forall (readable registry) dgs →
  drones !! ip = Some peer →
  __state_thread dgs drones !! ip
  = Some (Peer (responses peer)
               (from_option (λ dg, telemetry_of (payload dg)) (state peer)
                  (last (filter (from_host ip) dgs)))).
Proof.
  revert drones peer.
  induction dgs as [|dg dgs IH]; intros drones peer Hdom Hall Hpeer; simpl.
  - by destruct peer.
  - apply Forall_cons in Hall as [Hdg Hall].
    rewrite state_datagram_run by (by apply (readable_same_dom registry)).
    rewrite filter_cons. unfold from_host at 2.
    destruct (drones !! (source dg).1) as [sender|] eqn:Hsender.
    + assert (∀ ip', is_Some (<[(source dg).1 :=
                 Peer (responses sender) (telemetry_of (payload dg))]> drones !! ip')
               ↔ is_Some (registry !! ip')) as Hdom'.
      { intros ip'. rewrite <- Hdom. apply insert_existing_dom. by rewrite Hsender. }
      case_decide as Hip.
      * rewrite Hip in Hsender. rewrite Hpeer in Hsender. injection Hsender as <-.
        rewrite (IH _ (Peer (responses peer) (telemetry_of (payload dg))));
          [|done|done|by rewrite Hip, lookup_insert_eq].
        simpl. rewrite last_cons.
        by destruct (last (filter (from_host ip) dgs)).
      * rewrite (IH _ peer); [done..|by rewrite lookup_insert_ne].
    + case_decide as Hip; [congruence|]. by apply IH.
Qed.

(** X2.  While every datagram it reads is ASCII, the telemetry receiver
    replaces the snapshot of the sending peer wholesale: after any run of
    datagrams the snapshot of a registered peer is the parse of the last
    datagram that came from it (the old snapshot if none did), and its
    response queue is untouched. *)
Theorem state_thread_snapshots (dgs : list datagram)
    (drones : gmap string PeerRecord) (ip : string) (peer : PeerRecord) :
  Forall (readable drones) dgs →
  drones !! ip = Some peer →
  __state_thread dgs drones !! ip
  = Some (Peer (responses peer)
               (from_option (λ dg, telemetry_of (payload dg)) (state peer)
                  (last (filter (from_host ip) dgs)))).
Proof. intros Hall Hpeer. by apply (state_thread_snapshots_gen drones). Qed.

Lemma state_thread_snapshots_witness :
  __state_thread
    [Datagram "bat:90;" ("192.168.10.1", 8890);
     Datagram "bat:10;" ("192.168.10.2", 8890);
     Datagram "bat:87;h:20;" ("192.168.10.1", 8890)]
    {[ "192.168.10.1" := Peer ["ok"] ∅ ]} !! "192.168.10.1"
  = Some (Peer ["ok"] (telemetry_of "bat:87;h:20;")).
Proof.
  apply (state_thread_snapshots
           [Datagram "bat:90;" ("192.168.10.1", 8890);
            Datagram "bat:10;" ("192.168.10.2", 8890);
            Datagram "bat:87;h:20;" ("192.168.10.1", 8890)]
           {[ "192.168.10.1" := Peer ["ok"] ∅ ]} "192.168.10.1" (Peer ["ok"] ∅)).
  - repeat constructor; intros _; vm_compute; reflexivity.
  - vm_compute. reflexivity.
Defined.

Lemma state_thread_stops_gen (registry : gmap string PeerRecord)
    (before after : list datagram) (bad : datagram)
    (drones : gmap string PeerRecord) :
  (∀ ip, is_Some (drones !! ip) ↔ is_Some (registry !! ip)) →
  Forall (readable registry) before →
  known registry bad → is_ascii (payload bad) = false →
  __state_thread (before ++ bad :: after) drones = __state_thread before drones.
Proof.
  revert drones.
  induction before as [|dg before IH]; intros drones Hdom Hall Hbad Hbytes; simpl.
  - unfold state_datagram, decode_ascii. unfold known in Hbad.
    apply Hdom in Hbad as [peer ->]. by rewrite Hbytes.
  - apply Forall_cons in Hall as [Hdg Hall].
    destruct (state_datagram drones dg) as [drones'| |] eqn:Hstep; [|done..].
    apply IH; [|done..].
    intros ip. by rewrite (state_datagram_dom _ _ _ _ Hstep).
Qed.

(** X3.  One payload that is not ASCII, sent by a registered peer, ends the
    telemetry receiver: the [UnicodeDecodeError] breaks its loop, and no
    datagram after it, from any peer, changes anything any more. *)
Theorem state_thread_stops_on_non_ascii (before after : list datagram)
    (bad : datagram) (drones : gmap string PeerRecord) :
  Forall (readable drones) before →
  known drones bad → is_ascii (payload bad) = false →
  __state_thread (before ++ bad :: after) drones = __state_thread before drones.
Proof. intros Hall Hbad Hbytes. by apply (state_thread_stops_gen drones). Qed.

Lemma state_thread_stops_on_non_ascii_witness :
  __state_thread
    ([Datagram "bat:90;" ("192.168.10.1", 8890)]
     ++ Datagram (String "233" "t") ("192.168.10.1", 8890)
        :: [Datagram "bat:87;" ("192.168.10.1", 8890)])
    {[ "192.168.10.1" := Peer [] ∅ ]}
  = __state_thread [Datagram "bat:90;" ("192.168.10.1", 8890)]
      {[ "192.168.10.1" := Peer [] ∅ ]}.
Proof.
  apply state_thread_stops_on_non_ascii.
  - repeat constructor; intros _; vm_compute; reflexivity.
  - unfold known. vm_compute. eauto.
  - vm_compute. reflexivity.
Defined.
(** *** The parser, field by field *)

Lemma parse_field_other_key (field key : string) (d d' : gmap string value) :
  (∀ text rest, Py.split ":" field = key :: text :: rest →
     ∃ t, state_field_converters !! key = Some t
          ∧ convert t text = Raise ValueError) →
  parse_field field d = Ok d' → d' !! key = d !! key.
Proof.
  intros Hother.
  destruct (Py.split ":" field) as [|k [|text rest]] eqn:Hsplit.
  - rewrite parse_field_short by (rewrite Hsplit; simpl; lia). by intros [= <-].
  - rewrite parse_field_short by (rewrite Hsplit; simpl; lia). by intros [= <-].
  - rewrite (parse_field_keyed _ _ _ _ _ Hsplit).
    destruct (decide (k = key)) as [->|Hne].
    + destruct (Hother text rest eq_refl) as (t & -> & ->). by intros [= <-].
    + destruct (state_field_converters !! k) as [t|].
      * destruct (convert t text); intros [= <-]; [|done..].
        by rewrite lookup_insert_ne.
      * intros [= <-]. by rewrite lookup_insert_ne.
Qed.

Lemma parse_fields_other_key (fields : list string) (key : string)
    (d d' : gmap string value) :
  (∀ field text rest,
     field ∈ fields → Py.split ":" field = key :: text :: rest →
     ∃ t, state_field_converters !! key = Some t
          ∧ convert t text = Raise ValueError) →
  parse_fields fields d = Ok d' → d' !! key = d !! key.
Proof.
  revert d. induction fields as [|field fields IH]; intros d Hother; simpl.
  - by intros [= <-].
  - destruct (parse_field_ok field d) as [d1 Hd1]. rewrite Hd1. simpl.
    intros Hrest. rewrite (IH d1); [| |done].
    + apply (parse_field_other_key field); [|done].
      intros text rest. apply Hother. left.
    + intros f text rest Hf. apply Hother. by right.
Qed.

(** X4.  Every well-formed field is returned, and for a key that occurs more
    than once the last well-formed field wins: a field [key:text] whose text
    converts (or whose key is outside the schema), followed only by fields
    that have another key or do not convert, appears in the result with its
    converted value. *)
Theorem state_parse_keeps_valid_field (state : string)
    (before after : list string) (field key text : string)
    (rest : list string) (v : value) :
  Py.split ";" (Py.strip state) = (before ++ field :: after)%list →
  Py.split ":" field = key :: text :: rest →
  match state_field_converters !! key with
  | Some t => convert t text = Ok v
  | None => v = VStr text
  end →
  (∀ later text' rest',
     later ∈ after → Py.split ":" later = key :: text' :: rest' →
     ∃ t, state_field_converters !! key = Some t
          ∧ convert t text' = Raise ValueError) →
  ∃ d, __state_parse state = Ok d ∧ d !! key = Some v.
Proof.
  intros Hfields Hsplit Hvalue Hlater. unfold __state_parse.
  case_bool_decide as Hok.
  { rewrite Hok in Hfields. destruct before as [|b [|? ?]]; simplify_eq/=. }
  rewrite Hfields, parse_fields_app.
  destruct (parse_fields_ok before ∅) as [d1 ->]. simpl.
  rewrite (parse_field_keyed _ _ _ _ _ Hsplit).
  assert (∃ d2, match state_field_converters !! key with
                | Some t => match convert t text with
                            | Ok v0 => Ok (<[key:=v0]> d1)
                            | _ => Ok d1
                            end
                | None => Ok (<[key:=VStr text]> d1)
                end = Ok d2 ∧ d2 !! key = Some v) as (d2 & -> & Hd2).
  { destruct (state_field_converters !! key) as [t|].
    - rewrite Hvalue. eexists. split; [done|]. by rewrite lookup_insert_eq.
    - subst v. eexists. split; [done|]. by rewrite lookup_insert_eq. }
  simpl. destruct (parse_fields_ok after d2) as [d Hd]. rewrite Hd.
  exists d. split; [done|].
  by rewrite (parse_fields_other_key after key d2 d Hlater Hd).
Qed.

Lemma state_parse_keeps_valid_field_witness :
  ∃ d, __state_parse "bat:90;h:5;bat:87;bat:x" = Ok d ∧ d !! "bat" = Some (VInt 87).
Proof.
  apply (state_parse_keeps_valid_field "bat:90;h:5;bat:87;bat:x"
           ["bat:90"; "h:5"] ["bat:x"] "bat:87" "bat" "87" [] (VInt 87)).
  - vm_compute. reflexivity.
  - vm_compute. reflexivity.
  - vm_compute. reflexivity.
  - intros later text' rest' Hin Hsplit.
    apply list_elem_of_singleton in Hin as ->.
    vm_compute in Hsplit. injection Hsplit as <- <-.
    exists Int. split; vm_compute; reflexivity.
Defined.
(** *** The dispatcher on a registered session *)

Lemma same_session_refl (self : Tello) : same_session self self.
Proof. exists (last_received_command_timestamp self). by destruct self. Qed.

Lemma same_session_trans (self1 self2 self3 : Tello) :
  same_session self1 self2 → same_session self2 self3 → same_session self1 self3.
Proof. intros [t ->] [t' ->]. by exists t'. Qed.

Lemma same_session_stamp (self : Tello) (t : Z) :
  same_session self (set_last_received_command_timestamp t self).
Proof. by exists t. Qed.

Lemma same_session_fields (self self' : Tello) :
  same_session self self' →
  address self' = address self
  ∧ retry_count self' = retry_count self
  ∧ sdk_mode_enable self' = sdk_mode_enable self
  ∧ sdk_version self' = sdk_version self
  ∧ hardware self' = hardware self
  ∧ mission_mode_enable self' = mission_mode_enable self
  ∧ STREAMING_ENABLE self' = STREAMING_ENABLE self
  ∧ VIDEO_STREAMING_PORT self' = VIDEO_STREAMING_PORT self
  ∧ state_receiver_thread self' = state_receiver_thread self.
Proof. by intros [t ->]. Qed.

(** The wait loop only sleeps in steps of 100, and not beyond the timeout
    by more than one step. *)
Lemma wait_for_response_clock (fuel : nat) (timestamp timeout : Z)
    (self : Tello) (w : World) :
  ∃ k : Z,
    0 <= k
    ∧ clock (wait_for_response fuel timestamp timeout self w).2
      = clock w + 100 * k
    ∧ (k = 0 ∨ clock w + 100 * k - timestamp <= 1000 * timeout + 100).
Proof.
  revert w. induction fuel as [|fuel IH]; intros w.
  { exists 0. simpl. split; [lia|]. split; [lia|by left]. }
  simpl. unfold bind at 1. unfold own_responses, bind, get, get_world, ret. simpl.
  destruct (from_option responses [] (drones w !! (address self).1)).
  - unfold time, get_world. simpl.
    destruct (Z.gtb_spec (clock w - timestamp) (1000 * timeout)) as [Hlate|Hearly].
    + exists 0. simpl. split; [lia|]. split; [lia|by left].
    + unfold sleep, update_world. simpl.
      destruct (IH (advance 100 w)) as (k & Hk & Hclock & Hbound).
      rewrite advance_clock in Hclock, Hbound.
      exists (k + 1). split; [lia|]. split; [rewrite Hclock; lia|].
      right. destruct Hbound as [->|Hbound]; lia.
  - exists 0. simpl. split; [lia|]. split; [lia|by left].
Qed.

(** What follows the send, from the state [w1] in which the datagram has
    just left. *)
Lemma after_send_spec (command : string) (timeout : Z) (self : Tello) (w1 : World) :
  ∃ r self' w' (k : Z),
    bind (await_response (clock w1) timeout)
      (λ answered, if answered then read_response
                   else ret (timeout_message command timeout)) self w1
    = (r, self', w')
    ∧ 0 <= k ∧ clock w' = clock w1 + 100 * k
    ∧ 100 * k <= Z.max 0 (1000 * timeout + 100)
    ∧ ((await_response (clock w1) timeout self w1).1.1 = Ok false →
       1000 * timeout < 100 * k).
Proof.
  unfold bind. rewrite await_response_run.
  destruct (drones w1 !! (address self).1) as [peer|].
  - destruct (wait_for_response_clock (polls timeout) (clock w1) timeout self w1)
      as (k & Hk & Hclock & Hbound).
    destruct (wait_for_response_spec (polls timeout) (clock w1) timeout self w1)
      as (r & w2 & Hrun & _ & _ & _ & Hr).
    rewrite Hrun in Hclock |- *. simpl in Hclock.
    destruct r as [[|]|e|]; simpl.
    + destruct (read_response_spec self w2) as (r & w3 & -> & _ & Hclock3 & _).
      eexists _, _, _, k. split; [done|]. rewrite Hclock3.
      split_and!; [done|done|lia|done].
    + eexists _, _, _, k. split; [done|].
      split_and!; [done|done|lia|]. intros _. destruct Hr as [_ Hr]. lia.
    + done.
    + exfalso. pose proof (polls_enough timeout). lia.
  - eexists _, _, _, 0. split; [done|]. simpl. split_and!; [lia|lia|lia|done].
Qed.
(** X5.  The wait of [__send_command_and_return] is bounded.  Counted from
    the [timestamp] of the send, the call returns after a whole number of
    polling periods of 100 ms, no later than one period after the timeout
    has elapsed; when it returns on the timeout, more than the timeout has
    elapsed. *)
Theorem dispatcher_wait_bounded (command : string) (timeout : Z)
    (self : Tello) (w : World) (timestamp : Z) :
  result_of (pace_and_send command) (self, w) = Ok timestamp →
  ∃ k : Z,
    0 <= k
    ∧ clock (state_after (__send_command_and_return command timeout) (self, w)).2
      = timestamp + 100 * k
    ∧ 100 * k <= Z.max 0 (1000 * timeout + 100)
    ∧ (timed_out command timeout (self, w) → 1000 * timeout < 100 * k).
Proof.
  unfold timed_out, state_after, result_of. simpl.
  rewrite send_command_and_return_run, wait_outcome_run.
  destruct (pace_and_send command self w) as [[[ts|e|] self1] w1] eqn:Hpace;
    simpl; [|done..].
  intros [= ->].
  assert (timestamp = clock w1 ∧ self1 = self) as [-> ->].
  { rewrite pace_and_send_run in Hpace. cbv zeta in Hpace.
    destruct (_ <? TIME_BTW_COMMANDS) in Hpace.
    - destruct (_ <? 0) in Hpace; [done|]. injection Hpace as <- <- <-.
      simpl. by rewrite advance_clock.
    - by injection Hpace as <- <- <-. }
  destruct (after_send_spec command timeout self w1)
    as (r & self' & w' & k & -> & Hk & Hclock & Hbound & Hlate).
  exists k. simpl. by split_and!.
Qed.

Lemma dispatcher_wait_bounded_witness :
  ∃ k : Z,
    0 <= k
    ∧ clock (state_after (__send_command_and_return "takeoff" 8) (started [])).2
      = 1000 + 100 * k
    ∧ 100 * k <= Z.max 0 (1000 * 8 + 100)
    ∧ (timed_out "takeoff" 8 (started []) → 1000 * 8 < 100 * k).
Proof.
  apply (dispatcher_wait_bounded "takeoff" 8 (started []).1 (started []).2 1000).
  vm_compute. reflexivity.
Defined.

Lemma wait_outcome_cases (command : string) (timeout : Z) (self : Tello) (w : World) :
  registered self w → clock_sane self w →
  ∃ outcome, wait_outcome command timeout (self, w) = Ok outcome.
Proof.
  unfold registered, clock_sane. intros Hreg Hsane.
  rewrite wait_outcome_run, pace_and_send_run. cbv zeta.
  assert (∀ w1, (∀ ip, is_Some (drones w1 !! ip) ↔ is_Some (drones w !! ip)) →
            ∃ outcome,
              (await_response (clock w1) timeout self
                 (with_sent command self w1)).1.1 = Ok outcome) as Hwait.
  { intros w1 Hdom. rewrite await_response_run.
    change (drones (with_sent command self w1)) with (drones w1).
    apply Hdom in Hreg as [peer ->].
    destruct (wait_for_response_spec (polls timeout) (clock w1) timeout self
                (with_sent command self w1)) as (r & w2 & -> & _ & _ & _ & Hr).
    destruct r as [outcome|e|]; simpl; [eauto|done|].
    exfalso. simpl in Hr. pose proof (polls_enough timeout). lia. }
  destruct (Z.ltb_spec (clock w - last_received_command_timestamp self)
              TIME_BTW_COMMANDS).
  - destruct (Z.ltb_spec (clock w - last_received_command_timestamp self) 0);
      [lia|].
    simpl. rewrite <- (advance_clock _ w). apply Hwait.
    intros ip. apply advance_dom.
  - simpl. by apply Hwait.
Qed.

(** On a session that is registered and whose clock is not behind the
    pacing timestamp, [__send_command_and_return] returns a text and keeps
    both facts. *)
Lemma attempt_ok (command : string) (timeout : Z) (self : Tello) (w : World) :
  registered self w → clock_sane self w →
  ∃ text self' w',
    __send_command_and_return command timeout self w = (Ok text, self', w')
    ∧ same_session self self'
    ∧ transmitted w w' [(command, address self)]
    ∧ registered self' w' ∧ clock_sane self' w'
    ∧ (timed_out command timeout (self, w) →
       text = timeout_message command timeout ∧ self' = self).
Proof.
  intros Hreg Hsane.
  destruct (wait_outcome_cases command timeout self w Hreg Hsane) as [outcome Hwait].
  destruct (send_command_and_return_spec command timeout self w)
    as (r & self' & w' & Hrun & _ & Hclock & Hdom & Hsent & Hr).
  rewrite Hwait in Hr. unfold clock_sane in Hsane.
  rewrite decide_True in Hsent by done. destruct Hsent as (t & _ & Hout & _).
  assert (transmitted w w' [(command, address self)]) as Htrans.
  { by exists [(t, (command, address self))]. }
  unfold timed_out. rewrite Hwait. destruct outcome.
  - destruct Hr as [Htext ->]. destruct (Htext Hreg) as [text ->].
    exists text, (set_last_received_command_timestamp (clock w') self), w'.
    split; [done|]. split; [apply same_session_stamp|].
    split; [done|]. split; [by apply Hdom|]. split; [unfold clock_sane; simpl; lia|].
    done.
  - destruct Hr as [-> ->]. eexists _, self, w'. split; [done|].
    split; [apply same_session_refl|]. split; [done|].
    split; [by apply Hdom|]. split; [unfold clock_sane; lia|done].
Qed.

(** X6.  A session made by [__init__] never sees [__send_command_and_return]
    raise, whatever the docstring says: with its entry in [drones] and a
    clock that has not run backwards, every call hands back a text (the
    response, the decode-error text or the timeout message), has sent
    exactly one datagram, the command, to the address of the drone, changes
    no attribute of the session but the pacing timestamp, and leaves the
    session in a state where the same holds again. *)
Theorem dispatcher_returns_text (command : string) (timeout : Z)
    (self : Tello) (w : World) :
  registered self w → clock_sane self w →
  ∃ text self' w',
    __send_command_and_return command timeout self w = (Ok text, self', w')
    ∧ same_session self self'
    ∧ transmitted w w' [(command, address self)]
    ∧ registered self' w' ∧ clock_sane self' w'.
Proof.
  intros Hreg Hsane.
  destruct (attempt_ok command timeout self w Hreg Hsane)
    as (text & self' & w' & Hrun & Hsame & Hsent & Hreg' & Hsane' & _).
  by exists text, self', w'.
Qed.

Lemma dispatcher_returns_text_witness :
  ∃ text self' w',
    __send_command_and_return "takeoff" 8 (started []).1 (started []).2
    = (Ok text, self', w')
    ∧ same_session (started []).1 self'
    ∧ transmitted (started []).2 w' [("takeoff", address (started []).1)]
    ∧ registered self' w' ∧ clock_sane self' w'.
Proof.
  apply dispatcher_returns_text.
  - unfold registered. vm_compute. eauto.
  - unfold clock_sane. vm_compute. discriminate.
Defined.
(** *** Pacing, queued responses and a silent drone *)

(** X7.  The pacing delay is the time already elapsed since the pacing
    timestamp when that is under 100 ms, and nothing otherwise.  So the
    datagram leaves at least 100 ms after the timestamp exactly when the
    caller itself let 50 ms or more go by. *)
Theorem pacing_delay (command : string) (self : Tello) (w : World) :
  clock_sane self w →
  let elapsed := clock w - last_received_command_timestamp self in
  ∃ timestamp,
    result_of (pace_and_send command) (self, w) = Ok timestamp
    ∧ timestamp - clock w = (if elapsed <? TIME_BTW_COMMANDS then elapsed else 0)
    ∧ (TIME_BTW_COMMANDS <= timestamp - last_received_command_timestamp self
       ↔ 50 <= elapsed).
Proof.
  intros Hsane elapsed. unfold clock_sane in Hsane. unfold result_of. simpl.
  rewrite pace_and_send_run. cbv zeta. fold elapsed.
  unfold TIME_BTW_COMMANDS.
  destruct (Z.ltb_spec elapsed 100).
  - destruct (Z.ltb_spec elapsed 0); [lia|]. simpl.
    eexists. split; [done|]. subst elapsed. lia.
  - simpl. eexists. split; [done|]. subst elapsed. lia.
Qed.

Lemma pacing_delay_witness :
  let s := seen_after 30 [] in
  ∃ timestamp,
    result_of (pace_and_send "land") s = Ok timestamp
    ∧ timestamp - clock s.2
      = (if clock s.2 - last_received_command_timestamp s.1 <? TIME_BTW_COMMANDS
         then clock s.2 - last_received_command_timestamp s.1 else 0)
    ∧ (TIME_BTW_COMMANDS <= timestamp - last_received_command_timestamp s.1
       ↔ 50 <= clock s.2 - last_received_command_timestamp s.1).
Proof.
  apply (pacing_delay "land" (seen_after 30 []).1 (seen_after 30 []).2).
  unfold clock_sane. vm_compute. discriminate.
Defined.

Lemma advance_queue (d : Z) (self : Tello) (w : World) :
  ∃ more, own_queue self (advance d w) = (own_queue self w ++ more)%list.
Proof.
  unfold own_queue, advance.
  destruct (threads_initialized w); simpl; [|exists []; by rewrite app_nil_r].
  destruct (drones w !! (address self).1) as [peer|] eqn:Hpeer.
  - rewrite (receive_thread_lookup _ _ _ _ Hpeer). simpl. eauto.
  - destruct (__receive_thread _ (drones w) !! (address self).1) eqn:Hafter.
    + assert (is_Some (drones w !! (address self).1)) as [? ?]; [|congruence].
      apply (receive_thread_dom
               (snd <$> filter (λ x, arrived (clock w + d) x) (inbox w))).
      by rewrite Hafter.
    + exists []. done.
Qed.

Lemma wait_for_response_queued (fuel : nat) (timestamp timeout : Z)
    (self : Tello) (w : World) :
  own_queue self w ≠ [] →
  wait_for_response (S fuel) timestamp timeout self w = (Ok true, self, w).
Proof.
  unfold own_queue. intros Hqueue. simpl.
  unfold bind at 1. unfold own_responses, bind, get, get_world, ret. simpl.
  by destruct (from_option responses [] (drones w !! (address self).1)).
Qed.

Lemma read_response_run (self : Tello) (w : World) (first : string)
    (rest : list string) :
  own_queue self w = first :: rest →
  ∃ w',
    read_response self w
    = (Ok (response_text first),
       set_last_received_command_timestamp (clock w) self, w')
    ∧ clock w' = clock w ∧ outbox w' = outbox w
    ∧ own_queue self w' = rest.
Proof.
  unfold own_queue, read_response, pop_first_response, __get_own_udp_object,
    try_except_class, bind, time, update, update_world, get, get_world, lift,
    ret, raise, dict_getitem, response_text. simpl.
  destruct (drones w !! (address self).1) as [peer|] eqn:Hpeer; simpl; [|done].
  intros ->. simpl. unfold decode_utf8.
  destruct (well_formed_utf8 first); simpl;
    (eexists; split; [done|]; simpl; split_and!; try done;
     by rewrite lookup_insert_eq).
Qed.

(** X8.  Responses carry no tag: whatever datagram of the drone is at the
    head of the queue when a command is issued is taken for its answer.  The
    call sends the command, does not wait at all, and returns the decoded
    head (or the decode-error text); the rest of the queue stays for the
    next call. *)
Theorem queued_response_served_first (command : string) (timeout : Z)
    (self : Tello) (w : World) (first : string) (rest : list string) :
  clock_sane self w →
  own_queue self w = first :: rest →
  ∃ timestamp self' w' more,
    result_of (pace_and_send command) (self, w) = Ok timestamp
    ∧ __send_command_and_return command timeout self w
      = (Ok (response_text first), self', w')
    ∧ clock w' = timestamp
    ∧ last_received_command_timestamp self' = timestamp
    ∧ own_queue self' w' = (rest ++ more)%list.
Proof.
  unfold clock_sane, result_of. intros Hsane Hqueue. simpl.
  rewrite send_command_and_return_run, pace_and_send_run. cbv zeta.
  assert (∀ w1 more,
            own_queue self w1 = (first :: rest ++ more)%list →
            ∃ self' w',
              bind (await_response (clock w1) timeout)
                (λ answered, if answered then read_response
                             else ret (timeout_message command timeout))
                self (with_sent command self w1)
              = (Ok (response_text first), self', w')
              ∧ clock w' = clock w1
              ∧ last_received_command_timestamp self' = clock w1
              ∧ own_queue self' w' = (rest ++ more)%list) as Hrest.
  { intros w1 more Hqueue1. unfold bind. rewrite await_response_run.
    change (drones (with_sent command self w1)) with (drones w1).
    destruct (drones w1 !! (address self).1) as [peer|] eqn:Hpeer;
      [|by unfold own_queue in Hqueue1; rewrite Hpeer in Hqueue1].
    replace (polls timeout) with (S (Z.to_nat (10 * timeout) + 1))
      by (unfold polls; lia).
    rewrite wait_for_response_queued
      by (change (own_queue self (with_sent command self w1))
            with (own_queue self w1); by rewrite Hqueue1).
    destruct (read_response_run self (with_sent command self w1) first
                (rest ++ more)) as (w' & -> & Hclock & _ & Hrest); [done|].
    eexists _, w'. split; [done|]. by split_and!. }
  destruct (Z.ltb_spec (clock w - last_received_command_timestamp self)
              TIME_BTW_COMMANDS).
  - destruct (Z.ltb_spec (clock w - last_received_command_timestamp self) 0);
      [lia|].
    destruct (advance_queue (clock w - last_received_command_timestamp self) self w)
      as [more Hmore].
    rewrite Hqueue in Hmore.
    destruct (Hrest _ more Hmore) as (self' & w' & Hrun & Hclock & Hlast & Hq).
    rewrite advance_clock in Hrun, Hclock, Hlast.
    eexists _, self', w', more. by split_and!.
  - destruct (Hrest w []) as (self' & w' & Hrun & Hclock & Hlast & Hq).
    { by rewrite app_nil_r. }
    eexists _, self', w', []. by split_and!.
Qed.

Lemma queued_response_served_first_witness :
  ∃ timestamp self' w' more,
    result_of (pace_and_send "land") (started [(500, "ok"); (600, "late")])
    = Ok timestamp
    ∧ __send_command_and_return "land" 8
        (started [(500, "ok"); (600, "late")]).1
        (started [(500, "ok"); (600, "late")]).2
      = (Ok (response_text "ok"), self', w')
    ∧ clock w' = timestamp
    ∧ last_received_command_timestamp self' = timestamp
    ∧ own_queue self' w' = (["late"] ++ more)%list.
Proof.
  apply queued_response_served_first.
  - unfold clock_sane. vm_compute. discriminate.
  - vm_compute. reflexivity.
Defined.
Lemma advance_quiet (d : Z) (w : World) :
  quiet w → quiet (advance d w) ∧ drones (advance d w) = drones w.
Proof.
  unfold quiet, advance. intros Hquiet. rewrite Hquiet.
  by destruct (threads_initialized w).
Qed.

Lemma wait_for_response_quiet (fuel : nat) (timestamp timeout : Z)
    (self : Tello) (w : World) :
  quiet w → own_queue self w = [] →
  ∃ r w',
    wait_for_response fuel timestamp timeout self w = (r, self, w')
    ∧ r ≠ Ok true ∧ quiet w' ∧ drones w' = drones w.
Proof.
  revert w. induction fuel as [|fuel IH]; intros w Hquiet Hqueue.
  { by exists OutOfFuel, w. }
  simpl. unfold bind at 1. unfold own_responses, bind, get, get_world, ret. simpl.
  unfold own_queue in Hqueue. rewrite Hqueue.
  unfold time, get_world. simpl.
  destruct (_ >? _).
  - by exists (Ok false), w.
  - unfold sleep, update_world. simpl.
    destruct (advance_quiet 100 w Hquiet) as [Hquiet' Hdrones].
    destruct (IH (advance 100 w)) as (r & w' & -> & Hr & Hq & Hd); [done| |].
    { unfold own_queue. by rewrite Hdrones. }
    exists r, w'. rewrite Hd. done.
Qed.

(** An attempt while nothing arrives and nothing is queued: it times out. *)
Lemma attempt_quiet (command : string) (timeout : Z) (self : Tello) (w : World) :
  registered self w → clock_sane self w →
  quiet w → own_queue self w = [] →
  ∃ w',
    __send_command_and_return command timeout self w
    = (Ok (timeout_message command timeout), self, w')
    ∧ transmitted w w' [(command, address self)]
    ∧ registered self w' ∧ clock_sane self w'
    ∧ quiet w' ∧ own_queue self w' = [].
Proof.
  intros Hreg Hsane Hquiet Hqueue.
  assert (timed_out command timeout (self, w)) as Hout.
  { unfold timed_out.
    destruct (wait_outcome_cases command timeout self w Hreg Hsane)
      as [[|] Hwait]; [exfalso|done].
    rewrite wait_outcome_run, pace_and_send_run in Hwait. cbv zeta in Hwait.
    assert (∀ w1, quiet w1 → own_queue self w1 = [] →
              (await_response (clock w1) timeout self
                 (with_sent command self w1)).1.1 ≠ Ok true) as Hnever.
    { intros w1 Hq1 Hqueue1. rewrite await_response_run.
      change (drones (with_sent command self w1)) with (drones w1).
      destruct (drones w1 !! (address self).1); [|done].
      destruct (wait_for_response_quiet (polls timeout) (clock w1) timeout self
                  (with_sent command self w1)) as (r & w2 & -> & Hr & _);
        done. }
    unfold clock_sane in Hsane.
    destruct (Z.ltb_spec (clock w - last_received_command_timestamp self)
                TIME_BTW_COMMANDS).
    - destruct (Z.ltb_spec (clock w - last_received_command_timestamp self) 0);
        [lia|].
      simpl in Hwait. rewrite <- (advance_clock _ w) in Hwait.
      destruct (advance_quiet (clock w - last_received_command_timestamp self)
                  w Hquiet) as [Hq Hd].
      apply (Hnever _ Hq); [|done]. unfold own_queue. by rewrite Hd.
    - simpl in Hwait. by apply (Hnever w). }
  destruct (attempt_ok command timeout self w Hreg Hsane)
    as (text & self' & w' & Hrun & _ & Hsent & Hreg' & Hsane' & Htext).
  destruct (Htext Hout) as [-> ->].
  exists w'. split; [done|]. split; [done|]. split; [done|]. split; [done|].
  (* the globals: nothing arrived meanwhile *)
  revert Hrun. rewrite send_command_and_return_run, pace_and_send_run. cbv zeta.
  assert (∀ w1, quiet w1 → own_queue self w1 = [] →
            bind (await_response (clock w1) timeout)
              (λ answered, if answered then read_response
                           else ret (timeout_message command timeout))
              self (with_sent command self w1)
            = (Ok (timeout_message command timeout), self, w') →
            quiet w' ∧ own_queue self w' = []) as Hrest.
  { intros w1 Hq1 Hqueue1. unfold bind. rewrite await_response_run.
    change (drones (with_sent command self w1)) with (drones w1).
    destruct (drones w1 !! (address self).1); [|done].
    destruct (wait_for_response_quiet (polls timeout) (clock w1) timeout self
                (with_sent command self w1)) as (r & w2 & -> & Hr & Hq2 & Hd2);
      [done..|].
    destruct r as [[|]|e|]; [done| |done..].
    intros [= <-]. split; [done|]. unfold own_queue. rewrite Hd2. done. }
  unfold clock_sane in Hsane.
  destruct (Z.ltb_spec (clock w - last_received_command_timestamp self)
              TIME_BTW_COMMANDS).
  - destruct (Z.ltb_spec (clock w - last_received_command_timestamp self) 0);
      [lia|].
    destruct (advance_quiet (clock w - last_received_command_timestamp self)
                w Hquiet) as [Hq Hd].
    rewrite <- (advance_clock _ w). apply Hrest; [done|].
    unfold own_queue. by rewrite Hd.
  - by apply Hrest.
Qed.

Lemma send_command_attempts_quiet (n : nat) (command : string) (timeout : Z)
    (self : Tello) (w : World) :
  says_ok (timeout_message command timeout) = false →
  registered self w → clock_sane self w →
  quiet w → own_queue self w = [] →
  ∃ w',
    send_command_attempts n command timeout self w = (Ok false, self, w')
    ∧ transmitted w w' (replicate n (command, address self))
    ∧ registered self w' ∧ clock_sane self w'
    ∧ quiet w' ∧ own_queue self w' = [].
Proof.
  intros Hmsg. revert w.
  induction n as [|n IH]; intros w Hreg Hsane Hquiet Hqueue.
  - exists w. split; [done|]. split; [|done]. exists []. by rewrite app_nil_r.
  - destruct (attempt_quiet command timeout self w Hreg Hsane Hquiet Hqueue)
      as (w1 & Hrun & Hsent & Hreg1 & Hsane1 & Hquiet1 & Hqueue1).
    destruct (IH w1 Hreg1 Hsane1 Hquiet1 Hqueue1)
      as (w' & Hloop & Hsent' & Hrest).
    exists w'. split.
    + simpl. unfold bind. rewrite Hrun. unfold says_ok in Hmsg. by rewrite Hmsg.
    + split; [|done].
      apply (transmitted_trans _ _ _ [_] _ Hsent Hsent').
Qed.

Lemma send_command_quiet (command : string) (timeout : Z)
    (self : Tello) (w : World) :
  says_ok (timeout_message command timeout) = false →
  registered self w → clock_sane self w →
  quiet w → own_queue self w = [] →
  ∃ w',
    send_command command timeout self w = (Ok false, self, w')
    ∧ transmitted w w'
        (replicate (Z.to_nat (retry_count self)) (command, address self))
    ∧ registered self w' ∧ clock_sane self w'
    ∧ quiet w' ∧ own_queue self w' = [].
Proof.
  intros Hmsg Hreg Hsane Hquiet Hqueue. rewrite send_command_run.
  by apply send_command_attempts_quiet.
Qed.

(** X9.  Against a drone that never answers, [send_command] gives up: for a
    command whose timeout message does not contain "ok", on a session with
    an empty queue and nothing on its way, it returns [False] after exactly
    [retry_count] datagrams, all of them the command, and leaves the session
    object as it was. *)
Theorem send_command_unanswered (command : string) (timeout : Z)
    (self : Tello) (w : World) :
  says_ok (timeout_message command timeout) = false →
  registered self w → clock_sane self w →
  quiet w → own_queue self w = [] →
  ∃ w',
    send_command command timeout self w = (Ok false, self, w')
    ∧ transmitted w w'
        (replicate (Z.to_nat (retry_count self)) (command, address self)).
Proof.
  intros Hmsg Hreg Hsane Hquiet Hqueue.
  destruct (send_command_quiet command timeout self w Hmsg Hreg Hsane Hquiet
              Hqueue) as (w' & Hrun & Hsent & _).
  by exists w'.
Qed.

Lemma send_command_unanswered_witness :
  ∃ w',
    send_command "takeoff" 8 (started []).1 (started []).2
    = (Ok false, (started []).1, w')
    ∧ transmitted (started []).2 w'
        (replicate (Z.to_nat (retry_count (started []).1))
           ("takeoff", address (started []).1)).
Proof.
  apply send_command_unanswered.
  - vm_compute. reflexivity.
  - unfold registered. vm_compute. eauto.
  - unfold clock_sane. vm_compute. discriminate.
  - vm_compute. reflexivity.
  - vm_compute. reflexivity.
Defined.

(** X10.  [connect] against a drone that never answers: the mode entry
    "command" is sent [retry_count] times and nothing else, [connect]
    returns without raising, and the session object is exactly as before
    (the SDK-mode flag, the cached version and hardware and the state
    thread are not touched). *)
Theorem connect_unanswered (self : Tello) (w : World) :
  registered self w → clock_sane self w →
  quiet w → own_queue self w = [] →
  ∃ w',
    connect self w = (Ok (), self, w')
    ∧ transmitted w w'
        (replicate (Z.to_nat (retry_count self)) ("command", address self)).
Proof.
  intros Hreg Hsane Hquiet Hqueue.
  destruct (send_command_quiet "command" TIMEOUT self w)
    as (w' & Hrun & Hsent & _); [by vm_compute|done..|].
  exists w'. split; [|done]. unfold connect, bind. by rewrite Hrun.
Qed.

Lemma connect_unanswered_witness :
  ∃ w',
    connect (started []).1 (started []).2 = (Ok (), (started []).1, w')
    ∧ transmitted (started []).2 w'
        (replicate (Z.to_nat (retry_count (started []).1))
           ("command", address (started []).1)).
Proof.
  apply connect_unanswered.
  - unfold registered. vm_compute. eauto.
  - unfold clock_sane. vm_compute. discriminate.
  - vm_compute. reflexivity.
  - vm_compute. reflexivity.
Defined.
(** *** The other peers *)

Lemma peers_grow_refl (own : string) (drones : gmap string PeerRecord) :
  peers_grow own drones drones.
Proof.
  intros ip peer Hpeer. exists (responses peer). split; [by destruct peer|].
  intros _. exists []. by rewrite app_nil_r.
Qed.

Lemma peers_grow_trans (own : string) (d1 d2 d3 : gmap string PeerRecord) :
  peers_grow own d1 d2 → peers_grow own d2 d3 → peers_grow own d1 d3.
Proof.
  intros H12 H23 ip peer Hpeer.
  destruct (H12 ip peer Hpeer) as (queue2 & Hpeer2 & Hmore2).
  destruct (H23 ip _ Hpeer2) as (queue3 & Hpeer3 & Hmore3).
  exists queue3. split; [done|]. intros Hip.
  destruct (Hmore2 Hip) as [more2 ->]. destruct (Hmore3 Hip) as [more3 ->].
  exists (more2 ++ more3)%list. simpl. by rewrite app_assoc.
Qed.

Lemma advance_peers (own : string) (d : Z) (w : World) :
  peers_grow own (drones w) (drones (advance d w)).
Proof.
  unfold advance. destruct (threads_initialized w); [|apply peers_grow_refl].
  intros ip peer Hpeer. simpl.
  rewrite (receive_thread_lookup _ _ _ _ Hpeer). eauto.
Qed.

Lemma wait_for_response_peers (fuel : nat) (timestamp timeout : Z)
    (self : Tello) (w : World) (own : string) :
  peers_grow own (drones w)
    (drones (wait_for_response fuel timestamp timeout self w).2).
Proof.
  revert w. induction fuel as [|fuel IH]; intros w; [apply peers_grow_refl|].
  simpl. unfold bind at 1. unfold own_responses, bind, get, get_world, ret. simpl.
  destruct (from_option responses [] (drones w !! (address self).1));
    [|apply peers_grow_refl].
  unfold time, get_world. simpl.
  destruct (_ >? _); [apply peers_grow_refl|].
  unfold sleep, update_world. simpl.
  apply (peers_grow_trans _ _ (drones (advance 100 w)));
    [apply advance_peers|apply IH].
Qed.

Lemma read_response_peers (self : Tello) (w : World) :
  peers_grow (address self).1 (drones w) (drones (read_response self w).2).
Proof.
  unfold read_response, pop_first_response, __get_own_udp_object,
    try_except_class, bind, time, update, update_world, get, get_world, lift,
    ret, raise, dict_getitem. simpl.
  destruct (drones w !! (address self).1) as [own|] eqn:Hown; simpl;
    [|apply peers_grow_refl].
  destruct (responses own) as [|first rest]; simpl; [apply peers_grow_refl|].
  assert (peers_grow (address self).1 (drones w)
            (<[(address self).1 := Peer rest (state own)]> (drones w)))
    as Hgrow.
  { intros ip peer Hpeer. destruct (decide (ip = (address self).1)) as [->|Hip].
    - rewrite lookup_insert_eq. exists rest. split; [congruence|done].
    - rewrite lookup_insert_ne by done. exists (responses peer).
      split; [by destruct peer|]. intros _. exists []. by rewrite app_nil_r. }
  unfold decode_utf8. by destruct (well_formed_utf8 first).
Qed.

Lemma dispatcher_peers (command : string) (timeout : Z) (self : Tello) (w : World) :
  peers_grow (address self).1 (drones w)
    (drones (__send_command_and_return command timeout self w).2).
Proof.
  rewrite send_command_and_return_run, pace_and_send_run. cbv zeta.
  assert (∀ ts w1,
            peers_grow (address self).1 (drones w) (drones w1) →
            peers_grow (address self).1 (drones w)
              (drones
                 (bind (await_response ts timeout)
                    (λ answered, if answered then read_response
                                 else ret (timeout_message command timeout))
                    self (with_sent command self w1)).2)) as Hrest.
  { intros ts w1 Hgrow. unfold bind. rewrite await_response_run.
    change (drones (with_sent command self w1)) with (drones w1).
    destruct (drones w1 !! (address self).1); [|done].
    pose proof (wait_for_response_peers (polls timeout) ts timeout self
                  (with_sent command self w1) (address self).1) as Hwait.
    pose proof (wait_for_response_spec (polls timeout) ts timeout self
                  (with_sent command self w1)) as (r & w2 & Hrun & _).
    rewrite Hrun in Hwait |- *. simpl in Hwait.
    assert (peers_grow (address self).1 (drones w) (drones w2)) as Hgrow2.
    { by apply (peers_grow_trans _ _ (drones w1)). }
    destruct r as [[|]|e|]; try done.
    apply (peers_grow_trans _ _ (drones w2)); [done|].
    apply read_response_peers. }
  destruct (_ <? TIME_BTW_COMMANDS).
  - destruct (_ <? 0); [apply peers_grow_refl|].
    apply Hrest, advance_peers.
  - apply Hrest, peers_grow_refl.
Qed.

(** *** What the methods keep *)

Lemma kept_refl (self : Tello) (w : World) : kept self w self w.
Proof.
  unfold kept. split_and!; try done; [apply peers_grow_refl|].
  exists []. by rewrite app_nil_r.
Qed.

Lemma connection_address (self self' : Tello) :
  connection self' = connection self → address self' = address self.
Proof. unfold connection. by intros [= -> _ _ _ _ _ _]. Qed.

Lemma kept_trans (self1 self2 self3 : Tello) (w1 w2 w3 : World) :
  kept self1 w1 self2 w2 → kept self2 w2 self3 w3 → kept self1 w1 self3 w3.
Proof.
  intros (Ha & Hp & Hd & Hc & Hs & log & Ho & Hl)
         (Ha' & Hp' & Hd' & Hc' & Hs' & log' & Ho' & Hl').
  unfold kept. split_and!; try congruence; [| |lia|tauto|].
  - rewrite (connection_address _ _ Ha) in Hp'.
    by apply (peers_grow_trans _ _ (drones w2)).
  - intros ip. by rewrite Hd', Hd.
  - exists (log ++ log')%list. split; [by rewrite Ho', Ho, app_assoc|].
    apply Forall_app. split; [done|].
    by rewrite <- (connection_address _ _ Ha).
Qed.

Lemma never_raises_comes_back {A} (m : M A) : never_raises m → comes_back m.
Proof.
  intros Hm self w. destruct (Hm self w) as (v & self' & w' & -> & Hkept).
  by exists (Ok v), self', w'.
Qed.

Lemma ret_never_raises {A} (a : A) : never_raises (ret a).
Proof. intros self w. exists a, self, w. split; [done|apply kept_refl]. Qed.

Lemma get_never_raises {A} (f : Tello → A) : never_raises (get f).
Proof. intros self w. exists (f self), self, w. split; [done|apply kept_refl]. Qed.

Lemma raise_comes_back {A} (e : exn) : comes_back (@raise A e).
Proof.
  intros self w. exists (Raise e), self, w. split; [done|].
  split; [done|apply kept_refl].
Qed.

Lemma lift_comes_back {A} (r : result A) : r ≠ OutOfFuel → comes_back (lift r).
Proof.
  intros Hr self w. exists r, self, w. split; [done|].
  split; [done|apply kept_refl].
Qed.

(** Setting an attribute that is neither one of the connection nor the
    pacing timestamp. *)
Lemma update_never_raises (f : Tello → Tello) :
  (∀ self, connection (f self) = connection self
           ∧ last_received_command_timestamp (f self)
             = last_received_command_timestamp self) →
  never_raises (update f).
Proof.
  intros Hf self w. destruct (Hf self) as (Ha & Ht).
  exists (), (f self), w. split; [done|].
  unfold kept, clock_sane. rewrite Ht.
  split_and!; try done; [apply peers_grow_refl|].
  exists []. by rewrite app_nil_r.
Qed.

Lemma bind_comes_back {A B} (m : M A) (k : A → M B) :
  comes_back m → (∀ a, comes_back (k a)) → comes_back (bind m k).
Proof.
  intros Hm Hk self w. unfold bind.
  destruct (Hm self w) as (r & self1 & w1 & -> & Hr & Hkept).
  destruct r as [a|e|]; [|by eexists _, _, _|done].
  destruct (Hk a self1 w1) as (r & self' & w' & -> & Hr' & Hkept').
  exists r, self', w'. split; [done|]. split; [done|].
  by apply (kept_trans _ self1 _ _ w1).
Qed.

Lemma bind_never_raises {A B} (m : M A) (k : A → M B) :
  never_raises m → (∀ a, never_raises (k a)) → never_raises (bind m k).
Proof.
  intros Hm Hk self w. unfold bind.
  destruct (Hm self w) as (a & self1 & w1 & -> & Hkept).
  destruct (Hk a self1 w1) as (v & self' & w' & -> & Hkept').
  exists v, self', w'. split; [done|]. by apply (kept_trans _ self1 _ _ w1).
Qed.

(** A bare [except] whose handler raises nothing: nothing leaves the
    [try]. *)
Lemma try_except_never_raises {A} (body handler : M A) :
  comes_back body → never_raises handler →
  never_raises (try_except body handler).
Proof.
  intros Hbody Hhandler self w. unfold try_except.
  destruct (Hbody self w) as (r & self1 & w1 & -> & Hr & Hkept).
  destruct r as [a|e|]; [by exists a, self1, w1| |done].
  destruct (Hhandler self1 w1) as (v & self' & w' & -> & Hkept').
  exists v, self', w'. split; [done|]. by apply (kept_trans _ self1 _ _ w1).
Qed.

Lemma sendto_own_address (data : string) :
  never_raises (let* addr := get address in sendto data addr).
Proof.
  intros self w. eexists (), self, _. split; [done|].
  unfold kept, clock_sane. simpl.
  split_and!; try done; [apply peers_grow_refl|].
  eexists [_]. split; [done|]. by apply Forall_singleton.
Qed.

Lemma dispatcher_comes_back (command : string) (timeout : Z) :
  comes_back (__send_command_and_return command timeout).
Proof.
  intros self w.
  pose proof (send_command_and_return_preserves command timeout self w) as Hpres.
  pose proof (dispatcher_peers command timeout self w) as Hpeers.
  destruct (send_command_and_return_spec command timeout self w)
    as (r & self' & w' & Hrun & Hfuel & Hclock & Hdom & Hsent & Hr).
  rewrite Hrun in Hpres, Hpeers. destruct Hpres as (_ & _ & Hsane).
  exists r, self', w'. split; [done|]. split; [done|].
  assert (self' = self
          ∨ self' = set_last_received_command_timestamp (clock w') self)
    as Hself.
  { destruct (wait_outcome command timeout (self, w)) as [[|]|e|];
      [right|left..|done]; by destruct Hr. }
  unfold kept. split_and!; try done; [by destruct Hself as [-> | ->]..|].
  case_decide.
  - destruct Hsent as (t & _ & -> & _). eexists [_]. split; [done|].
    by apply Forall_singleton.
  - destruct Hsent as (_ & _ & ->). exists []. by rewrite app_nil_r.
Qed.

Lemma check_sdk_mode_comes_back : comes_back __check_sdk_mode.
Proof.
  apply bind_comes_back; [apply never_raises_comes_back, get_never_raises|].
  intros [|]; [apply never_raises_comes_back, ret_never_raises
              |apply raise_comes_back].
Qed.

Lemma check_sdk_version_comes_back (version : Z) :
  comes_back (__check_sdk_version version).
Proof.
  apply bind_comes_back; [apply never_raises_comes_back, get_never_raises|].
  intros current. case_bool_decide;
    [apply never_raises_comes_back, ret_never_raises|apply raise_comes_back].
Qed.

Lemma check_hardware_comes_back (hw : string) : comes_back (__check_hardware hw).
Proof.
  apply bind_comes_back; [apply never_raises_comes_back, get_never_raises|].
  intros current. case_bool_decide;
    [apply never_raises_comes_back, ret_never_raises|apply raise_comes_back].
Qed.

Lemma int_returns (text : string) : Py.int text ≠ OutOfFuel.
Proof. by destruct (int_cases text) as [[n ->]| ->]. Qed.

Lemma float_returns (text : string) : Py.float text ≠ OutOfFuel.
Proof. by destruct (float_cases text) as [[x ->]| ->]. Qed.

Lemma dict_getitem_returns `{Countable K} {A} (d : gmap K A) (k : K) :
  dict_getitem d k ≠ OutOfFuel.
Proof. unfold dict_getitem. by destruct (d !! k). Qed.

Lemma int_each_returns (texts : list string) : int_each texts ≠ OutOfFuel.
Proof.
  induction texts as [|text texts IH]; [done|]. simpl.
  destruct (int_cases text) as [[n ->]| ->]; [|done]. simpl.
  by destruct (int_each texts).
Qed.

Lemma get_own_udp_object_comes_back : comes_back __get_own_udp_object.
Proof.
  intros self w. rewrite get_own_udp_object_run. eexists _, self, w.
  split; [done|]. split; [apply dict_getitem_returns|apply kept_refl].
Qed.

(** One step of the proof that a method comes back. *)
Ltac settle_step :=
  lazymatch goal with
  | |- never_raises (try_except _ _) => apply try_except_never_raises
  | |- never_raises (bind (get address) (λ addr, sendto _ addr)) =>
      apply sendto_own_address
  | |- never_raises (bind _ _) => apply bind_never_raises; [|intros ?]
  | |- never_raises (ret _) => apply ret_never_raises
  | |- never_raises (get _) => apply get_never_raises
  | |- never_raises (update _) => apply update_never_raises; done
  | |- never_raises (if ?b then _ else _) => destruct b
  | |- comes_back (bind (get address) (λ addr, sendto _ addr)) =>
      apply never_raises_comes_back, sendto_own_address
  | |- comes_back (bind _ _) => apply bind_comes_back; [|intros ?]
  | |- comes_back (try_except _ _) => apply never_raises_comes_back
  | |- comes_back (ret _) => apply never_raises_comes_back
  | |- comes_back (get _) => apply never_raises_comes_back
  | |- comes_back (update _) => apply never_raises_comes_back
  | |- comes_back (raise _) => apply raise_comes_back
  | |- comes_back (lift (Py.int _)) => apply lift_comes_back, int_returns
  | |- comes_back (lift (Py.float _)) => apply lift_comes_back, float_returns
  | |- comes_back (lift (dict_getitem _ _)) =>
      apply lift_comes_back, dict_getitem_returns
  | |- comes_back (lift (int_each _)) => apply lift_comes_back, int_each_returns
  | |- comes_back (__send_command_and_return _ _) => apply dispatcher_comes_back
  | |- comes_back __check_sdk_mode => apply check_sdk_mode_comes_back
  | |- comes_back (__check_sdk_version _) => apply check_sdk_version_comes_back
  | |- comes_back (__check_hardware _) => apply check_hardware_comes_back
  | |- comes_back __get_own_udp_object => apply get_own_udp_object_comes_back
  | |- comes_back (if ?b then _ else _) => destruct b
  | |- comes_back (match ?x with _ => _ end) => destruct x
  end.

Ltac settle := cbv zeta; repeat settle_step.

Lemma perform_comes_back (c : call) :
  comes_back (perform c)
  ∧ (is_telemetry_reader c = false → never_raises (perform c)).
Proof.
  destruct c; simpl; unfold returns_none, returns_value, returns_values;
    (split; [|first [discriminate | intros _]]);
    unfold get_current_set_speed, get_battery, get_flight_time,
      get_wifi_snr, get_sdk_version, get_serial, get_hardware,
      get_wifi_version, get_ap, get_ssid, set_speed, set_wifi,
      set_mission_on, set_mission_off, set_mission_detection, set_ap,
      set_wifi_channel, set_video_port, set_fps, set_bitrate,
      set_resolution, set_video_direction, takeoff, land, stream_on,
      stream_off, emergency, reboot, motor_on, motor_off, throw_and_fly,
      move_up, move_down, move_left, move_right, move_forward,
      move_backward, rotate_clockwise, rotate_counterclockwise, flip,
      go_to, go_to_pad, joystick_control,
      get_pad_id, get_x, get_y, get_z, get_pad_coord,
      get_pad_orientation, get_orientation, get_speed_x, get_speed_y,
      get_speed_z, get_speed, get_min_temp, get_max_temp,
      get_tof_distance, get_bat, get_baro, get_time, get_acc_x, get_acc_y,
      get_acc_z, get_acceleration,
      __get_state_field, __get_collection_state_fields, get_current_state,
      __convertion_fail, __read_command_fail, __set_command_fail,
      __control_command_fail, __value_out_range, __invalid_option;
    settle.
Qed.
(** X11.  No exception leaves a read, set or control method: whatever the
    session and the globals (connected or not, registered or not, whatever
    the drone answers), the call returns. *)
Theorem command_methods_never_raise (c : call) (self : Tello) (w : World) :
  is_telemetry_reader c = false →
  ∃ v self' w', perform c self w = (Ok v, self', w').
Proof.
  intros Hc. destruct (perform_comes_back c) as [_ Hnever].
  destruct (Hnever Hc self w) as (v & self' & w' & Hrun & _).
  by exists v, self', w'.
Qed.

Lemma command_methods_never_raise_witness :
  ∃ v self' w',
    perform (Set_video_port "8890" "video") (connected []).1 (connected []).2
    = (Ok v, self', w').
Proof.
  apply command_methods_never_raise. reflexivity.
Defined.

(** X12.  Every method comes back, and none of them changes what
    [__init__] and [connect] have set (the address, the retry count, the
    SDK-mode flag, the cached SDK version and hardware, the state thread,
    the rc timestamp), adds or removes an entry of [drones], changes a
    telemetry snapshot, takes a response from the queue of another peer,
    sets the clock back, puts the pacing timestamp ahead of the clock, or
    sends a datagram anywhere but to the address of the session. *)
Theorem methods_keep_session (c : call) (self : Tello) (w : World) :
  ∃ r self' w',
    perform c self w = (r, self', w')
    ∧ r ≠ OutOfFuel
    ∧ kept self w self' w'.
Proof. destruct (perform_comes_back c) as [Hback _]. apply Hback. Qed.

(** *** Telemetry readers *)

Lemma get_collection_state_fields_run (keys : list string) (self : Tello)
    (w : World) (peer : PeerRecord) :
  drones w !! (address self).1 = Some peer →
  __get_collection_state_fields keys self w
  = (Ok (omap (λ key, state peer !! key) keys), self, w).
Proof.
  intros Hpeer.
  unfold __get_collection_state_fields, get_current_state, bind.
  rewrite get_own_udp_object_run. unfold dict_getitem. by rewrite Hpeer.
Qed.

Lemma field_reader_run (key : string) (reader : M (option value))
    (self : Tello) (w : World) (peer : PeerRecord) :
  (key, reader) ∈ field_readers →
  sdk_mode_enable self = true →
  drones w !! (address self).1 = Some peer →
  reader self w = (Ok (state peer !! key), self, w).
Proof.
  unfold field_readers. intros Hin Hsdk Hpeer.
  repeat (apply elem_of_cons in Hin as [[= -> ->]|Hin];
          [first [ by apply get_state_field_run
                 | unfold get_pad_id, get_x, get_y, get_z, get_speed_x,
                     get_speed_y, get_speed_z, get_min_temp, get_max_temp,
                     get_bat, get_baro, get_time, get_acc_x, get_acc_y,
                     get_acc_z, bind;
                   rewrite check_sdk_mode_run, Hsdk;
                   by apply get_state_field_run ]|]).
  by apply elem_of_nil in Hin.
Qed.

Lemma vector_reader_run (keys : list string) (reader : M (list value))
    (self : Tello) (w : World) (peer : PeerRecord) :
  (keys, reader) ∈ vector_readers →
  sdk_mode_enable self = true →
  drones w !! (address self).1 = Some peer →
  reader self w = (Ok (omap (λ key, state peer !! key) keys), self, w).
Proof.
  unfold vector_readers. intros Hin Hsdk Hpeer.
  repeat (apply elem_of_cons in Hin as [[= -> ->]|Hin];
          [unfold get_pad_coord, get_orientation, get_speed, get_acceleration,
             bind;
           rewrite check_sdk_mode_run, Hsdk;
           by apply get_collection_state_fields_run|]).
  by apply elem_of_nil in Hin.
Qed.

Lemma with_telemetry_last (dgs : list datagram) (last : datagram)
    (self : Tello) (w : World) :
  registered self w →
  Forall (readable (drones w)) (dgs ++ [last]) →
  from_host (address self).1 last →
  ∃ queue,
    drones (with_telemetry (dgs ++ [last]) w) !! (address self).1
    = Some (Peer queue (telemetry_of (payload last))).
Proof.
  intros [peer Hpeer] Hall Hlast. simpl.
  rewrite (state_thread_snapshots_gen (drones w) _ _ _ peer) by done.
  rewrite filter_app, filter_cons, decide_True by done.
  rewrite filter_nil, last_snoc. by eexists.
Qed.

(** X13.  The telemetry readers hand out the last datagram of the drone.
    On a connected session, once the state thread has read a run of
    datagrams (each ASCII or from an unregistered host) that ends with one
    from the drone, a reader of one field returns the value that
    [__state_parse] gave that field in this last datagram, [None] if it has
    none there; values of earlier datagrams are not kept.  The call changes
    nothing. *)
Theorem field_reader_reads_last_datagram (key : string)
    (reader : M (option value)) (dgs : list datagram) (last : datagram)
    (self : Tello) (w : World) :
  (key, reader) ∈ field_readers →
  sdk_mode_enable self = true →
  registered self w →
  Forall (readable (drones w)) (dgs ++ [last]) →
  from_host (address self).1 last →
  reader self (with_telemetry (dgs ++ [last]) w)
  = (Ok (telemetry_of (payload last) !! key), self,
     with_telemetry (dgs ++ [last]) w).
Proof.
  intros Hin Hsdk Hreg Hall Hlast.
  destruct (with_telemetry_last dgs last self w Hreg Hall Hlast)
    as [queue Hpeer].
  by rewrite (field_reader_run key reader _ _ _ Hin Hsdk Hpeer).
Qed.

Lemma field_reader_reads_last_datagram_witness :
  get_bat (connected []).1
    (with_telemetry
       ([Datagram "bat:90;h:10;" ("192.168.10.1", 8889)]
        ++ [Datagram "bat:87;" ("192.168.10.1", 8889)]) (connected []).2)
  = (Ok (telemetry_of "bat:87;" !! "bat"), (connected []).1,
     with_telemetry
       ([Datagram "bat:90;h:10;" ("192.168.10.1", 8889)]
        ++ [Datagram "bat:87;" ("192.168.10.1", 8889)]) (connected []).2).
Proof.
  apply (field_reader_reads_last_datagram "bat" get_bat
           [Datagram "bat:90;h:10;" ("192.168.10.1", 8889)]
           (Datagram "bat:87;" ("192.168.10.1", 8889))).
  - unfold field_readers. do 12 right. left.
  - reflexivity.
  - unfold registered. vm_compute. eauto.
  - repeat constructor; intros _; vm_compute; reflexivity.
  - reflexivity.
Defined.

(** X14.  The readers of several fields return the values their keys have
    in the last datagram, in the order of the keys, and leave out the keys
    that are missing there: the list is then shorter than the number of
    keys, and the position of a value no longer tells its field. *)
Theorem vector_reader_skips_missing_fields (keys : list string)
    (reader : M (list value)) (dgs : list datagram) (last : datagram)
    (self : Tello) (w : World) :
  (keys, reader) ∈ vector_readers →
  sdk_mode_enable self = true →
  registered self w →
  Forall (readable (drones w)) (dgs ++ [last]) →
  from_host (address self).1 last →
  reader self (with_telemetry (dgs ++ [last]) w)
  = (Ok (omap (λ key, telemetry_of (payload last) !! key) keys), self,
     with_telemetry (dgs ++ [last]) w).
Proof.
  intros Hin Hsdk Hreg Hall Hlast.
  destruct (with_telemetry_last dgs last self w Hreg Hall Hlast)
    as [queue Hpeer].
  by rewrite (vector_reader_run keys reader _ _ _ Hin Hsdk Hpeer).
Qed.

Lemma vector_reader_skips_missing_fields_witness :
  get_speed (connected []).1
    (with_telemetry
       ([] ++ [Datagram "vgx:1;vgz:3;" ("192.168.10.1", 8889)])
       (connected []).2)
  = (Ok (omap (λ key, telemetry_of "vgx:1;vgz:3;" !! key) ["vgx"; "vgy"; "vgz"]),
     (connected []).1,
     with_telemetry
       ([] ++ [Datagram "vgx:1;vgz:3;" ("192.168.10.1", 8889)])
       (connected []).2).
Proof.
  apply (vector_reader_skips_missing_fields ["vgx"; "vgy"; "vgz"] get_speed []
           (Datagram "vgx:1;vgz:3;" ("192.168.10.1", 8889))).
  - unfold vector_readers. do 2 right. left.
  - reflexivity.
  - unfold registered. vm_compute. eauto.
  - repeat constructor; intros _; vm_compute; reflexivity.
  - reflexivity.
Defined.
(** *** Checks before a command is sent *)

Lemma dispatch_and_forget (command : string) (self : Tello) (w : World) :
  runs_command command
    (try_except (let* _ := __send_command_and_return command TIMEOUT in ret ())
       (ret ())) self w.
Proof.
  unfold runs_command, state_after. simpl.
  destruct (send_command_and_return_spec command TIMEOUT self w)
    as (r & self' & w' & Hrun & Hfuel & _ & _ & Hsent & _).
  exists self', w'. rewrite Hrun. split_and!; [|done|].
  - unfold try_except, bind. rewrite Hrun. by destruct r.
  - intros Hsane. unfold clock_sane in Hsane.
    rewrite decide_True in Hsent by done. destruct Hsent as (t & _ & Hout & _).
    by exists [(t, (command, address self))].
Qed.

Lemma ranged_command_run (verb : string) (range : Z * Z) (method : Z → M unit)
    (value : Z) (self : Tello) (w : World) :
  (verb, range, method) ∈ ranged_commands →
  sdk_mode_enable self = true →
  method value self w
  = if __check_in_range value range
    then try_except
           (let* _ := __send_command_and_return
                        (verb +:+ " " +:+ str_of_int value) TIMEOUT in ret ())
           (ret ()) self w
    else (Ok (), self, w).
Proof.
  unfold ranged_commands. intros Hin Hsdk.
  repeat (apply elem_of_cons in Hin as [[= -> -> ->]|Hin];
          [unfold set_speed, rotate_clockwise, rotate_counterclockwise;
           rewrite guarded_connected by done;
           by destruct (__check_in_range _ _)|]).
  by apply elem_of_nil in Hin.
Qed.

(** X15.  [set_speed], [rotate_clockwise] and [rotate_counterclockwise] on a
    connected session: with a value inside the range of the method (10..100
    for the speed, 0..360 for the angles, bounds included) the call is one
    run of the dispatcher on the command word followed by the value; with a
    value outside it the call returns and has changed nothing, so nothing
    was sent. *)
Theorem ranged_value_checked (verb : string) (range : Z * Z)
    (method : Z → M unit) (value : Z) (self : Tello) (w : World) :
  (verb, range, method) ∈ ranged_commands →
  sdk_mode_enable self = true →
  if decide (range.1 <= value <= range.2)
  then runs_command (verb +:+ " " +:+ str_of_int value) (method value) self w
  else does_nothing (method value) () self w.
Proof.
  intros Hin Hsdk. unfold runs_command, does_nothing.
  rewrite (ranged_command_run verb range method value self w Hin Hsdk).
  destruct range as [lo hi]. rewrite check_in_range_spec. simpl.
  case_decide.
  - rewrite bool_decide_eq_true_2 by done. apply dispatch_and_forget.
  - by rewrite bool_decide_eq_false_2.
Qed.

Lemma ranged_value_checked_witness :
  runs_command "cw 360" (rotate_clockwise 360) (connected []).1 (connected []).2
  ∧ does_nothing (rotate_clockwise 361) () (connected []).1 (connected []).2.
Proof.
  split.
  - apply (ranged_value_checked "cw" ANGLE_RANGE rotate_clockwise 360
             (connected []).1 (connected []).2).
    + unfold ranged_commands. right. left.
    + reflexivity.
  - apply (ranged_value_checked "cw" ANGLE_RANGE rotate_clockwise 361
             (connected []).1 (connected []).2).
    + unfold ranged_commands. right. left.
    + reflexivity.
Defined.

Lemma go_to_in_range_spec (x y z speed : Z) :
  __check_in_range speed SPEED_RANGE && __check_in_range x COORDINATES_RANGE
  && __check_in_range y COORDINATES_RANGE && __check_in_range z COORDINATES_RANGE
  = bool_decide (go_to_in_range x y z speed).
Proof.
  unfold SPEED_RANGE, COORDINATES_RANGE, go_to_in_range.
  rewrite !check_in_range_spec.
  repeat case_bool_decide; simpl; try done; lia.
Qed.

(** X16.  [go_to] on a connected session sends "go x y z speed" when the
    speed is in 10..100 and each coordinate in -500..500, and otherwise
    returns having changed and sent nothing. *)
Theorem go_to_checked (x y z speed : Z) (self : Tello) (w : World) :
  sdk_mode_enable self = true →
  if decide (go_to_in_range x y z speed)
  then runs_command
         ("go " +:+ str_of_int x +:+ " " +:+ str_of_int y +:+ " "
          +:+ str_of_int z +:+ " " +:+ str_of_int speed)
         (go_to x y z speed) self w
  else does_nothing (go_to x y z speed) () self w.
Proof.
  intros Hsdk. unfold runs_command, does_nothing, go_to. cbv zeta.
  rewrite guarded_connected by done. rewrite go_to_in_range_spec.
  case_decide.
  - rewrite bool_decide_eq_true_2 by done. apply dispatch_and_forget.
  - rewrite bool_decide_eq_false_2 by done.
    unfold try_except.
    by destruct (negb _); [|destruct (negb _)].
Qed.

Lemma go_to_checked_witness :
  runs_command "go 100 -500 0 10" (go_to 100 (-500) 0 10)
    (connected []).1 (connected []).2
  ∧ does_nothing (go_to 100 (-501) 0 10) () (connected []).1 (connected []).2.
Proof.
  split.
  - apply (go_to_checked 100 (-500) 0 10 (connected []).1 (connected []).2).
    reflexivity.
  - apply (go_to_checked 100 (-501) 0 10 (connected []).1 (connected []).2).
    reflexivity.
Defined.

Lemma mission_pad_name (pad : Z) :
  MISSION_PAD_IDs !! pad
  = if decide (1 <= pad <= 8) then Some ("m" +:+ str_of_int pad) else None.
Proof.
  case_decide as Hpad.
  - assert (pad = 1 ∨ pad = 2 ∨ pad = 3 ∨ pad = 4 ∨ pad = 5 ∨ pad = 6
            ∨ pad = 7 ∨ pad = 8) as Hcases by lia.
    by repeat destruct Hcases as [-> | Hcases]; [..|subst pad].
  - unfold MISSION_PAD_IDs. simpl.
    repeat (rewrite lookup_insert_ne by lia). done.
Qed.

(** X17.  [go_to_pad] on a connected session sends
    "go x y z speed m<pad>" when the pad is one of 1..8, the speed in
    10..100 and each coordinate in -500..500, and otherwise returns having
    changed and sent nothing. *)
Theorem go_to_pad_checked (x y z speed pad : Z) (self : Tello) (w : World) :
  sdk_mode_enable self = true →
  if decide (1 <= pad <= 8 ∧ go_to_in_range x y z speed)
  then runs_command
         ("go " +:+ str_of_int x +:+ " " +:+ str_of_int y +:+ " "
          +:+ str_of_int z +:+ " " +:+ str_of_int speed +:+ " m"
          +:+ str_of_int pad)
         (go_to_pad x y z speed pad) self w
  else does_nothing (go_to_pad x y z speed pad) () self w.
Proof.
  intros Hsdk. unfold runs_command, does_nothing, go_to_pad. cbv zeta.
  rewrite guarded_connected by done. rewrite go_to_in_range_spec.
  unfold dict_in, dict_getitem. rewrite mission_pad_name.
  destruct (decide (1 <= pad <= 8)) as [Hpad|Hpad].
  - rewrite bool_decide_eq_true_2 by eauto.
    destruct (decide (go_to_in_range x y z speed)) as [Hrange|Hrange].
    + rewrite decide_True by done. rewrite bool_decide_eq_true_2 by done.
      pose proof (dispatch_and_forget
                    ("go " +:+ str_of_int x +:+ " " +:+ str_of_int y +:+ " "
                     +:+ str_of_int z +:+ " " +:+ str_of_int speed +:+ " m"
                     +:+ str_of_int pad) self w) as Hrun.
      unfold runs_command in Hrun. exact Hrun.
    + rewrite decide_False by tauto. rewrite bool_decide_eq_false_2 by done.
      unfold try_except.
      by destruct (negb _); [|destruct (negb _)].
  - rewrite bool_decide_eq_false_2 by (by intros [? ?]).
    by rewrite decide_False by tauto.
Qed.

Lemma go_to_pad_checked_witness :
  runs_command "go 0 0 50 20 m8" (go_to_pad 0 0 50 20 8)
    (connected []).1 (connected []).2
  ∧ does_nothing (go_to_pad 0 0 50 20 9) () (connected []).1 (connected []).2.
Proof.
  split.
  - apply (go_to_pad_checked 0 0 50 20 8 (connected []).1 (connected []).2).
    reflexivity.
  - apply (go_to_pad_checked 0 0 50 20 9 (connected []).1 (connected []).2).
    reflexivity.
Defined.

(** X18.  [joystick_control] does not go through the dispatcher.  On a
    connected session with the four values in -100..100 it hands
    "rc roll pitch throttle yaw" (throttle before yaw, unlike the
    parameters) to the socket at once: no pacing sleep, no wait for a
    response, no timestamp written, the clock where it was.  With a value
    out of range it returns having changed and sent nothing. *)
Theorem joystick_control_sends_at_once (roll pitch yaw throttle : Z)
    (self : Tello) (w : World) :
  sdk_mode_enable self = true →
  if decide (joystick_in_range roll pitch yaw throttle)
  then joystick_control roll pitch yaw throttle self w
       = (Ok (), self,
          with_sent ("rc " +:+ str_of_int roll +:+ " " +:+ str_of_int pitch
                     +:+ " " +:+ str_of_int throttle +:+ " " +:+ str_of_int yaw)
            self w)
  else does_nothing (joystick_control roll pitch yaw throttle) () self w.
Proof.
  intros Hsdk. unfold does_nothing, joystick_control. cbv zeta.
  rewrite guarded_connected by done.
  unfold JOYSTICK_RANGE, joystick_in_range. rewrite !check_in_range_spec.
  case_decide as Hrange.
  - rewrite !bool_decide_eq_true_2 by tauto. done.
  - destruct (bool_decide _ && bool_decide _ && bool_decide _ && bool_decide _)
      eqn:Hall; [|done].
    exfalso. apply Hrange.
    repeat (apply andb_true_iff in Hall as [Hall ?]).
    repeat match goal with
           | H : bool_decide _ = true |- _ => apply bool_decide_eq_true in H
           end.
    done.
Qed.

Lemma joystick_control_sends_at_once_witness :
  joystick_control 10 (-20) 30 100 (connected []).1 (connected []).2
  = (Ok (), (connected []).1,
     with_sent "rc 10 -20 100 30" (connected []).1 (connected []).2)
  ∧ does_nothing (joystick_control 10 (-20) 30 101) ()
      (connected []).1 (connected []).2.
Proof.
  split.
  - apply (joystick_control_sends_at_once 10 (-20) 30 100
             (connected []).1 (connected []).2).
    reflexivity.
  - apply (joystick_control_sends_at_once 10 (-20) 30 101
             (connected []).1 (connected []).2).
    reflexivity.
Defined.

(** *** Version and hardware gates *)

Lemma gated_version {A} (version : Z) (body handler : M A)
    (self : Tello) (w : World) :
  sdk_version self ≠ Some (VInt version) →
  try_except (__check_sdk_mode ;; __check_sdk_version version ;; body) handler
    self w
  = handler self w.
Proof.
  intros Hversion. unfold try_except, bind. rewrite check_sdk_mode_run.
  destruct (sdk_mode_enable self); [|done].
  unfold __check_sdk_version, bind, get.
  by rewrite bool_decide_eq_false_2.
Qed.

Lemma gated_hardware {A} (hw : string) (body handler : M A)
    (self : Tello) (w : World) :
  hardware self ≠ Some (VStr hw) →
  try_except (__check_sdk_mode ;; __check_hardware hw ;; body) handler self w
  = handler self w.
Proof.
  intros Hhardware. unfold try_except, bind. rewrite check_sdk_mode_run.
  destruct (sdk_mode_enable self); [|done].
  unfold __check_hardware, bind, get.
  by rewrite bool_decide_eq_false_2.
Qed.

(** X19.  The methods for SDK 3.0 and for the RMTT expansion board are shut
    unless [connect] has cached exactly that: a method that checks the SDK
    version does nothing on a session whose cached version is not the
    integer 30 (not read yet, or read as another number or as -1), a method
    that checks the hardware does nothing unless the cached hardware is the
    text "RMTT".  The call returns [None]; the session and the globals are
    as before, so nothing was sent. *)
Theorem gated_methods_shut (c : call) (self : Tello) (w : World) :
  needs_sdk_30 c = true ∧ sdk_version self ≠ Some (VInt 30)
  ∨ needs_rmtt c = true ∧ hardware self ≠ Some (VStr "RMTT") →
  does_nothing (perform c) (Value None) self w.
Proof.
  unfold does_nothing.
  intros [[Hc Hversion]|[Hc Hhardware]]; destruct c; try discriminate Hc;
    simpl; unfold returns_none, returns_value; unfold bind at 1;
    unfold get_hardware, set_video_port, set_fps, set_bitrate, set_resolution,
      set_video_direction, reboot, motor_on, motor_off, throw_and_fly,
      get_wifi_version, get_ap, get_ssid, set_wifi_channel;
    cbv zeta;
    rewrite ?gated_version by done; rewrite ?gated_hardware by done; done.
Qed.

Lemma gated_methods_shut_witness :
  does_nothing (perform Motor_on) (Value None) (connected []).1 (connected []).2.
Proof.
  apply gated_methods_shut. left. split; [reflexivity|discriminate].
Defined.
(** *** [connect] *)

Lemma send_command_attempts_ok (n : nat) (command : string) (timeout : Z)
    (self : Tello) (w : World) :
  registered self w → clock_sane self w →
  ∃ b self' w',
    send_command_attempts n command timeout self w = (Ok b, self', w')
    ∧ same_session self self'
    ∧ registered self' w' ∧ clock_sane self' w'.
Proof.
  revert self w. induction n as [|n IH]; intros self w Hreg Hsane.
  - exists false, self, w. split; [done|]. split; [apply same_session_refl|done].
  - destruct (attempt_ok command timeout self w Hreg Hsane)
      as (text & self1 & w1 & Hrun & Hsame & _ & Hreg1 & Hsane1 & _).
    simpl. unfold bind. rewrite Hrun.
    destruct (contains "ok" (lower text)).
    + by exists true, self1, w1.
    + destruct (IH self1 w1 Hreg1 Hsane1)
        as (b & self' & w' & Hloop & Hsame' & Hrest).
      exists b, self', w'. split; [done|].
      split; [by apply (same_session_trans _ self1)|done].
Qed.

Lemma connect_reads_never_raise :
  never_raises get_sdk_version ∧ never_raises get_hardware
  ∧ never_raises get_battery.
Proof.
  unfold get_sdk_version, get_hardware, get_battery, __convertion_fail,
    __read_command_fail.
  split_and!; settle.
Qed.

(** X20.  [connect] on a session made by [__init__] never raises, and it
    turns on SDK mode exactly when [send_command("command")] returned
    [True]: then the flag is set and the state thread started, whatever the
    three reads that follow bring back; otherwise the session is as before
    (but for the pacing timestamp) and the caller is not told. *)
Theorem connect_enters_sdk_mode (self : Tello) (w : World) :
  registered self w → clock_sane self w →
  ∃ self' w',
    connect self w = (Ok (), self', w')
    ∧ address self' = address self
    ∧ match result_of (send_command "command" TIMEOUT) (self, w) with
      | Ok true => sdk_mode_enable self' = true ∧ state_receiver_thread self' = true
      | _ => same_session self self'
      end.
Proof.
  intros Hreg Hsane. unfold result_of, connect. simpl. unfold bind at 1.
  rewrite send_command_run.
  destruct (send_command_attempts_ok (Z.to_nat (retry_count self)) "command"
              TIMEOUT self w Hreg Hsane)
    as (b & self1 & w1 & -> & Hsame & _).
  simpl. destruct (same_session_fields _ _ Hsame) as (Haddr & _).
  destruct b; [|by exists self1, w1].
  destruct connect_reads_never_raise as (Hsdk & Hhw & Hbat).
  unfold bind, update.
  destruct (Hsdk (set_sdk_mode_enable true self1) w1)
    as (version & self2 & w2 & -> & Hkept2 & _).
  destruct (Hhw (set_sdk_version version self2) w2)
    as (hw & self3 & w3 & -> & Hkept3 & _).
  destruct (Hbat (set_hardware hw self3) w3)
    as (battery & self4 & w4 & -> & Hkept4 & _).
  eexists _, w4. split; [done|]. simpl.
  unfold connection in Hkept2, Hkept3, Hkept4. simpl in Hkept2, Hkept3, Hkept4.
  injection Hkept2 as Ha2 _ _ Hm2 _ _ _.
  injection Hkept3 as Ha3 _ _ Hm3 _ _ _.
  injection Hkept4 as Ha4 _ _ Hm4 _ _ _.
  split; [congruence|]. split; [congruence|done].
Qed.

Lemma connect_enters_sdk_mode_witness :
  ∃ self' w',
    connect (started [(1500, "ok")]).1 (started [(1500, "ok")]).2
    = (Ok (), self', w')
    ∧ address self' = address (started [(1500, "ok")]).1
    ∧ sdk_mode_enable self' = true ∧ state_receiver_thread self' = true.
Proof.
  destruct (connect_enters_sdk_mode (started [(1500, "ok")]).1
              (started [(1500, "ok")]).2) as (self' & w' & Hrun & Haddr & Hmode).
  - unfold registered. vm_compute. eauto.
  - unfold clock_sane. vm_compute. discriminate.
  - exists self', w'. split; [done|]. split; [done|].
    replace (result_of (send_command "command" TIMEOUT) (started [(1500, "ok")]))
      with (@Ok bool true) in Hmode by (vm_compute; reflexivity).
    exact Hmode.
Defined.

(** *** Flags that follow the call, not the answer *)

Lemma dispatch_then {A} (command : string) (k : string → M A) (handler : M A)
    (self : Tello) (w : World) :
  registered self w → clock_sane self w →
  ∃ text self1 w1,
    __send_command_and_return command TIMEOUT self w = (Ok text, self1, w1)
    ∧ try_except (let* response := __send_command_and_return command TIMEOUT in
                  k response) handler self w
      = try_except (k text) handler self1 w1
    ∧ same_session self self1
    ∧ transmitted w w1 [(command, address self)]
    ∧ (timed_out command TIMEOUT (self, w) →
       text = timeout_message command TIMEOUT ∧ self1 = self).
Proof.
  intros Hreg Hsane.
  destruct (attempt_ok command TIMEOUT self w Hreg Hsane)
    as (text & self1 & w1 & Hrun & Hsame & Hsent & _ & _ & Hout).
  exists text, self1, w1. split; [done|]. split; [|done].
  unfold try_except, bind. by rewrite Hrun.
Qed.

(** X21.  [set_mission_on] and [set_mission_off] do not look at the
    response: on a connected session made by [__init__] the flag
    [mission_mode_enable] is set (cleared) once "mon" ("moff") has been
    sent, also when the drone answered with an error or not at all. *)
Theorem mission_flag_ignores_response (self : Tello) (w : World) :
  sdk_mode_enable self = true →
  registered self w → clock_sane self w →
  (∃ self' w',
     set_mission_on self w = (Ok (), self', w')
     ∧ mission_mode_enable self' = true
     ∧ transmitted w w' [("mon", address self)])
  ∧ (∃ self' w',
       set_mission_off self w = (Ok (), self', w')
       ∧ mission_mode_enable self' = false
       ∧ transmitted w w' [("moff", address self)]).
Proof.
  intros Hsdk Hreg Hsane. split.
  - unfold set_mission_on. rewrite guarded_connected by done.
    destruct (dispatch_then "mon" (λ _, update (set_mission_mode_enable true))
                (__set_command_fail "mon") self w Hreg Hsane)
      as (text & self1 & w1 & _ & -> & _ & Hsent & _).
    by eexists _, w1.
  - unfold set_mission_off. rewrite guarded_connected by done.
    destruct (dispatch_then "moff" (λ _, update (set_mission_mode_enable false))
                (__set_command_fail "moff") self w Hreg Hsane)
      as (text & self1 & w1 & _ & -> & _ & Hsent & _).
    by eexists _, w1.
Qed.

Lemma mission_flag_ignores_response_witness :
  (∃ self' w',
     set_mission_on (connected [(1500, "error")]).1
       (connected [(1500, "error")]).2 = (Ok (), self', w')
     ∧ mission_mode_enable self' = true
     ∧ transmitted (connected [(1500, "error")]).2 w'
         [("mon", address (connected [(1500, "error")]).1)])
  ∧ (∃ self' w',
       set_mission_off (connected [(1500, "error")]).1
         (connected [(1500, "error")]).2 = (Ok (), self', w')
       ∧ mission_mode_enable self' = false
       ∧ transmitted (connected [(1500, "error")]).2 w'
           [("moff", address (connected [(1500, "error")]).1)]).
Proof.
  apply mission_flag_ignores_response.
  - reflexivity.
  - unfold registered. vm_compute. eauto.
  - unfold clock_sane. vm_compute. discriminate.
Defined.

(** X22.  [set_mission_detection] sends nothing while mission mode is off
    in the session: with [mission_mode_enable] false the call returns and
    has changed nothing, whatever the direction. *)
Theorem mission_detection_needs_mission_mode (direction : string)
    (self : Tello) (w : World) :
  mission_mode_enable self = false →
  does_nothing (set_mission_detection direction) () self w.
Proof.
  intros Hmission. unfold does_nothing, set_mission_detection.
  unfold try_except, bind at 1. rewrite check_sdk_mode_run.
  destruct (sdk_mode_enable self); [|done].
  destruct (dict_in direction MISSION_DETECTION_DIRECTION); [|done].
  unfold bind, get. by rewrite Hmission.
Qed.

Lemma mission_detection_needs_mission_mode_witness :
  does_nothing (set_mission_detection "both") ()
    (connected []).1 (connected []).2.
Proof.
  apply mission_detection_needs_mission_mode. reflexivity.
Defined.

(** X23.  [stream_on] takes any text for a confirmation.  On a connected
    session made by [__init__] it sends "streamon" and sets
    [STREAMING_ENABLE] unless the response is the empty text; in particular
    the flag is set when the drone did not answer at all, since the timeout
    message is a text like any other. *)
Theorem stream_on_trusts_any_text (self : Tello) (w : World) :
  sdk_mode_enable self = true →
  registered self w → clock_sane self w →
  ∃ text self' w',
    result_of (__send_command_and_return "streamon" TIMEOUT) (self, w) = Ok text
    ∧ stream_on self w = (Ok (), self', w')
    ∧ transmitted w w' [("streamon", address self)]
    ∧ (text ≠ EmptyString → STREAMING_ENABLE self' = true)
    ∧ (text = EmptyString → STREAMING_ENABLE self' = STREAMING_ENABLE self)
    ∧ (timed_out "streamon" TIMEOUT (self, w) → STREAMING_ENABLE self' = true).
Proof.
  intros Hsdk Hreg Hsane. unfold stream_on, result_of. simpl.
  rewrite guarded_connected by done.
  destruct (dispatch_then "streamon"
              (λ response, if bool_decide (response ≠ EmptyString)
                           then update (set_STREAMING_ENABLE true) else ret ())
              (__control_command_fail "stream on") self w Hreg Hsane)
    as (text & self1 & w1 & Hrun & -> & Hsame & Hsent & Hout).
  rewrite Hrun. simpl. destruct Hsame as [t ->].
  case_bool_decide as Htext.
  - eexists text, _, w1. split_and!; try done.
  - eexists text, _, w1. split_and!; try done.
    intros Htimed. destruct (Hout Htimed) as [Htimeout _].
    rewrite Htimeout in Htext. vm_compute in Htext. discriminate Htext.
Qed.

Lemma stream_on_trusts_any_text_witness :
  ∃ text self' w',
    result_of (__send_command_and_return "streamon" TIMEOUT) (connected [])
    = Ok text
    ∧ stream_on (connected []).1 (connected []).2 = (Ok (), self', w')
    ∧ transmitted (connected []).2 w' [("streamon", address (connected []).1)]
    ∧ (text ≠ EmptyString → STREAMING_ENABLE self' = true)
    ∧ (text = EmptyString
       → STREAMING_ENABLE self' = STREAMING_ENABLE (connected []).1)
    ∧ (timed_out "streamon" TIMEOUT (connected []) → STREAMING_ENABLE self' = true).
Proof.
  apply (stream_on_trusts_any_text (connected []).1 (connected []).2).
  - reflexivity.
  - unfold registered. vm_compute. eauto.
  - unfold clock_sane. vm_compute. discriminate.
Defined.

(** X24.  [set_video_port] sends before it validates.  On a connected
    session with SDK version 30 the command "port info video" goes out with
    the two texts as given; only afterwards is [video] converted with
    [int]: the port of the session becomes that number whatever the drone
    answered, and stays as it was when [video] is not a number. *)
Theorem set_video_port_sends_unchecked (info video : string)
    (self : Tello) (w : World) :
  sdk_mode_enable self = true →
  sdk_version self = Some (VInt 30) →
  registered self w → clock_sane self w →
  ∃ self' w',
    set_video_port info video self w = (Ok (), self', w')
    ∧ transmitted w w' [("port " +:+ info +:+ " " +:+ video, address self)]
    ∧ VIDEO_STREAMING_PORT self'
      = match Py.int video with
        | Ok port => port
        | _ => VIDEO_STREAMING_PORT self
        end.
Proof.
  intros Hsdk Hversion Hreg Hsane. unfold set_video_port.
  rewrite guarded_connected by done.
  assert (∀ (body handler : M unit),
            try_except (__check_sdk_version 30 ;; body) handler self w
            = try_except body handler self w) as ->.
  { intros body handler.
    unfold try_except, bind, __check_sdk_version, bind, get.
    by rewrite bool_decide_eq_true_2. }
  destruct (dispatch_then ("port " +:+ info +:+ " " +:+ video)
              (λ _, let* port := lift (Py.int video) in
                    update (set_VIDEO_STREAMING_PORT port))
              (__set_command_fail "ports settings") self w Hreg Hsane)
    as (text & self1 & w1 & _ & -> & [t ->] & Hsent & _).
  unfold try_except, bind, lift, update.
  destruct (int_cases video) as [[port ->]| ->]; by eexists _, w1.
Qed.

Lemma set_video_port_sends_unchecked_witness :
  ∃ self' w',
    set_video_port "8890" "video"
      (set_sdk_version (Some (VInt 30)) (connected []).1) (connected []).2
    = (Ok (), self', w')
    ∧ transmitted (connected []).2 w'
        [("port 8890 video",
          address (set_sdk_version (Some (VInt 30)) (connected []).1))]
    ∧ VIDEO_STREAMING_PORT self' = 11111.
Proof.
  apply (set_video_port_sends_unchecked "8890" "video"
           (set_sdk_version (Some (VInt 30)) (connected []).1) (connected []).2).
  - reflexivity.
  - reflexivity.
  - unfold registered. vm_compute. eauto.
  - unfold clock_sane. vm_compute. discriminate.
Defined.
(** *** Read commands *)

Lemma numeric_read_run (command : string) (t : num_type)
    (read : M (option value)) (self : Tello) (w : World) :
  (command, t, read) ∈ numeric_reads →
  sdk_mode_enable self = true →
  read self w
  = try_except
      (let* response := __send_command_and_return command TIMEOUT in
       try_except
         (let* number := lift (convert t response) in ret (Some number))
         (ret (Some (VInt (-1)))))
      (ret None) self w.
Proof.
  unfold numeric_reads. intros Hin Hsdk.
  repeat (apply elem_of_cons in Hin as [[= -> -> ->]|Hin];
          [unfold get_current_set_speed, get_battery, get_sdk_version;
           rewrite guarded_connected by done;
           unfold try_except, bind, lift; simpl;
           destruct (__send_command_and_return _ _ _ _) as [[[text|e|] ?] ?];
           try done;
           first [ by destruct (Py.float text) | by destruct (Py.int text) ]|]).
  by apply elem_of_nil in Hin.
Qed.

(** X25.  [get_current_set_speed], [get_battery] and [get_sdk_version] on a
    connected session made by [__init__]: the call sends its query once
    and returns the response converted to a number, or -1 when the response
    is not the text of a number.  Nothing tells a response of the drone
    that is no number from no response at all: the timeout message is
    converted like a response, and gives -1 too. *)
Theorem numeric_read_minus_one (command : string) (t : num_type)
    (read : M (option value)) (self : Tello) (w : World) :
  (command, t, read) ∈ numeric_reads →
  sdk_mode_enable self = true →
  registered self w → clock_sane self w →
  ∃ text self' w',
    __send_command_and_return command TIMEOUT self w = (Ok text, self', w')
    ∧ read self w
      = (Ok (Some (match convert t text with
                   | Ok number => number
                   | _ => VInt (-1)
                   end)), self', w')
    ∧ transmitted w w' [(command, address self)]
    ∧ (timed_out command TIMEOUT (self, w) →
       read self w = (Ok (Some (VInt (-1))), self, w')).
Proof.
  intros Hin Hsdk Hreg Hsane.
  rewrite (numeric_read_run command t read self w Hin Hsdk).
  destruct (dispatch_then command
              (λ response,
                 try_except
                   (let* number := lift (convert t response) in ret (Some number))
                   (ret (Some (VInt (-1)))))
              (ret None) self w Hreg Hsane)
    as (text & self1 & w1 & Hrun & -> & _ & Hsent & Hout).
  exists text, self1, w1. split; [done|].
  assert (try_except
            (try_except
               (let* number := lift (convert t text) in ret (Some number))
               (ret (Some (VInt (-1))))) (ret None) self1 w1
          = (Ok (Some (match convert t text with
                       | Ok number => number
                       | _ => VInt (-1)
                       end)), self1, w1)) as ->.
  { unfold try_except, bind, lift, ret.
    by destruct (convert_cases t text) as [[v ->]| ->]. }
  split; [done|]. split; [done|].
  intros Htimed. destruct (Hout Htimed) as [-> ->].
  assert (convert t (timeout_message command TIMEOUT) = Raise ValueError) as ->;
    [|done].
  unfold numeric_reads in Hin.
  repeat (apply elem_of_cons in Hin as [[= -> -> ->]|Hin];
          [by vm_compute|]).
  by apply elem_of_nil in Hin.
Qed.

Lemma numeric_read_minus_one_witness :
  ∃ text self' w',
    __send_command_and_return "battery?" TIMEOUT
      (connected [(1200, "87" +:+ String "013" (String "010" EmptyString))]).1
      (connected [(1200, "87" +:+ String "013" (String "010" EmptyString))]).2
    = (Ok text, self', w')
    ∧ get_battery
        (connected [(1200, "87" +:+ String "013" (String "010" EmptyString))]).1
        (connected [(1200, "87" +:+ String "013" (String "010" EmptyString))]).2
      = (Ok (Some (match convert Int text with
                   | Ok number => number
                   | _ => VInt (-1)
                   end)), self', w')
    ∧ transmitted
        (connected [(1200, "87" +:+ String "013" (String "010" EmptyString))]).2
        w'
        [("battery?",
          address
            (connected
               [(1200, "87" +:+ String "013" (String "010" EmptyString))]).1)]
    ∧ (timed_out "battery?" TIMEOUT
         (connected [(1200, "87" +:+ String "013" (String "010" EmptyString))])
       → get_battery
           (connected
              [(1200, "87" +:+ String "013" (String "010" EmptyString))]).1
           (connected
              [(1200, "87" +:+ String "013" (String "010" EmptyString))]).2
         = (Ok (Some (VInt (-1))),
            (connected
               [(1200, "87" +:+ String "013" (String "010" EmptyString))]).1,
            w')).
Proof.
  apply (numeric_read_minus_one "battery?" Int get_battery).
  - unfold numeric_reads. right. left.
  - reflexivity.
  - unfold registered. vm_compute. eauto.
  - unfold clock_sane. vm_compute. discriminate.
Defined.

Lemma text_read_run (command : string) (read : M (option value))
    (self : Tello) (w : World) :
  (command, read) ∈ text_reads →
  sdk_mode_enable self = true →
  read self w
  = try_except
      (let* response := __send_command_and_return command TIMEOUT in
       ret (Some (VStr response)))
      (ret None) self w.
Proof.
  unfold text_reads. intros Hin Hsdk.
  repeat (apply elem_of_cons in Hin as [[= -> ->]|Hin];
          [unfold get_wifi_snr, get_serial;
           rewrite guarded_connected by done;
           unfold try_except, bind; simpl;
           by destruct (__send_command_and_return _ _ _ _) as [[[text|e|] ?] ?]|]).
  by apply elem_of_nil in Hin.
Qed.

(** X26.  [get_wifi_snr] and [get_serial] return whatever text the
    dispatcher hands them.  On a connected session made by [__init__] the
    value is the response of the drone, and when the drone does not answer
    it is the timeout message: the caller gets
    "Aborting command 'sn?'. ..." for a serial number. *)
Theorem text_read_returns_timeout_message (command : string)
    (read : M (option value)) (self : Tello) (w : World) :
  (command, read) ∈ text_reads →
  sdk_mode_enable self = true →
  registered self w → clock_sane self w →
  ∃ text self' w',
    __send_command_and_return command TIMEOUT self w = (Ok text, self', w')
    ∧ read self w = (Ok (Some (VStr text)), self', w')
    ∧ (timed_out command TIMEOUT (self, w) →
       text = timeout_message command TIMEOUT).
Proof.
  intros Hin Hsdk Hreg Hsane.
  rewrite (text_read_run command read self w Hin Hsdk).
  destruct (dispatch_then command (λ response, ret (Some (VStr response)))
              (ret None) self w Hreg Hsane)
    as (text & self1 & w1 & Hrun & -> & _ & _ & Hout).
  exists text, self1, w1. split; [done|]. split; [done|].
  intros Htimed. by destruct (Hout Htimed).
Qed.

Lemma text_read_returns_timeout_message_witness :
  ∃ text self' w',
    __send_command_and_return "sn?" TIMEOUT (connected []).1 (connected []).2
    = (Ok text, self', w')
    ∧ get_serial (connected []).1 (connected []).2
      = (Ok (Some (VStr text)), self', w')
    ∧ (timed_out "sn?" TIMEOUT (connected [])
       → text = timeout_message "sn?" TIMEOUT).
Proof.
  apply (text_read_returns_timeout_message "sn?" get_serial).
  - unfold text_reads. right. left.
  - reflexivity.
  - unfold registered. vm_compute. eauto.
  - unfold clock_sane. vm_compute. discriminate.
Defined.
(** *** A response that arrives in time *)

Lemma advance_arrival (d : Z) (w : World) (arrival : Z) (dg : datagram) :
  threads_initialized w = true →
  inbox w = [(arrival, dg)] →
  advance d w
  = if decide (arrival <= clock w + d)
    then MkWorld (clock w + d) true (receive_datagram (drones w) dg) [] (outbox w)
    else MkWorld (clock w + d) true (drones w) [(arrival, dg)] (outbox w).
Proof.
  intros Hthreads Hinbox. unfold advance. rewrite Hthreads, Hinbox.
  rewrite !filter_cons, !filter_nil. unfold arrived. simpl.
  destruct (Z.leb_spec arrival (clock w + d)).
  - rewrite decide_True by done.
    rewrite (decide_False (P := ¬ true)) by (intros Hn; by apply Hn).
    rewrite decide_True by done. done.
  - rewrite (decide_False (P := false)) by (intros Hf; exact Hf).
    rewrite decide_True by (intros Hf; exact Hf).
    rewrite decide_False by lia. done.
Qed.

Lemma wait_for_response_arrival (fuel : nat) (timestamp timeout : Z)
    (self : Tello) (arrival : Z) (dg : datagram) (w : World) (turn : Z) :
  threads_initialized w = true →
  inbox w = [(arrival, dg)] →
  from_host (address self).1 dg →
  registered self w →
  own_queue self w = [] →
  clock w = timestamp + 100 * turn →
  clock w < arrival <= timestamp + 1000 * timeout + 100 →
  10 * timeout + 2 <= Z.of_nat fuel + turn →
  ∃ w',
    wait_for_response fuel timestamp timeout self w = (Ok true, self, w')
    ∧ arrival <= clock w' < arrival + 100
    ∧ quiet w'
    ∧ own_queue self w' = [payload dg]
    ∧ outbox w' = outbox w.
Proof.
  revert w turn.
  induction fuel as [|fuel IH];
    intros w turn Hthreads Hinbox Hfrom Hreg Hqueue Hclock Harrival Hfuel.
  { lia. }
  simpl. unfold bind at 1. unfold own_responses, bind, get, get_world, ret. simpl.
  unfold own_queue in Hqueue. rewrite Hqueue.
  unfold time, get_world. simpl.
  destruct (Z.gtb_spec (clock w - timestamp) (1000 * timeout)) as [Hlate|Hearly];
    [lia|].
  unfold sleep, update_world. simpl.
  rewrite (advance_arrival 100 w arrival dg Hthreads Hinbox).
  destruct Hreg as [peer Hpeer].
  case_decide as Hnow.
  - destruct fuel as [|fuel]; [lia|].
    rewrite wait_for_response_queued.
    + eexists. split; [done|]. simpl. split; [lia|]. split; [done|].
      split; [|done]. unfold own_queue. simpl.
      rewrite (receive_datagram_lookup _ _ _ _ Hpeer).
      rewrite decide_True by done. simpl.
      rewrite Hpeer in Hqueue. simpl in Hqueue. by rewrite Hqueue.
    + unfold own_queue. simpl.
      rewrite (receive_datagram_lookup _ _ _ _ Hpeer).
      rewrite decide_True by done. simpl. by destruct (responses peer).
  - destruct (IH (MkWorld (clock w + 100) true (drones w) [(arrival, dg)]
                    (outbox w)) (turn + 1))
      as (w' & Hrun & Hrest); simpl; try done; try lia.
    { by exists peer. }
    by exists w'.
Qed.

Lemma read_response_inbox (self : Tello) (w : World) :
  inbox (read_response self w).2 = inbox w.
Proof.
  unfold read_response, pop_first_response, __get_own_udp_object,
    try_except_class, bind, time, update, update_world, get, get_world, lift,
    ret, raise, dict_getitem. simpl.
  destruct (drones w !! (address self).1) as [peer|]; simpl; [|done].
  destruct (responses peer) as [|first rest]; simpl; [done|].
  unfold decode_utf8. by destruct (well_formed_utf8 first).
Qed.

(** X27.  A response that reaches the socket after the command was sent and
    no later than 100 ms past the timeout is returned: the call sends the
    command, finds the datagram at the first poll after its arrival (so
    less than 100 ms after it), and returns its text, decoded and stripped
    of trailing CR and LF; the pacing timestamp is the time of that poll,
    and the queue is empty again. *)
Theorem response_in_time_is_returned (command : string) (timeout : Z)
    (self : Tello) (w : World) (arrival : Z) (dg : datagram) (timestamp : Z) :
  registered self w → clock_sane self w →
  own_queue self w = [] →
  threads_initialized w = true →
  inbox w = [(arrival, dg)] →
  from_host (address self).1 dg →
  result_of (pace_and_send command) (self, w) = Ok timestamp →
  timestamp < arrival <= timestamp + 1000 * timeout + 100 →
  ∃ self' w',
    __send_command_and_return command timeout self w
    = (Ok (response_text (payload dg)), self', w')
    ∧ arrival <= clock w' < arrival + 100
    ∧ last_received_command_timestamp self' = clock w'
    ∧ same_session self self'
    ∧ own_queue self' w' = [] ∧ quiet w'
    ∧ transmitted w w' [(command, address self)].
Proof.
  intros Hreg Hsane Hqueue Hthreads Hinbox Hfrom Hsend Harrival.
  unfold result_of in Hsend. simpl in Hsend.
  rewrite send_command_and_return_run.
  assert (∃ w1,
            pace_and_send command self w = (Ok timestamp, self, w1)
            ∧ clock w1 = timestamp
            ∧ threads_initialized w1 = true ∧ inbox w1 = [(arrival, dg)]
            ∧ drones w1 = drones w
            ∧ ∃ t, outbox w1 = (outbox w ++ [(t, (command, address self))])%list)
    as (w1 & -> & Hclock1 & Hthreads1 & Hinbox1 & Hdrones1 & t & Hout1).
  { rewrite pace_and_send_run in Hsend |- *. cbv zeta in Hsend |- *.
    unfold clock_sane in Hsane.
    destruct (Z.ltb_spec (clock w - last_received_command_timestamp self)
                TIME_BTW_COMMANDS).
    - destruct (Z.ltb_spec (clock w - last_received_command_timestamp self) 0);
        [lia|].
      simpl in Hsend. injection Hsend as Hts.
      rewrite (advance_arrival _ w arrival dg Hthreads Hinbox).
      rewrite decide_False by lia.
      eexists. split; [by rewrite Hts|]. simpl. split_and!; try done.
      by eexists.
    - simpl in Hsend. injection Hsend as Hts.
      eexists. split; [by rewrite Hts|]. simpl. split_and!; try done.
      by eexists. }
  unfold bind. rewrite await_response_run.
  assert (registered self w1) as Hreg1 by (unfold registered; by rewrite Hdrones1).
  destruct Hreg1 as [peer1 Hpeer1]. rewrite Hpeer1.
  destruct (wait_for_response_arrival (polls timeout) timestamp timeout self
              arrival dg w1 0)
    as (w2 & -> & Hclock2 & Hquiet2 & Hqueue2 & Hout2); try done.
  { by exists peer1. }
  { unfold own_queue. by rewrite Hdrones1. }
  { lia. }
  { lia. }
  { unfold polls. lia. }
  pose proof (read_response_inbox self w2) as Hinbox'.
  destruct (read_response_run self w2 (payload dg) [] Hqueue2)
    as (w' & Hread & Hclock' & Hout' & Hqueue').
  rewrite Hread in Hinbox' |- *. simpl in Hinbox'.
  eexists _, w'. split; [done|]. simpl.
  split; [lia|]. split; [done|]. split; [apply same_session_stamp|].
  split; [done|]. split.
  - unfold quiet in *. by rewrite Hinbox'.
  - exists [(t, (command, address self))]. split; [|done].
    by rewrite Hout', Hout2, Hout1.
Qed.

Lemma response_in_time_is_returned_witness :
  ∃ self' w',
    __send_command_and_return "takeoff" 8
      (started [(1500, "ok")]).1 (started [(1500, "ok")]).2
    = (Ok (response_text (payload (Datagram "ok" drone))), self', w')
    ∧ 1500 <= clock w' < 1500 + 100
    ∧ last_received_command_timestamp self' = clock w'
    ∧ same_session (started [(1500, "ok")]).1 self'
    ∧ own_queue self' w' = [] ∧ quiet w'
    ∧ transmitted (started [(1500, "ok")]).2 w'
        [("takeoff", address (started [(1500, "ok")]).1)].
Proof.
  apply (response_in_time_is_returned "takeoff" 8
           (started [(1500, "ok")]).1 (started [(1500, "ok")]).2
           1500 (Datagram "ok" drone) 1000).
  - unfold registered. vm_compute. eauto.
  - unfold clock_sane. vm_compute. discriminate.
  - vm_compute. reflexivity.
  - vm_compute. reflexivity.
  - vm_compute. reflexivity.
  - reflexivity.
  - vm_compute. reflexivity.
  - lia.
Defined.
(** *** More on the builtins *)

Lemma prefix_spec (sub s : string) :
  String.prefix sub s = true ↔ ∃ after, s = sub +:+ after.
Proof.
  revert sub. induction s as [|c' s IH]; intros [|c sub]; simpl.
  - split; [by exists EmptyString|done].
  - split; [done|by intros [? ?]].
  - split; [by exists (String c' s)|done].
  - destruct (Ascii.eqb_spec c c') as [<-|Hne].
    + destruct (Ascii.ascii_dec c c) as [_|]; [|done].
      rewrite IH. split.
      * intros [after ->]. by exists after.
      * intros [after [= ->]]. by exists after.
    + destruct (Ascii.ascii_dec c c') as [|_]; [done|].
      split; [done|]. intros [after [= ? ?]]. congruence.
Qed.

(** [sub in s] is the test for a substring. *)
Lemma contains_spec (sub s : string) :
  contains sub s = true ↔ substring_of sub s.
Proof.
  unfold substring_of. induction s as [|c s IH].
  - destruct sub as [|c sub]; simpl.
    + split; [by exists EmptyString, EmptyString|done].
    + split; [done|]. by intros ([|? before] & after & Hs).
  - change (contains sub (String c s))
      with (String.prefix sub (String c s) || contains sub s).
    rewrite orb_true_iff, prefix_spec, IH. split.
    + intros [[after ->]|(before & after & ->)].
      * by exists EmptyString, after.
      * by exists (String c before), after.
    + intros ([|c' before] & after & Hs).
      * left. by exists after.
      * right. injection Hs as -> ->. by exists before, after.
Qed.

Lemma rev_app_rev_app (s t u : string) :
  String.rev_app (String.rev_app s t) u = String.rev_app t (s +:+ u).
Proof.
  revert t u. induction s as [|c s IH]; intros t u; simpl; [done|].
  rewrite IH. done.
Qed.

Lemma append_cons (c : ascii) (s t : string) :
  String c s +:+ t = String c (s +:+ t).
Proof. done. Qed.

Lemma append_empty (s : string) : s +:+ EmptyString = s.
Proof. induction s as [|c s IH]; [done|]. by rewrite append_cons, IH. Qed.

Lemma rev_rev (s : string) : String.rev (String.rev s) = s.
Proof.
  unfold String.rev. rewrite rev_app_rev_app. simpl. apply append_empty.
Qed.

Lemma only_rev_app (p : ascii → bool) (s t : string) :
  only p (String.rev_app s t) = only p s && only p t.
Proof.
  revert t. induction s as [|c s IH]; intros t; simpl; [done|].
  rewrite IH. simpl. by destruct (p c), (only p s), (only p t).
Qed.

Lemma drop_while_only (p q : ascii → bool) (s : string) :
  (∀ c, q c = true → p c = false) → only q s = true → drop_while p s = s.
Proof.
  intros Hpq. destruct s as [|c s]; simpl; [done|].
  intros [Hc _]%andb_true_iff. by rewrite (Hpq c Hc).
Qed.

Lemma drop_while_end_only (p q : ascii → bool) (s : string) :
  (∀ c, q c = true → p c = false) → only q s = true →
  drop_while_end p s = s.
Proof.
  intros Hpq Hs. unfold drop_while_end.
  rewrite (drop_while_only p q); [apply rev_rev|done|].
  unfold String.rev. by rewrite only_rev_app, Hs.
Qed.

Lemma digit_char_spec (d : Z) :
  0 <= d < 10 →
  is_digit (digit_char d) = true ∧ digit_value (digit_char d) = d.
Proof.
  intros Hd.
  assert (d = 0 ∨ d = 1 ∨ d = 2 ∨ d = 3 ∨ d = 4 ∨ d = 5 ∨ d = 6 ∨ d = 7
          ∨ d = 8 ∨ d = 9) as Hcases by lia.
  by repeat destruct Hcases as [-> | Hcases]; [..|subst d].
Qed.

Lemma str_of_pos_fuel_step (fuel : nat) (n : Z) (acc : string) :
  str_of_pos_fuel (S fuel) n acc
  = if n <? 10 then String (digit_char (n mod 10)) acc
    else str_of_pos_fuel fuel (n / 10) (String (digit_char (n mod 10)) acc).
Proof. done. Qed.

(** The digits that [str] writes before [acc] are read back by [int] as the
    number they stand for. *)
Lemma str_of_pos_fuel_spec (fuel : nat) (n : Z) (acc : string) :
  0 <= n < 10 ^ Z.of_nat (S fuel) →
  only is_digit (str_of_pos_fuel (S fuel) n EmptyString) = true
  ∧ str_of_pos_fuel (S fuel) n EmptyString ≠ EmptyString
  ∧ str_of_pos_fuel (S fuel) n acc
    = str_of_pos_fuel (S fuel) n EmptyString +:+ acc
  ∧ ∃ k, 0 <= k
         ∧ ∀ a b, digitpart (str_of_pos_fuel (S fuel) n acc) a b
                  = digitpart acc (a * 10 ^ k + n) true.
Proof.
  revert n acc. induction fuel as [|fuel IH]; intros n acc Hn;
    (assert (0 <= n mod 10 < 10) as Hdigit by (apply Z.mod_pos_bound; lia));
    destruct (digit_char_spec _ Hdigit) as [His Hvalue];
    rewrite !(str_of_pos_fuel_step _ n);
    destruct (Z.ltb_spec n 10) as [Hsmall|Hbig];
    try (split; [by simpl; rewrite His|]; split; [done|]; split; [done|];
         exists 1; split; [lia|]; intros a b; simpl; rewrite His, Hvalue;
         rewrite Z.mod_small by lia; f_equal; lia).
  assert (0 <= n / 10 < 10 ^ Z.of_nat (S fuel)) as Hrest.
  { split; [apply Z.div_pos; lia|].
    apply Z.div_lt_upper_bound; [lia|].
    rewrite (Nat2Z.inj_succ (S fuel)), Z.pow_succ_r in Hn by lia. lia. }
  destruct (IH (n / 10) (String (digit_char (n mod 10)) EmptyString) Hrest)
    as (Honly & Hne & Happ & _).
  destruct (IH (n / 10) (String (digit_char (n mod 10)) acc) Hrest)
    as (_ & _ & Happ' & k & Hk & Hread).
  split_and!.
  - rewrite Happ. clear -Honly His.
    induction (str_of_pos_fuel (S fuel) (n / 10) EmptyString) as [|c s IHs];
      [by simpl; rewrite His|].
    rewrite append_cons. simpl in *.
    apply andb_true_iff in Honly as [-> Hs]. simpl. by apply IHs.
  - rewrite Happ.
    by destruct (str_of_pos_fuel (S fuel) (n / 10) EmptyString).
  - rewrite Happ', Happ. clear.
    induction (str_of_pos_fuel (S fuel) (n / 10) EmptyString) as [|c s IHs];
      [done|]. by rewrite !append_cons, IHs.
  - exists (k + 1). split; [lia|]. intros a b. rewrite Hread. simpl.
    rewrite His, Hvalue. f_equal.
    rewrite Z.pow_add_r by lia. rewrite (Z.div_mod n 10) at 3 by lia. lia.
Qed.

Lemma log2_fuel (n : Z) : 0 <= n → n < 10 ^ Z.of_nat (S (Z.to_nat (Z.log2 n))).
Proof.
  intros Hn. rewrite Nat2Z.inj_succ, Z2Nat.id by apply Z.log2_nonneg.
  destruct (decide (n = 0)) as [->|Hpos]; [done|].
  apply (Z.lt_le_trans _ (2 ^ Z.succ (Z.log2 n))).
  - apply Z.log2_spec. lia.
  - apply Z.pow_le_mono_l. pose proof (Z.log2_nonneg n). lia.
Qed.

Lemma to_ascii_only (s : string) :
  only (between 0 127) s = true → to_ascii s = s.
Proof.
  unfold to_ascii. induction s as [|c s IH]; [done|].
  simpl. intros [Hc Hs]%andb_true_iff. rewrite Hc. simpl. rewrite Hc.
  unfold between in Hc. rewrite Hc. by rewrite (IH Hs).
Qed.

Lemma only_weaken (p q : ascii → bool) (s : string) :
  (∀ c, p c = true → q c = true) → only p s = true → only q s = true.
Proof.
  intros Hpq. induction s as [|c s IH]; [done|]. simpl.
  intros [Hc Hs]%andb_true_iff. by rewrite (Hpq c Hc), (IH Hs).
Qed.

(** [int(str(n)) == n], unless [n] has more digits than [int] takes. *)
Lemma int_str_of_int (n : Z) :
  Py.int (str_of_int n)
  = if max_str_digits <? digits_in (str_of_int n) then Raise ValueError
    else Ok n.
Proof.
  unfold str_of_int.
  destruct (str_of_pos_fuel_spec (Z.to_nat (Z.log2 (Z.abs n))) (Z.abs n)
              EmptyString) as (Honly & Hne & _ & k & Hk & Hread).
  { split; [lia|]. apply log2_fuel. lia. }
  set (digits := str_of_pos_fuel _ _ _) in *.
  assert (∀ c, is_digit c = true → is_c_space c = false) as Hspace.
  { intros c. unfold is_digit, is_c_space, between. lia. }
  assert (to_ascii digits = digits) as Hascii.
  { apply to_ascii_only, (only_weaken is_digit); [|done].
    intros c. unfold is_digit, between. lia. }
  assert (c_strip digits = digits) as Hstrip.
  { unfold c_strip. rewrite (drop_while_only _ is_digit) by done.
    by apply (drop_while_end_only _ is_digit). }
  assert (split_sign digits = (false, digits)) as Hsign.
  { destruct digits as [|c rest]; [done|]. simpl in Honly.
    apply andb_true_iff in Honly as [Hc _]. unfold split_sign.
    destruct c as [[] [] [] [] [] [] [] []]; try done. }
  unfold Py.int. destruct (Z.ltb_spec n 0).
  - assert (to_ascii (String "-" digits) = String "-" digits) as ->.
    { apply to_ascii_only. simpl. apply (only_weaken is_digit); [|done].
      intros c. unfold is_digit, between. lia. }
    assert (c_strip (String "-" digits) = String "-" digits) as ->.
    { unfold c_strip. simpl.
      apply (drop_while_end_only _ (λ c, is_digit c || Ascii.eqb c "-")).
      - intros c. unfold is_digit, is_c_space, between.
        destruct (Ascii.eqb_spec c "-") as [->|]; [done|]. lia.
      - simpl. clear -Honly.
        induction digits as [|c s IHs]; simpl in *; [done|].
        apply andb_true_iff in Honly as [-> Hs]. simpl. by apply IHs. }
    replace (digits_in (String "-" digits)) with (digits_in digits)
      by (change (digits_in (String "-" digits)) with (0 + digits_in digits);
          lia).
    cbn [split_sign]. rewrite Hread.
    destruct (max_str_digits <? digits_in digits); [done|].
    unfold signed. f_equal. lia.
  - rewrite Hascii, Hstrip, Hsign, Hread. simpl.
    destruct (max_str_digits <? digits_in digits); [done|]. f_equal. lia.
Qed.

(** *** Options of the video stream *)

Lemma gate_open {A} (body handler : M A) (self : Tello) (w : World) :
  sdk_mode_enable self = true →
  sdk_version self = Some (VInt 30) →
  try_except (__check_sdk_mode ;; __check_sdk_version 30 ;; body) handler self w
  = try_except body handler self w.
Proof.
  intros Hsdk Hversion. rewrite guarded_connected by done.
  unfold try_except, bind, __check_sdk_version, bind, get.
  by rewrite bool_decide_eq_true_2.
Qed.

(** X28.  [SET_RESOLUTION] is one text, "highlow", not a pair, so
    [set_resolution] tests for a substring.  On a connected session with
    SDK version 30 every text that occurs in "highlow" is sent as a
    resolution ("h", the default argument, "ghl" and the empty text
    among them, beside "high" and "low"), and for every other text the call
    returns having changed and sent nothing. *)
Theorem set_resolution_accepts_substrings (resolution : string)
    (self : Tello) (w : World) :
  sdk_mode_enable self = true →
  sdk_version self = Some (VInt 30) →
  (substring_of resolution "highlow" →
   runs_command ("setresolution " +:+ resolution) (set_resolution resolution)
     self w)
  ∧ (¬ substring_of resolution "highlow" →
     does_nothing (set_resolution resolution) () self w).
Proof.
  intros Hsdk Hversion. unfold runs_command, does_nothing, set_resolution.
  rewrite gate_open by done. unfold SET_RESOLUTION.
  split; intros Hsub.
  - apply contains_spec in Hsub. rewrite Hsub. apply dispatch_and_forget.
  - destruct (contains resolution "highlow") eqn:Hcontains; [|done].
    by apply contains_spec in Hcontains.
Qed.

Lemma set_resolution_accepts_substrings_witness :
  runs_command "setresolution ghl" (set_resolution "ghl")
    (set_sdk_version (Some (VInt 30)) (connected []).1) (connected []).2.
Proof.
  apply (set_resolution_accepts_substrings "ghl"
           (set_sdk_version (Some (VInt 30)) (connected []).1) (connected []).2).
  - reflexivity.
  - reflexivity.
  - by exists "hi", "ow".
Defined.

Lemma bitrate_code (bitrate : Z) :
  SET_BITRATE !! str_of_int bitrate
  = if decide (1 <= bitrate <= 5) then Some bitrate else None.
Proof.
  case_decide as Hrange.
  - assert (bitrate = 1 ∨ bitrate = 2 ∨ bitrate = 3 ∨ bitrate = 4
            ∨ bitrate = 5) as Hcases by lia.
    by repeat destruct Hcases as [-> | Hcases]; [..|subst bitrate].
  - destruct (SET_BITRATE !! str_of_int bitrate) as [code|] eqn:Hcode; [|done].
    exfalso. unfold SET_BITRATE in Hcode.
    apply elem_of_list_to_map_2 in Hcode.
    pose proof (int_str_of_int bitrate) as Hint.
    repeat (apply elem_of_cons in Hcode as [[= Hkey _]|Hcode];
            [rewrite Hkey in Hint; vm_compute in Hint;
             first [discriminate Hint | injection Hint as <-; lia]|]).
    by apply elem_of_nil in Hcode.
Qed.

(** X29.  [set_bitrate], given an [int], looks up the text of the number
    among the keys "auto", "1", ..., "5".  On a connected session with SDK
    version 30 the numbers 1 to 5 are sent, as "setbitrate n"; for every
    other number the call returns having changed and sent nothing.  The
    default argument, [SET_BITRATE['auto']], is the number 0 and so one of
    those: called without an argument the method sends nothing. *)
Theorem set_bitrate_checked (bitrate : Z) (self : Tello) (w : World) :
  sdk_mode_enable self = true →
  sdk_version self = Some (VInt 30) →
  if decide (1 <= bitrate <= 5)
  then runs_command ("setbitrate " +:+ str_of_int bitrate) (set_bitrate bitrate)
         self w
  else does_nothing (set_bitrate bitrate) () self w.
Proof.
  intros Hsdk Hversion. unfold runs_command, does_nothing, set_bitrate.
  cbv zeta. rewrite gate_open by done.
  unfold dict_in, dict_getitem. rewrite bitrate_code.
  case_decide as Hrange.
  - rewrite bool_decide_eq_true_2 by eauto.
    pose proof (dispatch_and_forget ("setbitrate " +:+ str_of_int bitrate)
                  self w) as Hrun.
    unfold runs_command in Hrun. exact Hrun.
  - by rewrite bool_decide_eq_false_2 by (by intros [? ?]).
Qed.

Lemma set_bitrate_checked_witness :
  runs_command "setbitrate 5" (set_bitrate 5)
    (set_sdk_version (Some (VInt 30)) (connected []).1) (connected []).2
  ∧ does_nothing (set_bitrate 0) ()
      (set_sdk_version (Some (VInt 30)) (connected []).1) (connected []).2.
Proof.
  split.
  - apply (set_bitrate_checked 5
             (set_sdk_version (Some (VInt 30)) (connected []).1)
             (connected []).2); reflexivity.
  - apply (set_bitrate_checked 0
             (set_sdk_version (Some (VInt 30)) (connected []).1)
             (connected []).2); reflexivity.
Defined.

(** *** The retry loop, when an answer comes *)

Lemma after_attempts_sent (k : nat) (command : string) (timeout : Z)
    (self : Tello) (w : World) :
  registered self w → clock_sane self w →
  transmitted w (after_attempts k command timeout (self, w)).2
    (replicate k (command, address self))
  ∧ same_session self (after_attempts k command timeout (self, w)).1.
Proof.
  revert self w. induction k as [|k IH]; intros self w Hreg Hsane.
  - split; [|apply same_session_refl]. exists []. by rewrite app_nil_r.
  - destruct (attempt_ok command timeout self w Hreg Hsane)
      as (text & self1 & w1 & Hrun & Hsame & Hsent & Hreg1 & Hsane1 & _).
    simpl. unfold state_after. simpl. rewrite Hrun.
    destruct (IH self1 w1 Hreg1 Hsane1) as [Hsent' Hsame'].
    destruct (same_session_fields _ _ Hsame) as (Haddr & _).
    rewrite Haddr in Hsent'. split.
    + apply (transmitted_trans _ _ _ [_] _ Hsent Hsent').
    + by apply (same_session_trans _ self1).
Qed.

(** X30.  [send_command] stops at the first response that contains "ok":
    on a session made by [__init__], when the responses of the first [k]
    attempts have no "ok" in them and that of the next attempt has, with
    [k] below the retry count, the call returns [True] and has sent the
    command exactly [k + 1] times. *)
Theorem send_command_stops_at_first_ok (k : nat) (command : string)
    (timeout : Z) (self : Tello) (w : World) (response : string) :
  registered self w → clock_sane self w →
  (k < Z.to_nat (retry_count self))%nat →
  (∀ j, (j < k)%nat →
     ∃ r, response_of_attempt j command timeout (self, w) = Ok r
          ∧ says_ok r = false) →
  response_of_attempt k command timeout (self, w) = Ok response →
  says_ok response = true →
  ∃ self' w',
    send_command command timeout self w = (Ok true, self', w')
    ∧ same_session self self'
    ∧ transmitted w w' (replicate (S k) (command, address self)).
Proof.
  intros Hreg Hsane Hk Hfail Hresponse Hok. rewrite send_command_run.
  rewrite (send_command_attempts_success _ k command timeout (self, w) response)
    by done.
  destruct (after_attempts_sent (S k) command timeout self w Hreg Hsane)
    as [Hsent Hsame].
  by eexists _, _.
Qed.

Lemma send_command_stops_at_first_ok_witness :
  ∃ self' w',
    send_command "command" 1
      (started [(2500, "OK")]).1 (started [(2500, "OK")]).2
    = (Ok true, self', w')
    ∧ same_session (started [(2500, "OK")]).1 self'
    ∧ transmitted (started [(2500, "OK")]).2 w'
        (replicate 2 ("command", address (started [(2500, "OK")]).1)).
Proof.
  apply (send_command_stops_at_first_ok 1 "command" 1
           (started [(2500, "OK")]).1 (started [(2500, "OK")]).2 "OK").
  - unfold registered. vm_compute. eauto.
  - unfold clock_sane. vm_compute. discriminate.
  - vm_compute. lia.
  - intros j Hj. assert (j = 0%nat) as -> by lia.
    eexists. split; vm_compute; reflexivity.
  - vm_compute. reflexivity.
  - vm_compute. reflexivity.
Defined.
